(** * Quant backtest harness ([run.py]): a shallow embedding and its properties

    The development follows the layout of [run.py]:
    - [F64]: Python [float] as IEEE-754 binary64, with the faults Python
      raises ([ZeroDivisionError], [OverflowError]); the C library's [pow],
      which [**] calls, is a parameter ([Libm]);
    - the statistics ([returns], [sharpe]) and the condition simulator
      ([backtest]);
    - the serialisers ([canon], [dumps]) and the hash ([sha256_hex]);
    - the preregistration record ([prereg]) and the orchestrator
      ([run_once]) over an explicit world of files and effects.

    Python [int] is [Z]; a [list] is a [list]; a [dict] whose order is
    observable (every JSON object here) is an association list in insertion
    order; the output directory is a finite map from file names to texts. *)

From Stdlib Require Import ZArith List Bool Ascii String Lia.
From Stdlib Require Import SpecFloat DecimalString DecimalZ.
From stdpp Require Import base tactics option list strings gmap sorting.

Local Open Scope Z_scope.

(** ** Faults and the fault monad *)

(** The exceptions a run can raise.  [ComplexValue] is not an exception of
    Python: it marks the place where [x ** 0.5] leaves the floats (a negative
    base gives a [complex]). *)
Inductive exn : Type :=
  | ZeroDivisionError
  | OverflowError
  | IndexError
  | KeyError (k : string)
  | FileNotFoundError (f : string)
  | ComplexValue.

Inductive res (A : Type) : Type :=
  | Ok (a : A)
  | Raise (e : exn).
Arguments Ok {A} a.
Arguments Raise {A} e.

#[global] Instance res_ret : MRet res := fun A a => Ok a.
#[global] Instance res_bind : MBind res :=
  fun A B f m => match m with Ok a => f a | Raise e => Raise e end.

#[global] Instance res_fmap : FMap res :=
  fun A B f m => match m with Ok a => Ok (f a) | Raise e => Raise e end.

Definition is_ok {A} (m : res A) : bool :=
  match m with Ok _ => true | Raise _ => false end.

(** ** The library the program runs against *)

(** A NaN, or a value whose sign bit is clear. *)
Definition nonneg (x : spec_float) : Prop :=
  match x with
  | S754_nan => True
  | S754_zero s | S754_infinity s | S754_finite s _ _ => s = false
  end.

(** C's [pow], which Python's [**] calls on a finite positive base other
    than [1.0].  Its rounding is the platform's: glibc's result is within
    one unit in the last place of the power, not always the nearest double
    ([4.536 ** 2] is not [4.536 * 4.536]).  Nothing is assumed of it but
    the sign: a power of a positive base is never negative. *)
Record Libm : Type := {
  libm_pow : spec_float -> spec_float -> spec_float;
  libm_pow_nonneg :
    forall m e y, nonneg (libm_pow (S754_finite false m e) y)
}.

(** [random.Random], the clock and the C library.  A generator is a state;
    [Random seed] is a freshly seeded one; [gauss] and [shuffle] return the
    advanced state.  [clock k] is what [time.strftime] returns after [k]
    effects. *)
Class PyEnv : Type := {
  rng : Type;
  Random : Z -> rng;
  gauss : rng -> spec_float -> spec_float -> spec_float * rng;
  shuffle : rng -> list string -> list string * rng;
  clock : nat -> string;
  libm : Libm
}.

(** ** Python floats *)

Module F64.

Definition float : Type := spec_float.
Definition prec : Z := 53.
Definition emax : Z := 1024.

Definition of_Z (z : Z) : float := binary_normalize prec emax z 0 false.

Definition add : float -> float -> float := SFadd prec emax.
Definition sub : float -> float -> float := SFsub prec emax.
Definition mul : float -> float -> float := SFmul prec emax.
Definition neg : float -> float := SFopp.
Definition sqrt : float -> float := SFsqrt prec emax.

(** [x == y], [x != y], [x < y], [x <= y]; mixed comparisons with an [int]
    go through [of_Z], exact for the small integers of this program. *)
Definition eqb : float -> float -> bool := SFeqb.
Definition neqb (x y : float) : bool := negb (SFeqb x y).
Definition ltb : float -> float -> bool := SFltb.
Definition leb : float -> float -> bool := SFleb.
Definition gtb (x y : float) : bool := SFltb y x.
Definition geb (x y : float) : bool := SFleb y x.

Definition is_zero (x : float) : bool :=
  match x with S754_zero _ => true | _ => false end.
Definition is_nan (x : float) : bool :=
  match x with S754_nan => true | _ => false end.
Definition is_inf (x : float) : bool :=
  match x with S754_infinity _ => true | _ => false end.
(** Neither a NaN nor an infinity. *)
Definition finite (x : float) : bool :=
  match x with S754_zero _ | S754_finite _ _ _ => true | _ => false end.

(** A decimal literal [m / 10^k]: one correctly rounded division of two
    exactly representable integers, hence the double the literal denotes
    (for [|m| < 2^53] and [k <= 22]). *)
Definition lit (m : Z) (k : Z) : float :=
  SFdiv prec emax (of_Z m) (of_Z (10 ^ k)).

Definition zero : float := S754_zero false.
Definition one : float := of_Z 1.

(** [x / y]: a zero divisor raises. *)
Definition div (x y : float) : res float :=
  if is_zero y then Raise ZeroDivisionError else Ok (SFdiv prec emax x y).

(** [x ** 2] ([float_pow] with exponent [2.0]).  [float_pow] settles the
    special values itself: NaN stays NaN, an infinity gives [+inf], a zero
    gives [+0.0]; a negative base is negated first (the exponent is even),
    and [1.0] gives [1.0].  What is left goes to C's [pow]; a result out of
    range is an [OverflowError]. *)
Definition pow_two {env : PyEnv} (x : float) : res float :=
  match x with
  | S754_nan => Ok S754_nan
  | S754_infinity _ => Ok (S754_infinity false)
  | S754_zero _ => Ok zero
  | S754_finite _ m e =>
      let a := S754_finite false m e in
      if eqb a one then Ok one
      else
        let y := libm_pow libm a (of_Z 2) in
        if is_inf y then Raise OverflowError else Ok y
  end.

(** [x ** 0.5] ([float_pow] with exponent [0.5]): NaN stays NaN, both
    infinities give [+inf], both zeros give [+0.0], a negative base leaves
    the floats, [1.0] gives [1.0]; what is left goes to C's [pow]. *)
Definition pow_half {env : PyEnv} (x : float) : res float :=
  match x with
  | S754_nan => Ok S754_nan
  | S754_infinity _ => Ok (S754_infinity false)
  | S754_zero _ => Ok zero
  | S754_finite true _ _ => Raise ComplexValue
  | S754_finite false _ _ =>
      if eqb x one then Ok one
      else
        let y := libm_pow libm x (lit 5 1) in
        if is_inf y then Raise OverflowError else Ok y
  end.

(** [sum(xs)] of floats: the start value is the int [0], and CPython 3.11
    adds from the left. *)
Definition sum (xs : list float) : float := fold_left add xs (of_Z 0).

End F64.

Abbreviation float := F64.float.

Definition len {A} (l : list A) : Z := Z.of_nat (length l).

(** [l[start:stop]] for [0 <= start] and [0 <= stop], the only slices taken
    here; the bounds are clipped to the list as Python does. *)
Definition slice {A} (l : list A) (start stop : Z) : list A :=
  drop (Z.to_nat start) (take (Z.to_nat stop) l).

(** [l[i]] for [0 <= i]. *)
Definition index {A} (l : list A) (i : nat) : res A :=
  match l !! i with Some x => Ok x | None => Raise IndexError end.

(** ** The preregistered parameters *)

Record Prereg : Type := {
  n_days : Z;
  fee_bps : float;
  slippage_bps : float;
  entry_z : float;
  baseline_sharpe_min : float;
  delta_min : float;
  neg_sharpe_max : float
}.

(** [Prereg()]: the defaults of the dataclass. *)
Definition Prereg_default : Prereg := {|
  n_days := 252;
  fee_bps := F64.lit 10 1;
  slippage_bps := F64.lit 20 1;
  entry_z := F64.lit 10 1;
  baseline_sharpe_min := F64.lit 50 2;
  delta_min := F64.lit 30 2;
  neg_sharpe_max := F64.lit 25 2
|}.

Section Statistics.
Context {env : PyEnv}.

(** ** Returns and the Sharpe ratio *)

(** [returns(prices)]: [prices[i]/prices[i-1] - 1.0] for [i] from 1. *)
Fixpoint returns (prices : list float) : res (list float) :=
  match prices with
  | [] => Ok []
  | p0 :: rest =>
      match rest with
      | [] => Ok []
      | p1 :: _ =>
          q ← F64.div p1 p0;
          rs ← returns rest;
          Ok (F64.sub q F64.one :: rs)
      end
  end.

Definition sharpe (rets : list float) : res float :=
  match rets with
  | [] => Ok F64.zero
  | _ =>
      mu ← F64.div (F64.sum rets) (F64.of_Z (len rets));
      sq ← mapM (fun x => F64.pow_two (F64.sub x mu)) rets;
      var ← F64.div (F64.sum sq) (F64.of_Z (Z.max 1 (len rets - 1)));
      sd ← F64.pow_half var;
      if F64.eqb sd (F64.of_Z 0) then Ok F64.zero
      else
        q ← F64.div mu sd;
        a ← F64.pow_half (F64.of_Z 252);
        Ok (F64.mul q a)
  end.

(** *** The Sharpe ratio as the specification words it

    The sample mean; the sample variance with denominator [n - 1], or [1]
    when [n = 1]; [0.0] for an empty series or a zero standard deviation;
    otherwise [(mean / stddev) * sqrt(252)].  The specification names the
    square and the square root without saying how they are rounded, so
    they are parameters.  Every operation is one of IEEE arithmetic: this
    definition returns a value on every input. *)
Definition sharpe_spec (square root : float -> float) (xs : list float)
    : float :=
  let n := len xs in
  if n =? 0 then F64.zero
  else
    let mean := SFdiv F64.prec F64.emax (F64.sum xs) (F64.of_Z n) in
    let variance :=
      SFdiv F64.prec F64.emax
        (F64.sum (map (fun x => square (F64.sub x mean)) xs))
        (F64.of_Z (if n =? 1 then 1 else n - 1)) in
    let stddev := root variance in
    if F64.eqb stddev F64.zero then F64.zero
    else F64.mul (SFdiv F64.prec F64.emax mean stddev) (root (F64.of_Z 252)).

(** The square of IEEE arithmetic: the correctly rounded product. *)
Definition ieee_square (d : float) : float := F64.mul d d.

(** The square and the root as Python's [**] gives them; where [**]
    raises, the value IEEE arithmetic has for the case: an infinity for a
    power out of range, a NaN for the root of a negative number. *)
Definition py_square (d : float) : float :=
  match F64.pow_two d with
  | Ok y => y
  | Raise _ => S754_infinity false
  end.

Definition py_root (v : float) : float :=
  match F64.pow_half v with
  | Ok y => y
  | Raise OverflowError => S754_infinity false
  | Raise _ => S754_nan
  end.

(** A C library whose [pow] gives the nearest double at the exponents
    [2.0] and [0.5]. *)
Definition correctly_rounded (l : Libm) : Prop :=
  forall m e,
    libm_pow l (S754_finite false m e) (F64.of_Z 2)
    = ieee_square (S754_finite false m e)
    /\ libm_pow l (S754_finite false m e) (F64.lit 5 1)
       = F64.sqrt (S754_finite false m e).

(** ** The condition simulator *)

Definition win : Z := 20.

(** The rolling window of day [i]: [rets[max(0, i-win) : i+1]]. *)
Definition window (rets : list float) (i : nat) : list float :=
  let start := Z.max 0 (Z.of_nat i - win) in
  slice rets start (Z.of_nat i + 1).

(** The z-score of the return [r] of day [i] against its window. *)
Definition rolling_z (rets : list float) (i : nat) (r : float) : res float :=
  let w := window rets i in
  mu ← F64.div (F64.sum w) (F64.of_Z (len w));
  var ← (if 1 <? len w then
           sq ← mapM (fun x => F64.pow_two (F64.sub x mu)) w;
           F64.div (F64.sum sq) (F64.of_Z (Z.max 1 (len w - 1)))
         else Ok F64.zero);
  sd ← (if F64.gtb var (F64.of_Z 0) then F64.pow_half var
        else Ok (F64.lit 1 9));
  F64.div (F64.sub r mu) sd.

(** The position taken after seeing the z-score, by condition mode; a mode
    that matches no branch keeps the position. *)
Definition next_pos (pr : Prereg) (mode : string) (z : float) (pos : Z) : Z :=
  if String.eqb mode "baseline" then
    if F64.gtb z (entry_z pr) then 1
    else if F64.ltb z (F64.neg (entry_z pr)) then -1
    else 0
  else if String.eqb mode "ablation" then 1
  else if String.eqb mode "negative_control" then 0
  else pos.

(** The cost charged on a day: [(fee_bps + slippage_bps) * 1e-4] on a trade
    day, [0.0] otherwise. *)
Definition day_cost (pr : Prereg) (traded : bool) : float :=
  if traded then F64.mul (F64.add (fee_bps pr) (slippage_bps pr)) (F64.lit 1 4)
  else F64.zero.

(** One iteration of the loop over the days: the state is the position and
    the P&L list so far. *)
Definition day_step (pr : Prereg) (mode : string) (rets : list float)
    (st : Z * list float) (i : nat) : res (Z * list float) :=
  let '(pos, pnl) := st in
  r ← index rets i;
  z ← rolling_z rets i r;
  let new_pos := next_pos pr mode z pos in
  let traded := negb (new_pos =? pos) in
  let cost := day_cost pr traded in
  Ok (new_pos, pnl ++ [F64.sub (F64.mul (F64.of_Z new_pos) r) cost]).

(** [for i in days: ...], stopping at the first fault. *)
Fixpoint run_days (pr : Prereg) (mode : string) (rets : list float)
    (days : list nat) (st : Z * list float) : res (Z * list float) :=
  match days with
  | [] => Ok st
  | i :: days' =>
      st' ← day_step pr mode rets st i;
      run_days pr mode rets days' st'
  end.

(** [eq = 1.0; for x in pnl: eq *= (1.0 + x)]. *)
Definition compound (pnl : list float) : float :=
  fold_left (fun eq x => F64.mul eq (F64.add F64.one x)) pnl F64.one.

(** [sum(1 for i in range(1, len(pnl)) if pnl[i] != pnl[i-1])]. *)
Fixpoint count_changes (pnl : list float) : Z :=
  match pnl with
  | [] => 0
  | x :: rest =>
      match rest with
      | [] => 0
      | y :: _ => (if F64.neqb y x then 1 else 0) + count_changes rest
      end
  end.

(** The summary of one condition: the dict [backtest] returns. *)
Record ConditionResult : Type := {
  final_equity : float;
  cr_sharpe : float;
  n_trades_approx : Z
}.

(** The body of [backtest] after the return series is known. *)
Definition backtest_rets (pr : Prereg) (rets : list float) (mode : string)
    : res ConditionResult :=
  '(_, pnl) ← run_days pr mode rets (seq 0 (length rets)) (0, []);
  let eq := compound pnl in
  s ← sharpe pnl;
  Ok {| final_equity := eq; cr_sharpe := s; n_trades_approx := count_changes pnl |}.

(** ** Predicates the statements use *)

(** The rolling z-score of every day of the series is computed without a
    fault. *)
Definition z_okb (rets : list float) : bool :=
  forallb
    (fun i => match rets !! i with
              | Some r => is_ok (rolling_z rets i r)
              | None => true
              end)
    (seq 0 (length rets)).

(** The P&L entry of a day with no position and no cost: [0 * r - 0.0]. *)
Definition flat_pnl (r : float) : float :=
  F64.sub (F64.mul (F64.of_Z 0) r) F64.zero.

(** Every entry is a zero of either sign. *)
Definition all_zero (xs : list float) : Prop :=
  Forall (fun x => F64.is_zero x = true) xs.

(** A mode is flat when it leaves a position of [0] at [0], whatever the
    signal. *)
Definition flat_mode (mode : string) : Prop :=
  forall pr z, next_pos pr mode z 0 = 0.

(** The summary of a run that never traded. *)
Definition inert_result : ConditionResult :=
  {| final_equity := F64.one; cr_sharpe := F64.zero; n_trades_approx := 0 |}.

End Statistics.

(** ** Texts: [str(int)], [repr(float)] and JSON *)

Local Open Scope string_scope.

(** [str(n)] for an [int]. *)
Definition str_int (z : Z) : string := NilZero.string_of_int (Z.to_int z).

Fixpoint zeros (n : nat) : string :=
  match n with O => "" | S n' => String "0" (zeros n') end.

Fixpoint join (sep : string) (xs : list string) : string :=
  match xs with
  | [] => ""
  | x :: rest =>
      match rest with
      | [] => x
      | _ :: _ => x ++ sep ++ join sep rest
      end
  end.

(** *** [repr(float)]: the shortest decimal that reads back as the float *)

Module Repr.
Local Open Scope Z_scope.

Definition pow2 (e : Z) : Z := 2 ^ Z.max 0 e.
Definition pow10 (k : Z) : Z := 10 ^ Z.max 0 k.

(** Compare [a * 10^k] with [b * 2^e], all exact. *)
Definition cmp_scaled (a k b e : Z) : comparison :=
  (a * pow10 k * pow2 (- e)) ?= (b * pow2 e * pow10 (- k)).

(** [floor (m * 2^e / 10^k)]. *)
Definition floor_scaled (m e k : Z) : Z :=
  (m * pow2 e * pow10 (- k)) / (pow2 (- e) * pow10 k).

(** The largest [p] with [10^p <= m * 2^e], from an estimate corrected by
    exact comparisons. *)
Definition floor_log10 (m e : Z) : Z :=
  let p0 := ((Z.log2 m + e) * 30103) / 100000 in
  let up p := match cmp_scaled 1 (p + 1) m e with Gt => p | _ => p + 1 end in
  let down p := match cmp_scaled 1 p m e with Gt => p - 1 | _ => p end in
  down (down (up (up p0))).

(** Is the decimal [c * 10^k] rounded (to nearest, ties to even) to the
    float [m * 2^e]?  The interval is bounded by the midpoints to the two
    neighbours; below a power of two the lower neighbour is twice as
    close. *)
Definition reads_back (m e c k : Z) : bool :=
  let lowest := e <=? -1074 in
  let lo := if (m =? 2 ^ 52) && negb lowest then 4 * m - 1 else 4 * m - 2 in
  let hi := 4 * m + 2 in
  let incl := Z.even m in
  let above_lo :=
    match cmp_scaled c k lo (e - 2) with
    | Gt => true | Eq => incl | Lt => false end in
  let below_hi :=
    match cmp_scaled c k hi (e - 2) with
    | Lt => true | Eq => incl | Gt => false end in
  above_lo && below_hi.

(** Of two candidates, is [c * 10^k] at least as close to [m * 2^e] as
    [(c+1) * 10^k]?  ([2 * m * 2^e <= (2c+1) * 10^k], the even one on a
    tie.) *)
Definition lower_closer (m e c k : Z) : bool :=
  match cmp_scaled (2 * c + 1) k (2 * m) e with
  | Gt => true | Eq => Z.even c | Lt => false end.

(** The [n]-digit candidate, if one reads back. *)
Definition candidate (m e p : Z) (n : Z) : option (Z * Z) :=
  let k := p - (n - 1) in
  let c := floor_scaled m e k in
  let okl := reads_back m e c k in
  let okh := reads_back m e (c + 1) k in
  if okl && okh then Some (if lower_closer m e c k then c else c + 1, k)
  else if okl then Some (c, k)
  else if okh then Some (c + 1, k)
  else None.

Fixpoint shortest (m e p : Z) (n : Z) (fuel : nat) : Z * Z :=
  match fuel with
  | O => (floor_scaled m e (p - 16), p - 16)
  | S fuel' =>
      match candidate m e p n with
      | Some ck => ck
      | None => shortest m e p (n + 1) fuel'
      end
  end.

Fixpoint strip_zeros (c k : Z) (fuel : nat) : Z * Z :=
  match fuel with
  | O => (c, k)
  | S fuel' => if (c mod 10 =? 0) && (0 <? c)
               then strip_zeros (c / 10) (k + 1) fuel' else (c, k)
  end.

(** The digit string and [decpt]: the value is [0.digits * 10^decpt]. *)
Definition digits (m e : Z) : string * Z :=
  let p := floor_log10 m e in
  let '(c, k) := shortest m e p 1 17 in
  let '(c, k) := strip_zeros c k 20 in
  let ds := str_int c in
  (ds, Z.of_nat (String.length ds) + k).

Definition exponent_text (x : Z) : string :=
  let a := Z.abs x in
  ((if (x <? 0)%Z then "-" else "+")
     ++ (if (a <? 10)%Z then "0" else "") ++ str_int a)%string.

(** The layout [repr] gives the digits: exponent notation when
    [decpt <= -4] or [decpt > 16], else positional with a [.0] added to an
    integral value. *)
Definition positive_text (m e : Z) : string :=
  let '(ds, decpt) := digits m e in
  let n := Z.of_nat (String.length ds) in
  if (decpt <=? -4) || (16 <? decpt) then
    match ds with
    | String d rest =>
        (String d (match rest with EmptyString => rest | _ => "." ++ rest end)
           ++ "e" ++ exponent_text (decpt - 1))%string
    | EmptyString => ds
    end
  else if decpt <=? 0 then ("0." ++ zeros (Z.to_nat (- decpt)) ++ ds)%string
  else if n <=? decpt then (ds ++ zeros (Z.to_nat (decpt - n)) ++ ".0")%string
  else (substring 0 (Z.to_nat decpt) ds ++ "."
          ++ substring (Z.to_nat decpt) (Z.to_nat (n - decpt)) ds)%string.

(** [float.__repr__]. *)
Definition float_repr (x : float) : string :=
  match x with
  | S754_nan => "nan"
  | S754_infinity s => if s then "-inf" else "inf"
  | S754_zero s => if s then "-0.0" else "0.0"
  | S754_finite s m e =>
      ((if s then "-" else "") ++ positive_text (Z.pos m) e)%string
  end.
End Repr.

(** *** JSON values *)

#[local] Unset Elimination Schemes.
Inductive json : Type :=
  | JNull
  | JBool (b : bool)
  | JInt (z : Z)
  | JFloat (x : float)
  | JStr (s : string)
  | JList (items : list json)
  | JObj (fields : list (string * json)).
#[local] Set Elimination Schemes.

(** [d[k] = v] on a dict in insertion order: an existing key keeps its
    place. *)
Fixpoint dict_set {V} (k : string) (v : V) (d : list (string * V))
    : list (string * V) :=
  match d with
  | [] => [(k, v)]
  | (k', v') :: d' =>
      if String.eqb k' k then (k, v) :: d' else (k', v') :: dict_set k v d'
  end.

(** A dict display [{k1: v1, k2: v2, ...}]. *)
Definition dict_of {V} (kvs : list (string * V)) : list (string * V) :=
  fold_left (fun d kv => dict_set (fst kv) (snd kv) d) kvs [].

Fixpoint dict_get {V} (k : string) (d : list (string * V)) : option V :=
  match d with
  | [] => None
  | (k', v) :: d' => if String.eqb k' k then Some v else dict_get k d'
  end.

(** [d[k]], raising [KeyError]. *)
Definition getitem {V} (d : list (string * V)) (k : string) : res V :=
  match dict_get k d with Some v => Ok v | None => Raise (KeyError k) end.

Definition hex_digit (n : Z) : ascii :=
  match n with
  | 0 => "0" | 1 => "1" | 2 => "2" | 3 => "3" | 4 => "4" | 5 => "5"
  | 6 => "6" | 7 => "7" | 8 => "8" | 9 => "9" | 10 => "a" | 11 => "b"
  | 12 => "c" | 13 => "d" | 14 => "e" | _ => "f"
  end%char%Z.

Definition code (c : ascii) : Z := Z.of_N (N_of_ascii c).

(** The double quote character, as a one-character text. *)
Definition dq : string := String (ascii_of_nat 34) "".

(** The escape of one character inside a JSON string ([ensure_ascii=False]:
    only the quote, the backslash and the control characters). *)
Definition escape_char (c : ascii) : string :=
  let n := code c in
  if (n =? 34)%Z then "\" ++ dq
  else if (n =? 92)%Z then "\\"
  else if (n =? 10)%Z then "\n"
  else if (n =? 13)%Z then "\r"
  else if (n =? 9)%Z then "\t"
  else if (n =? 8)%Z then "\b"
  else if (n =? 12)%Z then "\f"
  else if (n <? 32)%Z then
    "\u00" ++ String (hex_digit (n / 16)) (String (hex_digit (n mod 16)) "")
  else String c "".

Fixpoint escape (s : string) : string :=
  match s with
  | "" => ""
  | String c s' => escape_char c ++ escape s'
  end.

Definition quote (s : string) : string := dq ++ escape s ++ dq.

(** A float inside JSON: [repr], except for the three non-finite values. *)
Definition json_float (x : float) : string :=
  match x with
  | S754_nan => "NaN"
  | S754_infinity s => if s then "-Infinity" else "Infinity"
  | _ => Repr.float_repr x
  end.

(** Insertion of a rendered field by key; [sort_fields] is the stable sort
    [sort_keys=True] asks for. *)
Fixpoint insert_field (kv : string * string) (l : list (string * string))
    : list (string * string) :=
  match l with
  | [] => [kv]
  | kv' :: l' =>
      if String.leb (fst kv) (fst kv') then kv :: l
      else kv' :: insert_field kv l'
  end.

Definition sort_fields (l : list (string * string)) : list (string * string) :=
  foldr insert_field [] l.

(** [canon(obj)]: [json.dumps(obj, sort_keys=True, separators=(",", ":"),
    ensure_ascii=False)]. *)
Fixpoint canon (j : json) : string :=
  match j with
  | JNull => "null"
  | JBool b => if b then "true" else "false"
  | JInt z => str_int z
  | JFloat x => json_float x
  | JStr s => quote s
  | JList items => "[" ++ join "," (map canon items) ++ "]"
  | JObj fields =>
      "{" ++ join ","
               (map (fun kv => quote (fst kv) ++ ":" ++ snd kv)
                  (sort_fields
                     (map (fun kv => (fst kv, canon (snd kv))) fields)))
          ++ "}"
  end.

Definition newline : string := String (ascii_of_nat 10) "".

Fixpoint spaces (n : nat) : string :=
  match n with O => "" | S n' => String " " (spaces n') end.

(** [json.dumps(obj, indent=2, ensure_ascii=False)] at nesting [level]. *)
Fixpoint dumps_at (level : nat) (j : json) : string :=
  let inner := newline ++ spaces (2 * S level) in
  let outer := newline ++ spaces (2 * level) in
  match j with
  | JNull => "null"
  | JBool b => if b then "true" else "false"
  | JInt z => str_int z
  | JFloat x => json_float x
  | JStr s => quote s
  | JList [] => "[]"
  | JList items =>
      "[" ++ inner ++ join ("," ++ inner) (map (dumps_at (S level)) items)
          ++ outer ++ "]"
  | JObj [] => "{}"
  | JObj fields =>
      "{" ++ inner
          ++ join ("," ++ inner)
               (map (fun kv => quote (fst kv) ++ ": " ++ dumps_at (S level) (snd kv))
                  fields)
          ++ outer ++ "}"
  end.

Definition dumps (j : json) : string := dumps_at 0 j.

(** ** SHA-256 ([hashlib.sha256]) over bytes *)

Module SHA256.
Local Open Scope Z_scope.

Definition w32 (x : Z) : Z := x mod 2 ^ 32.
Definition rotr (n x : Z) : Z :=
  Z.lor (Z.shiftr x n) (w32 (Z.shiftl x (32 - n))).
Definition xor3 (a b c : Z) : Z := Z.lxor a (Z.lxor b c).

Definition Ch (x y z : Z) : Z :=
  Z.lxor (Z.land x y) (Z.land (Z.lxor x (2 ^ 32 - 1)) z).
Definition Maj (x y z : Z) : Z :=
  xor3 (Z.land x y) (Z.land x z) (Z.land y z).
Definition Sigma0 (x : Z) : Z := xor3 (rotr 2 x) (rotr 13 x) (rotr 22 x).
Definition Sigma1 (x : Z) : Z := xor3 (rotr 6 x) (rotr 11 x) (rotr 25 x).
Definition sigma0 (x : Z) : Z := xor3 (rotr 7 x) (rotr 18 x) (Z.shiftr x 3).
Definition sigma1 (x : Z) : Z := xor3 (rotr 17 x) (rotr 19 x) (Z.shiftr x 10).

(** The constants of the standard are square and cube roots of the first
    primes: the first 32 bits of the fractional part. *)
Definition is_prime (n : Z) : bool :=
  (1 <? n)
  && forallb (fun d => negb (n mod Z.of_nat d =? 0)) (seq 2 (Z.to_nat n - 2)).

Definition primes : list Z :=
  filter (fun n => is_prime n = true) (map Z.of_nat (seq 2 310)).

(** The largest [r] below [2^bits] with [r^3 <= n]. *)
Fixpoint cube_root (bits : nat) (n r : Z) : Z :=
  match bits with
  | O => r
  | S b =>
      let r' := r + 2 ^ Z.of_nat b in
      cube_root b n (if r' * r' * r' <=? n then r' else r)
  end.

Definition K : list Z :=
  Eval vm_compute in
    map (fun p => w32 (cube_root 40 (p * 2 ^ 96) 0)) (take 64 primes).

Definition H0 : list Z :=
  Eval vm_compute in map (fun p => w32 (Z.sqrt (p * 2 ^ 64))) (take 8 primes).

(** The message, a [1] bit, zeros, and the bit length on 8 bytes. *)
Definition pad (msg : list Z) : list Z :=
  let n := Z.of_nat (length msg) in
  let bits := 8 * n in
  msg ++ [0x80] ++ repeat 0 (Z.to_nat ((55 - n) mod 64))
      ++ map (fun i => Z.shiftr bits (8 * (7 - Z.of_nat i)) mod 256) (seq 0 8).

Fixpoint words (bytes : list Z) : list Z :=
  match bytes with
  | a :: b :: c :: d :: rest =>
      (((a * 256 + b) * 256 + c) * 256 + d) :: words rest
  | _ => []
  end.

Fixpoint blocks (fuel : nat) (ws : list Z) : list (list Z) :=
  match fuel, ws with
  | S fuel', _ :: _ => take 16 ws :: blocks fuel' (drop 16 ws)
  | _, _ => []
  end.

(** The message schedule, newest word first. *)
Fixpoint extend (k : nat) (rev_ws : list Z) : list Z :=
  match k with
  | O => rev_ws
  | S k' =>
      let w := w32 (sigma1 (nth 1 rev_ws 0) + nth 6 rev_ws 0
                    + sigma0 (nth 14 rev_ws 0) + nth 15 rev_ws 0) in
      extend k' (w :: rev_ws)
  end.

Definition schedule (block : list Z) : list Z := rev (extend 48 (rev block)).

Definition round (st : list Z) (kw : Z * Z) : list Z :=
  match st with
  | [a; b; c; d; e; f; g; h] =>
      let t1 := h + Sigma1 e + Ch e f g + fst kw + snd kw in
      let t2 := Sigma0 a + Maj a b c in
      [w32 (t1 + t2); a; b; c; w32 (d + t1); e; f; g]
  | _ => st
  end.

Definition compress (h : list Z) (block : list Z) : list Z :=
  let st := fold_left round (combine K (schedule block)) h in
  map (fun xy => w32 (fst xy + snd xy)) (combine h st).

Definition digest (msg : list Z) : list Z :=
  let ws := words (pad msg) in
  fold_left compress (blocks (length ws) ws) H0.

Definition hex_word (w : Z) : string :=
  fold_right (fun i s => String (hex_digit (Z.shiftr w (4 * (7 - Z.of_nat i)) mod 16)) s)
    EmptyString (seq 0 8).

Definition hexdigest (msg : list Z) : string :=
  fold_right (fun w s => (hex_word w ++ s)%string) EmptyString (digest msg).
End SHA256.

(** [s.encode("utf-8")]: a text is kept as its UTF-8 bytes. *)
Definition encode (s : string) : list Z := map code (list_ascii_of_string s).

(** [sha256_hex(b)]. *)
Definition sha256_hex (b : list Z) : string := SHA256.hexdigest b.

(** ** The preregistration record *)

Definition conditions : list string := ["baseline"; "ablation"; "negative_control"].

(** [pr.__dict__]: the fields in declaration order. *)
Definition params (pr : Prereg) : list (string * json) :=
  [("n_days", JInt (n_days pr));
   ("fee_bps", JFloat (fee_bps pr));
   ("slippage_bps", JFloat (slippage_bps pr));
   ("entry_z", JFloat (entry_z pr));
   ("baseline_sharpe_min", JFloat (baseline_sharpe_min pr));
   ("delta_min", JFloat (delta_min pr));
   ("neg_sharpe_max", JFloat (neg_sharpe_max pr))].

(** The dict [prereg] hashes: it holds the seed. *)
Definition prereg_obj (seed : Z) : list (string * json) :=
  let pr := Prereg_default in
  dict_of
    [("seed", JInt seed);
     ("params", JObj (params pr));
     ("conditions", JList (map JStr conditions));
     ("metric", JStr "sharpe");
     ("notes", JStr "Tiny deterministic backtest harness. Stdlib only.")].

(** The text [prereg] hashes, up to the seed: the canonical text of the
    record without its seed, reopened, then the key of the seed.  The
    canonical text of the whole record is this head, the seed in decimal and
    the closing brace ([canon_prereg_obj] below). *)
Definition prereg_head : string :=
  let fixed := canon (JObj (dict_of
                 [("params", JObj (params Prereg_default));
                  ("conditions", JList (map JStr conditions));
                  ("metric", JStr "sharpe");
                  ("notes", JStr "Tiny deterministic backtest harness. Stdlib only.")])) in
  substring 0 (String.length fixed - 1) fixed ++ "," ++ quote "seed" ++ ":".

(** The [AEQ] of [prereg(seed)]. *)
Definition prereg_aeq (seed : Z) : string :=
  substring 0 12 (sha256_hex (encode (canon (JObj (prereg_obj seed))))).

(** The [CID] of [prereg(seed)]: the hash of [f"{aeq}:{seed}"]. *)
Definition prereg_cid (seed : Z) : string :=
  substring 0 12 (sha256_hex (encode (prereg_aeq seed ++ ":" ++ str_int seed))).

Definition prereg (seed : Z) : list (string * json) :=
  let obj := prereg_obj seed in
  let aeq := prereg_aeq seed in
  let cid := prereg_cid seed in
  dict_set "CID" (JStr cid) (dict_set "AEQ" (JStr aeq) obj).

(** ** The world of a run: the output directory and the effects so far *)

Inductive event : Type :=
  | EvWrite (file : string) (obj : json)    (* [write_json(out_dir/file, obj)] *)
  | EvLedger (entry : json)                 (* a line appended to the ledger *)
  | EvPrint (text : string)                 (* [print(text)] *)
  | EvSimulate (mode : string) (seed : Z).  (* a call of [backtest] *)

Record world : Type := {
  fs : gmap string string;   (* the files of [out_dir], by name *)
  trace : list event         (* oldest effect first *)
}.

(** A run step: it reads and changes the world and returns or faults; the
    world reached at a fault is kept (what was written stays written). *)
Record M (A : Type) : Type := mkM { runM : world -> res A * world }.
Arguments mkM {A} _.
Arguments runM {A} _ _.

#[global] Instance M_ret : MRet M := fun A a => mkM (fun w => (Ok a, w)).
#[global] Instance M_bind : MBind M :=
  fun A B f m =>
    mkM (fun w =>
      match runM m w with
      | (Ok a, w') => runM (f a) w'
      | (Raise e, w') => (Raise e, w')
      end).

(** A pure computation that may fault, run inside a run. *)
Definition lift {A} (m : res A) : M A := mkM (fun w => (m, w)).

Definition emit (ev : event) : M unit :=
  mkM (fun w => (Ok tt, {| fs := fs w; trace := trace w ++ [ev] |})).

(** [write_text(path, s)].  The output directory is taken writable: the
    [OSError] that [mkdir], [open] or a write raise on a path that is not
    is outside this model, which describes the runs whose writes go
    through. *)
Definition write_text (file : string) (s : string) : M unit :=
  mkM (fun w => (Ok tt, {| fs := <[file := s]> (fs w); trace := trace w |})).

(** [write_json(path, obj)]. *)
Definition write_json (file : string) (obj : json) : M unit :=
  _ ← emit (EvWrite file obj);
  write_text file (dumps obj ++ newline).

Definition read_text (file : string) : M string :=
  mkM (fun w => match fs w !! file with
                | Some s => (Ok s, w)
                | None => (Raise (FileNotFoundError file), w)
                end).

Definition exists_file (file : string) : M bool :=
  mkM (fun w => (Ok (bool_decide (is_Some (fs w !! file))), w)).

(** [file_sha256(path)]. *)
Definition file_sha256 (file : string) : M string :=
  s ← read_text file;
  mret (sha256_hex (encode s)).

Definition ledger_file : string := "ledger.ndjson".

(** [entry.setdefault(k, v)]. *)
Definition setdefault {V} (k : string) (v : V) (d : list (string * V))
    : list (string * V) :=
  match dict_get k d with Some _ => d | None => dict_set k v d end.

Section Run.
Context {env : PyEnv}.

Definition now : M string :=
  mkM (fun w => (Ok (clock (length (trace w))), w)).

(** [append_ledger(out_dir, entry)]. *)
Definition append_ledger (entry : list (string * json)) : M unit :=
  ts ← now;
  let entry := setdefault "ts" (JStr ts) entry in
  _ ← emit (EvLedger (JObj entry));
  old ← mkM (fun w => (Ok (default EmptyString (fs w !! ledger_file)), w));
  write_text ledger_file (old ++ canon (JObj entry) ++ newline).

(** ** The path generator *)

Fixpoint gen_loop (k : nat) (g : rng) (p : float) (out : list float)
    : list float * rng :=
  match k with
  | O => (out, g)
  | S k' =>
      let '(r, g') := gauss g (F64.lit 4 4) (F64.lit 1 2) in
      let p' := F64.mul p (F64.add F64.one r) in
      gen_loop k' g' p' (out ++ [p'])
  end.

(** [gen_prices(rng, n)]: [range(n-1)] is empty for [n <= 1]. *)
Definition gen_prices (g : rng) (n : Z) : list float * rng :=
  let p := F64.of_Z 100 in
  gen_loop (Z.to_nat (n - 1)) g p [p].

Definition backtest (pr : Prereg) (g : rng) (mode : string)
    : res ConditionResult :=
  let prices := fst (gen_prices g (n_days pr)) in
  rets ← returns prices;
  backtest_rets pr rets mode.

(** ** Gates and results *)

(** One entry of [gates]: the value, the bound under its key ([min] or
    [max]) and the outcome. *)
Record Gate : Type := {
  g_value : float;
  g_bound_key : string;
  g_bound : float;
  g_pass : bool
}.

Definition gates_of (pr : Prereg) (base_s delta neg_s : float)
    : list (string * Gate) :=
  dict_of
    [("baseline_sharpe_min",
      {| g_value := base_s; g_bound_key := "min";
         g_bound := baseline_sharpe_min pr;
         g_pass := F64.geb base_s (baseline_sharpe_min pr) |});
     ("delta_min",
      {| g_value := delta; g_bound_key := "min";
         g_bound := delta_min pr;
         g_pass := F64.geb delta (delta_min pr) |});
     ("neg_sharpe_max",
      {| g_value := neg_s; g_bound_key := "max";
         g_bound := neg_sharpe_max pr;
         g_pass := F64.leb neg_s (neg_sharpe_max pr) |})].

(** [all(v["pass"] for v in gates.values())]. *)
Definition overall_of (gates : list (string * Gate)) : bool :=
  forallb (fun kv => g_pass (snd kv)) gates.

Definition gate_json (g : Gate) : json :=
  JObj (dict_of [("value", JFloat (g_value g));
                 (g_bound_key g, JFloat (g_bound g));
                 ("pass", JBool (g_pass g))]).

Definition cond_json (c : ConditionResult) : json :=
  JObj (dict_of [("final_equity", JFloat (final_equity c));
                 ("sharpe", JFloat (cr_sharpe c));
                 ("n_trades_approx", JInt (n_trades_approx c))]).

Definition map_values {A B} (f : A -> B) (d : list (string * A))
    : list (string * B) :=
  map (fun kv => (fst kv, f (snd kv))) d.

(** [{cond: f"C{idx+1}" for idx, cond in enumerate(conds)}]. *)
Definition blind_labels (conds : list string) : list (string * string) :=
  dict_of (imap (fun idx cond => (cond, "C" ++ str_int (Z.of_nat idx + 1))) conds).

Definition plain_labels : list (string * string) :=
  dict_of [("baseline", "baseline"); ("ablation", "ablation");
           ("negative_control", "negative_control")].

(** [pr_blob["conditions"][:]], the list of names copied. *)
Definition strings_of (j : json) : list string :=
  match j with
  | JList items =>
      omap (fun x => match x with JStr s => Some s | _ => None end) items
  | _ => []
  end.

Definition delta_key : string := "delta_sharpe(baseline-ablation)".

(** A call of [backtest] from the orchestrator, on a fresh generator. *)
Definition simulate (pr : Prereg) (seed : Z) (mode : string) : M ConditionResult :=
  _ ← emit (EvSimulate mode seed);
  lift (backtest pr (Random seed) mode).

(** The object written to [blind_map.json]. *)
Definition blind_map_obj (seed : Z) (labels : list (string * string)) : json :=
  JObj (dict_of [("seed", JInt seed);
                 ("map_real_to_blind", JObj (map_values JStr labels))]).

(** The [metrics] dict: the three summaries under their labels, then the
    Sharpe difference. *)
Definition metrics_of (lb la ln : string) (base ablt neg : ConditionResult)
    (delta : float) : list (string * json) :=
  dict_of [(lb, cond_json base); (la, cond_json ablt); (ln, cond_json neg);
           (delta_key, JFloat delta)].

(** The [results] dict. *)
Definition results_obj (aeq cid : json) (seed : Z) (blind : bool)
    (metrics : list (string * json)) (gates : list (string * Gate))
    (overall : bool) : json :=
  JObj (dict_of
    [("AEQ", aeq); ("CID", cid); ("seed", JInt seed); ("blind", JBool blind);
     ("metrics", JObj metrics);
     ("gates", JObj (map_values gate_json gates));
     ("overall_pass", JBool overall)]).

(** ** The orchestrator *)

Definition run_once (seed : Z) (blind reveal : bool) : M Z :=
  let g := Random seed in
  let pr_blob := prereg seed in
  let pr := Prereg_default in
  let prereg_path := "prereg.json" in
  _ ← write_json prereg_path (JObj pr_blob);
  h ← file_sha256 prereg_path;
  aeq ← lift (getitem pr_blob "AEQ");
  cid ← lift (getitem pr_blob "CID");
  _ ← append_ledger
        (dict_of [("event", JStr "prereg_written"); ("file", JStr "prereg.json");
                  ("sha256", JStr h); ("AEQ", aeq); ("CID", cid)]);
  let blind_map_path := "blind_map.json" in
  labels ← (if blind then
              cs ← lift (getitem pr_blob "conditions");
              let conds := fst (shuffle g (strings_of cs)) in
              let labels := blind_labels conds in
              _ ← write_json blind_map_path (blind_map_obj seed labels);
              h ← file_sha256 blind_map_path;
              _ ← append_ledger
                    (dict_of [("event", JStr "blind_map_written");
                              ("file", JStr "blind_map.json");
                              ("sha256", JStr h)]);
              mret labels
            else mret plain_labels);
  base ← simulate pr (seed + 1) "baseline";
  ablt ← simulate pr (seed + 2) "ablation";
  neg ← simulate pr (seed + 3) "negative_control";
  let base_s := cr_sharpe base in
  let ablt_s := cr_sharpe ablt in
  let neg_s := cr_sharpe neg in
  let delta := F64.sub base_s ablt_s in
  let gates := gates_of pr base_s delta neg_s in
  let overall := overall_of gates in
  aeq ← lift (getitem pr_blob "AEQ");
  cid ← lift (getitem pr_blob "CID");
  lb ← lift (getitem labels "baseline");
  la ← lift (getitem labels "ablation");
  ln ← lift (getitem labels "negative_control");
  let results :=
    results_obj aeq cid seed blind (metrics_of lb la ln base ablt neg delta)
      gates overall in
  let results_path := "results.json" in
  _ ← write_json results_path results;
  h ← file_sha256 results_path;
  _ ← append_ledger
        (dict_of [("event", JStr "results_written"); ("file", JStr "results.json");
                  ("sha256", JStr h); ("overall_pass", JBool overall)]);
  aeq ← lift (getitem pr_blob "AEQ");
  cid ← lift (getitem pr_blob "CID");
  hp ← file_sha256 prereg_path;
  hr ← file_sha256 results_path;
  hl ← file_sha256 ledger_file;
  extra ← (if blind then
             hb ← file_sha256 blind_map_path;
             mret [("blind_map.json", JStr hb)]
           else mret []);
  _ ← write_json "artifacts_manifest.json"
        (JObj (dict_of
          [("AEQ", aeq); ("CID", cid);
           ("files",
            JObj (dict_of ([("prereg.json", JStr hp); ("results.json", JStr hr);
                            ("ledger.ndjson", JStr hl)] ++ extra)))]));
  present ← (if reveal && blind then exists_file blind_map_path else mret false);
  _ ← (if (present : bool) then
         _ ← emit (EvPrint "BLIND MAP (reveal):");
         s ← read_text blind_map_path;
         emit (EvPrint s)
       else mret tt);
  _ ← emit (EvPrint (dumps results));
  mret (if overall then 0 else 2).

(** ** The run seen from outside

    What a run computes, as a function of the seed and the blind flag:
    the statements about [run_once] are phrased with these. *)

(** The labels the run uses. *)
Definition labels_of (seed : Z) (blind : bool) : list (string * string) :=
  if blind then blind_labels (fst (shuffle (Random seed) conditions))
  else plain_labels.

Record Outcome : Type := {
  o_base : ConditionResult;
  o_ablt : ConditionResult;
  o_neg : ConditionResult;
  o_lb : string;
  o_la : string;
  o_ln : string
}.

(** The three simulations, then the three label lookups, in the order
    [run_once] makes them; the first fault wins. *)
Definition outcome (seed : Z) (blind : bool) : res Outcome :=
  let pr := Prereg_default in
  let labels := labels_of seed blind in
  base ← backtest pr (Random (seed + 1)) "baseline";
  ablt ← backtest pr (Random (seed + 2)) "ablation";
  neg ← backtest pr (Random (seed + 3)) "negative_control";
  lb ← getitem labels "baseline";
  la ← getitem labels "ablation";
  ln ← getitem labels "negative_control";
  Ok {| o_base := base; o_ablt := ablt; o_neg := neg;
        o_lb := lb; o_la := la; o_ln := ln |}.

Definition o_delta (o : Outcome) : float :=
  F64.sub (cr_sharpe (o_base o)) (cr_sharpe (o_ablt o)).

Definition o_gates (o : Outcome) : list (string * Gate) :=
  gates_of Prereg_default (cr_sharpe (o_base o)) (o_delta o)
    (cr_sharpe (o_neg o)).

Definition o_overall (o : Outcome) : bool := overall_of (o_gates o).

Definition o_results (seed : Z) (blind : bool) (o : Outcome) : json :=
  results_obj (JStr (prereg_aeq seed)) (JStr (prereg_cid seed)) seed blind
    (metrics_of (o_lb o) (o_la o) (o_ln o) (o_base o) (o_ablt o) (o_neg o)
       (o_delta o))
    (o_gates o) (o_overall o).

Definition o_status (o : Outcome) : Z := if o_overall o then 0 else 2.

(** The effects of a completed run, in program order: the commitment,
    the blind map when asked for, the evidence, the console. *)
Definition commit_events (seed : Z) (e1 : json) : list event :=
  [EvWrite "prereg.json" (JObj (prereg seed)); EvLedger e1].

Definition blind_events (seed : Z) (blind : bool) (e2 : json) : list event :=
  if blind
  then [EvWrite "blind_map.json" (blind_map_obj seed (labels_of seed true));
        EvLedger e2]
  else [].

Definition evidence_events (seed : Z) (blind reveal : bool) (o : Outcome)
    (e3 mf : json) : list event :=
  [EvSimulate "baseline" (seed + 1); EvSimulate "ablation" (seed + 2);
   EvSimulate "negative_control" (seed + 3);
   EvWrite "results.json" (o_results seed blind o);
   EvLedger e3;
   EvWrite "artifacts_manifest.json" mf]
  ++ (if reveal && blind
      then [EvPrint "BLIND MAP (reveal):";
            EvPrint (dumps (blind_map_obj seed (labels_of seed true)) ++ newline)]
      else [])
  ++ [EvPrint (dumps (o_results seed blind o))].

Definition run_events (seed : Z) (blind reveal : bool) (o : Outcome)
    (e1 e2 e3 mf : json) : list event :=
  commit_events seed e1 ++ blind_events seed blind e2
    ++ evidence_events seed blind reveal o e3 mf.

(** *** Assertions between the phases of a run *)

(** The labels block: it returns the labels of the run, keeps
    [prereg.json], continues the ledger and, when blinding, leaves the
    blind map on disk. *)
Definition labels_post (seed : Z) (blind : bool) (w2 : world) (ptext l1 : string)
    (r : res (list (string * string))) (w3 : world) : Prop :=
  r = Ok (labels_of seed blind)
  /\ fs w3 !! "prereg.json" = Some ptext
  /\ (exists more, fs w3 !! "ledger.ndjson" = Some (l1 ++ more)%string)
  /\ (blind = true ->
      fs w3 !! "blind_map.json"
      = Some (dumps (blind_map_obj seed (labels_of seed true)) ++ newline)%string)
  /\ exists e2, trace w3 = (trace w2 ++ blind_events seed blind e2)%list.

(** What the run leaves after the commitment. *)
Definition tail_post (seed : Z) (blind reveal : bool) (w2 : world)
    (ptext l1 : string) (r : res Z) (w' : world) : Prop :=
  r = o_status <$> outcome seed blind
  /\ fs w' !! "prereg.json" = Some ptext
  /\ (exists more, fs w' !! "ledger.ndjson" = Some (l1 ++ more)%string)
  /\ (exists rest, trace w' = (trace w2 ++ rest)%list)
  /\ (forall o, outcome seed blind = Ok o ->
      exists e2 e3 mf,
        trace w' = (trace w2 ++ blind_events seed blind e2
                      ++ evidence_events seed blind reveal o e3 mf)%list).

End Run.

(** ** Reading a trace and a JSON object *)

(** [obj[k]] on a JSON object. *)
Definition json_field (j : json) (k : string) : option json :=
  match j with JObj d => dict_get k d | _ => None end.

(** The text value under [k] of a ledger entry. *)
Definition entry_text (j : json) (k : string) : option string :=
  match json_field j k with Some (JStr s) => Some s | _ => None end.

(** [results["metrics"][k]]. *)
Definition metric (results : json) (k : string) : option json :=
  match json_field results "metrics" with
  | Some m => json_field m k
  | None => None
  end.

(** The effects a run added to the trace it started from. *)
Definition new_events (w w' : world) : list event :=
  drop (length (trace w)) (trace w').

(** The objects written to [file], in order. *)
Definition written (file : string) (evs : list event) : list json :=
  omap (fun ev => match ev with
                  | EvWrite f obj => if String.eqb f file then Some obj else None
                  | _ => None
                  end) evs.

(** The simulations called, in order. *)
Definition simulations (evs : list event) : list (string * Z) :=
  omap (fun ev => match ev with
                  | EvSimulate mode seed => Some (mode, seed)
                  | _ => None
                  end) evs.

(** Evidence: a simulation, the write of [results.json], or the ledger line
    of the results. *)
Definition is_evidence (ev : event) : bool :=
  match ev with
  | EvSimulate _ _ => true
  | EvWrite f _ => String.eqb f "results.json"
  | EvLedger e =>
      match entry_text e "event" with
      | Some s => String.eqb s "results_written"
      | None => false
      end
  | EvPrint _ => false
  end.

(** ** Statements about a run *)

(** [wp m Q w]: running [m] from [w] ends, returning or faulting, in a
    result and a world that satisfy [Q]. *)
Definition wp {A} (m : M A) (Q : res A -> world -> Prop) (w : world) : Prop :=
  Q (fst (runM m w)) (snd (runM m w)).

(** The text of [prereg.json]. *)
Definition prereg_text (seed : Z) : string := dumps (JObj (prereg seed)) ++ newline.

(** The commitment was made first: the effects added to [w] start with the
    write of [prereg.json] and its ledger line, the file still holds the
    record, and the ledger continues the old one with that line. *)
Definition committed (seed : Z) (w w' : world) : Prop :=
  exists entry rest more,
    trace w' = (trace w ++ EvWrite "prereg.json" (JObj (prereg seed))
                             :: EvLedger entry :: rest)%list
    /\ entry_text entry "event" = Some "prereg_written"
    /\ entry_text entry "file" = Some "prereg.json"
    /\ entry_text entry "sha256" = Some (sha256_hex (encode (prereg_text seed)))
    /\ fs w' !! "prereg.json" = Some (prereg_text seed)
    /\ fs w' !! ledger_file
       = Some (default EmptyString (fs w !! ledger_file)
                 ++ canon entry ++ newline ++ more).

(** ** A small library instance to run the model on *)

(** A C library whose [pow] is correctly rounded at the two exponents of
    the program: the product for [2.0], the square root for [0.5]. *)
Definition ideal_pow (x y : float) : float :=
  if F64.eqb y (F64.of_Z 2) then F64.mul x x else F64.sqrt x.

Definition ideal_libm : Libm := {|
  libm_pow := ideal_pow;
  libm_pow_nonneg := ltac:(
    intros m e y; unfold ideal_pow;
    destruct (F64.eqb y (F64.of_Z 2));
    [unfold F64.mul, SFmul; cbn [xorb]
    |unfold F64.sqrt, SFsqrt;
     destruct (SFsqrt_core_binary _ _ _ _) as [[[|mz|mz] ez] lz];
     try exact I];
    unfold binary_round_aux;
    destruct (shr_fexp _ _ _ _ _) as [mrs1 e1];
    destruct (shr_fexp _ _ _ _ _) as [mrs2 e2];
    destruct (shr_m mrs2); try exact I; try reflexivity;
    destruct (_ <=? _)%Z; reflexivity)
|}.

(** [1e200], whose square is out of range. *)
Definition huge : float := F64.of_Z (10 ^ 200).

(** A generator is its seed and the number of draws made.  The first
    [gauss] of a generator is the mean plus the spread times a number from
    [-3 .. 3] picked by the seed, the later ones are [0.0]; [shuffle]
    rotates the list by the seed. *)
Definition toy_env : PyEnv := {|
  rng := Z * nat;
  Random := fun seed => (Z.abs seed, O);
  gauss := fun g mu sigma =>
    (match snd g with
     | O => F64.add mu (F64.mul sigma (F64.of_Z (fst g mod 7 - 3)))
     | S _ => F64.zero
     end, (fst g, S (snd g)));
  shuffle := fun g l => (rotate (Z.to_nat (fst g mod 3)) l, (fst g, S (snd g)));
  clock := fun _ => "2024-01-01T00:00:00Z";
  libm := ideal_libm
|}.

Definition empty_world : world := {| fs := ∅; trace := [] |}.

(** The return series of the generator seeded [s], for the default
    parameters; empty if its computation faults. *)
Definition toy_rets (s : Z) : list float :=
  match returns (fst (gen_prices (env := toy_env) (Random s) (n_days Prereg_default))) with
  | Ok rets => rets
  | Raise _ => []
  end.

(** ** Further definitions: entries, files and texts *)
(** The entry appended to the P&L list on a day that ends in position
    [pos]: [pos * r - cost]. *)
Definition pnl_entry (pr : Prereg) (pos : Z) (traded : bool) (r : float)
    : float :=
  F64.sub (F64.mul (F64.of_Z pos) r) (day_cost pr traded).

(** [Prereg(n_days=n)]: the defaults but for the number of days. *)
Definition Prereg_days (n : Z) : Prereg := {|
  n_days := n;
  fee_bps := fee_bps Prereg_default;
  slippage_bps := slippage_bps Prereg_default;
  entry_z := entry_z Prereg_default;
  baseline_sharpe_min := baseline_sharpe_min Prereg_default;
  delta_min := delta_min Prereg_default;
  neg_sharpe_max := neg_sharpe_max Prereg_default
|}.

(** A generator whose every draw is [-1.0]: the second price is then a
    zero. *)
Definition crash_env : PyEnv := {|
  rng := unit;
  Random := fun _ => tt;
  gauss := fun g _ _ => (F64.of_Z (-1), g);
  shuffle := fun g l => (l, g);
  clock := fun _ => "1970-01-01T00:00:00Z";
  libm := ideal_libm
|}.

(** A generator that replays a script: its draws are those of the list,
    then [0.0]. *)
Definition scripted_env (draws : list float) : PyEnv := {|
  rng := list float;
  Random := fun _ => draws;
  gauss := fun g _ _ => (hd F64.zero g, tl g);
  shuffle := fun g l => (l, g);
  clock := fun _ => "1970-01-01T00:00:00Z";
  libm := ideal_libm
|}.

(** One of [0123456789abcdef]. *)
Definition is_hex_digit (c : ascii) : bool :=
  let n := code c in
  ((48 <=? n)%Z && (n <=? 57)%Z) || ((97 <=? n)%Z && (n <=? 102)%Z).

(** [all(p(c) for c in s)]. *)
Fixpoint all_chars (p : ascii -> bool) (s : string) : bool :=
  match s with
  | EmptyString => true
  | String c s' => p c && all_chars p s'
  end.

(** The order [sort_keys=True] puts rendered fields in: by key. *)
Definition key_le (kv kv' : string * string) : Prop :=
  String.leb (fst kv) (fst kv') = true.

(** A text without a line feed: it fits on one line of the ledger. *)
Definition one_line (s : string) : bool :=
  all_chars (fun c => negb (Ascii.eqb c (ascii_of_nat 10))) s.

(** ** The files a run leaves *)

Section Artifacts.
Context {env : PyEnv}.

(** The texts of [blind_map.json] and of [results.json]. *)
Definition blind_map_text (seed : Z) : string :=
  dumps (blind_map_obj seed (labels_of seed true)) ++ newline.

Definition results_text (seed : Z) (blind : bool) (o : Outcome) : string :=
  dumps (o_results seed blind o) ++ newline.

(** The three ledger entries of a run, stamped [ts]. *)
Definition prereg_entry (seed : Z) (ts : string) : json :=
  JObj (dict_of
    [("event", JStr "prereg_written"); ("file", JStr "prereg.json");
     ("sha256", JStr (sha256_hex (encode (prereg_text seed))));
     ("AEQ", JStr (prereg_aeq seed)); ("CID", JStr (prereg_cid seed));
     ("ts", JStr ts)]).

Definition blind_entry (seed : Z) (ts : string) : json :=
  JObj (dict_of
    [("event", JStr "blind_map_written"); ("file", JStr "blind_map.json");
     ("sha256", JStr (sha256_hex (encode (blind_map_text seed))));
     ("ts", JStr ts)]).

Definition results_entry (seed : Z) (blind : bool) (o : Outcome) (ts : string)
    : json :=
  JObj (dict_of
    [("event", JStr "results_written"); ("file", JStr "results.json");
     ("sha256", JStr (sha256_hex (encode (results_text seed blind o))));
     ("overall_pass", JBool (o_overall o));
     ("ts", JStr ts)]).

(** The entries of a completed run, in order; the second only when
    blinding. *)
Definition run_entries (blind : bool) (e1 e2 e3 : json) : list json :=
  (e1 :: (if blind then [e2] else []) ++ [e3])%list.

(** A ledger continued: the old text, then one line per entry. *)
Definition ledger_text (old : string) (entries : list json) : string :=
  old ++ foldr (fun e s => canon e ++ newline ++ s) "" entries.

(** The manifest of a completed run whose ledger reads [ltext]. *)
Definition manifest_obj (seed : Z) (blind : bool) (o : Outcome)
    (ltext : string) : json :=
  JObj (dict_of
    [("AEQ", JStr (prereg_aeq seed)); ("CID", JStr (prereg_cid seed));
     ("files",
      JObj (dict_of
        ([("prereg.json", JStr (sha256_hex (encode (prereg_text seed))));
          ("results.json", JStr (sha256_hex (encode (results_text seed blind o))));
          ("ledger.ndjson", JStr (sha256_hex (encode ltext)))]
         ++ (if blind
             then [("blind_map.json",
                    JStr (sha256_hex (encode (blind_map_text seed))))]
             else []))))]).

(** The names a run may write under. *)
Definition run_files : list string :=
  ["prereg.json"; "blind_map.json"; "results.json"; "ledger.ndjson";
   "artifacts_manifest.json"].

(** The directory after a completed run. *)
Definition files_after (seed : Z) (blind : bool) (o : Outcome)
    (e1 e2 e3 mf : json) (w w' : world) : Prop :=
  let ltext := ledger_text (default EmptyString (fs w !! ledger_file))
                 (run_entries blind e1 e2 e3) in
  fs w' !! "prereg.json" = Some (prereg_text seed)
  /\ fs w' !! "blind_map.json"
     = (if blind then Some (blind_map_text seed) else fs w !! "blind_map.json")
  /\ fs w' !! "results.json" = Some (results_text seed blind o)
  /\ fs w' !! ledger_file = Some ltext
  /\ fs w' !! "artifacts_manifest.json" = Some (dumps mf ++ newline)
  /\ (exists ts, e1 = prereg_entry seed ts)
  /\ (blind = true -> exists ts, e2 = blind_entry seed ts)
  /\ (exists ts, e3 = results_entry seed blind o ts)
  /\ mf = manifest_obj seed blind o ltext.

(** The directory and the effects after a run that faulted: the
    commitment, the blind map when asked for, and the simulations
    called. *)
Definition files_at_fault (seed : Z) (blind : bool) (w w' : world) : Prop :=
  fs w' !! "prereg.json" = Some (prereg_text seed)
  /\ fs w' !! "results.json" = fs w !! "results.json"
  /\ fs w' !! "artifacts_manifest.json" = fs w !! "artifacts_manifest.json"
  /\ exists e1 e2 sims,
       trace w' = (trace w ++ commit_events seed e1 ++ blind_events seed blind e2
                     ++ map (fun ms => EvSimulate (fst ms) (snd ms)) sims)%list.

(** What every run, returning or not, leaves alone. *)
Definition frame (blind : bool) (w w' : world) : Prop :=
  (forall f, f ∉ run_files -> fs w' !! f = fs w !! f)
  /\ (blind = false -> fs w' !! "blind_map.json" = fs w !! "blind_map.json").

(** The texts printed, in order. *)
Definition printed (evs : list event) : list string :=
  omap (fun ev => match ev with EvPrint s => Some s | _ => None end) evs.

(** The ledger entries appended, in order. *)
Definition ledger_entries (evs : list event) : list json :=
  omap (fun ev => match ev with EvLedger e => Some e | _ => None end) evs.
End Artifacts.

(** The summary [backtest] gives on the instance above for [n] days;
    [inert_result] if it faults. *)
Definition toy_backtest (n : Z) (s : Z) (mode : string) : ConditionResult :=
  match backtest (env := toy_env) (Prereg_days n) (Random s) mode with
  | Ok c => c
  | Raise _ => inert_result
  end.

(** * Properties *)

Local Close Scope string_scope.

(** ** Rounding never loses a positive mantissa *)

Section Rounding.

Lemma digits2_pos_size (m : positive) : digits2_pos m = Pos.size m.
Proof. induction m; simpl; congruence. Qed.

Lemma Zdigits2_log2 (m : positive) :
  Zdigits2 (Z.pos m) = Z.log2 (Z.pos m) + 1.
Proof.
  simpl. rewrite digits2_pos_size.
  destruct m; simpl; lia.
Qed.

Lemma shr_1_m (mrs : shr_record) :
  0 <= shr_m mrs -> shr_m (shr_1 mrs) = Z.div2 (shr_m mrs).
Proof.
  destruct mrs as [m r s]; simpl. intros Hm.
  destruct m as [|[p|p|]|p]; simpl; try reflexivity; lia.
Qed.

Lemma iter_shr_1_m (p : positive) :
  forall mrs, 0 <= shr_m mrs ->
    shr_m (SpecFloat.iter_pos shr_1 p mrs) = Z.shiftr (shr_m mrs) (Z.pos p).
Proof.
  assert (Hnn : forall mrs, 0 <= shr_m mrs -> 0 <= shr_m (shr_1 mrs)).
  { intros mrs H. rewrite shr_1_m by assumption.
    rewrite Z.div2_div. apply Z.div_pos; lia. }
  induction p as [p IH|p IH|]; intros mrs Hm; simpl.
  - assert (H1 := Hnn _ Hm).
    rewrite IH; [rewrite IH by assumption|].
    + rewrite shr_1_m by assumption. rewrite Z.div2_spec.
      rewrite !Z.shiftr_shiftr by lia. f_equal. lia.
    + rewrite IH by assumption. apply Z.shiftr_nonneg. assumption.
  - rewrite IH; [rewrite IH by assumption|].
    + rewrite !Z.shiftr_shiftr by lia. f_equal. lia.
    + rewrite IH by assumption. apply Z.shiftr_nonneg. assumption.
  - rewrite shr_1_m by assumption. apply Z.div2_spec.
Qed.

Lemma shr_record_of_loc_m (m : Z) (l : location) :
  shr_m (shr_record_of_loc m l) = m.
Proof. destruct l as [|[]]; reflexivity. Qed.

(** One rounding shift of a positive mantissa leaves it positive, and the
    exponent stays above the smallest one. *)
Lemma shr_fexp_pos (m : Z) (e : Z) (l : location) :
  0 < m -> -1074 <= e ->
  0 < shr_m (fst (shr_fexp F64.prec F64.emax m e l))
  /\ -1074 <= snd (shr_fexp F64.prec F64.emax m e l).
Proof.
  intros Hm He. unfold shr_fexp, shr.
  destruct m as [|m|m]; try lia.
  rewrite Zdigits2_log2.
  assert (Hlog := Z.log2_nonneg (Z.pos m)).
  unfold fexp, emin, F64.prec, F64.emax.
  destruct (Z.max (Z.log2 (Z.pos m) + 1 + e - 53) (3 - 1024 - 53) - e)
    as [|n|n] eqn:Hn; simpl fst; simpl snd.
  - rewrite shr_record_of_loc_m. lia.
  - rewrite iter_shr_1_m by (rewrite shr_record_of_loc_m; lia).
    rewrite shr_record_of_loc_m. split; [|lia].
    assert (Hle : Z.pos n <= Z.log2 (Z.pos m)) by lia.
    destruct (Z.eq_dec (Z.shiftr (Z.pos m) (Z.pos n)) 0) as [H0|H0].
    + apply Z.shiftr_eq_0_iff in H0. destruct H0 as [H0|[_ H0]]; lia.
    + assert (0 <= Z.shiftr (Z.pos m) (Z.pos n)) by (apply Z.shiftr_nonneg; lia).
      lia.
  - rewrite shr_record_of_loc_m. lia.
Qed.

Lemma round_nearest_even_pos (m : Z) (l : location) :
  0 < m -> 0 < round_nearest_even m l.
Proof.
  intros Hm. destruct l as [|[]]; simpl; try lia.
  destruct (Z.even m); lia.
Qed.

(** Rounding a positive mantissa gives a float of the sign asked for, or
    an infinity of that sign: never a zero, never a NaN. *)
Lemma binary_round_aux_cases (sx : bool) (m : Z) (e : Z) (l : location) :
  0 < m -> -1074 <= e ->
  (exists m' e', binary_round_aux F64.prec F64.emax sx m e l = S754_finite sx m' e')
  \/ binary_round_aux F64.prec F64.emax sx m e l = S754_infinity sx.
Proof.
  intros Hm He. unfold binary_round_aux.
  destruct (shr_fexp_pos m e l Hm He) as [H1 H1e].
  destruct (shr_fexp F64.prec F64.emax m e l) as [mrs' e'] eqn:E1.
  simpl in H1, H1e.
  assert (H2 := round_nearest_even_pos (shr_m mrs') (loc_of_shr_record mrs') H1).
  destruct (shr_fexp_pos _ e' loc_Exact H2 H1e) as [H3 _].
  destruct (shr_fexp F64.prec F64.emax _ e' loc_Exact) as [mrs'' e''] eqn:E2.
  simpl in H3.
  destruct (shr_m mrs'') as [|m''|m'']; try lia.
  destruct (e'' <=? F64.emax - F64.prec); eauto.
Qed.

Lemma of_Z_pos_cases (n : Z) :
  0 < n ->
  (exists m e, F64.of_Z n = S754_finite false m e)
  \/ F64.of_Z n = S754_infinity false.
Proof.
  intros Hn. destruct n as [|p|p]; try lia.
  unfold F64.of_Z, binary_normalize, binary_round.
  destruct (shl_align p 0 _) as [mz ez] eqn:Hal.
  apply binary_round_aux_cases; [lia|].
  unfold shl_align in Hal.
  destruct (fexp F64.prec F64.emax (Z.pos (digits2_pos p) + 0) - 0)
    as [|d|d] eqn:Hd; inversion Hal; subst; try lia.
  unfold fexp, emin, F64.prec, F64.emax in *. lia.
Qed.

Lemma of_Z_not_zero (n : Z) : 0 < n -> F64.is_zero (F64.of_Z n) = false.
Proof.
  intros Hn. destruct (of_Z_pos_cases n Hn) as [(m & e & ->)| ->]; reflexivity.
Qed.
End Rounding.

(** ** Signs: squares, their sums and their quotients are never negative *)

Section Signs.
Context {env : PyEnv}.

Lemma shr_fexp_nonneg (m : Z) (e : Z) (l : location) :
  0 <= m -> 0 <= shr_m (fst (shr_fexp F64.prec F64.emax m e l)).
Proof.
  intros Hm. unfold shr_fexp, shr.
  destruct (fexp F64.prec F64.emax (Zdigits2 m + e) - e) as [|n|n]; simpl fst;
    try (rewrite shr_record_of_loc_m; assumption).
  rewrite iter_shr_1_m by (rewrite shr_record_of_loc_m; assumption).
  rewrite shr_record_of_loc_m. apply Z.shiftr_nonneg. assumption.
Qed.

Lemma round_nearest_even_nonneg (m : Z) (l : location) :
  0 <= m -> 0 <= round_nearest_even m l.
Proof.
  intros Hm. destruct l as [|[]]; simpl; try lia.
  destruct (Z.even m); lia.
Qed.

(** Rounding a mantissa that is not negative gives a zero, a finite value
    or an infinity of the sign asked for. *)
Lemma binary_round_aux_sign (sx : bool) (m : Z) (e : Z) (l : location) :
  0 <= m ->
  match binary_round_aux F64.prec F64.emax sx m e l with
  | S754_nan => False
  | S754_zero s | S754_infinity s | S754_finite s _ _ => s = sx
  end.
Proof.
  intros Hm. unfold binary_round_aux.
  assert (H1 := shr_fexp_nonneg m e l Hm).
  destruct (shr_fexp F64.prec F64.emax m e l) as [mrs' e'].
  simpl in H1.
  assert (H2 := round_nearest_even_nonneg _ (loc_of_shr_record mrs') H1).
  assert (H3 := shr_fexp_nonneg _ e' loc_Exact H2).
  destruct (shr_fexp F64.prec F64.emax _ e' loc_Exact) as [mrs'' e''].
  simpl in H3.
  destruct (shr_m mrs'') as [|m''|m'']; try lia; try reflexivity.
  destruct (e'' <=? F64.emax - F64.prec); reflexivity.
Qed.

Lemma binary_round_aux_nonneg (m : Z) (e : Z) (l : location) :
  0 <= m -> nonneg (binary_round_aux F64.prec F64.emax false m e l).
Proof.
  intros Hm. assert (H := binary_round_aux_sign false m e l Hm).
  destruct (binary_round_aux F64.prec F64.emax false m e l); simpl; tauto.
Qed.

Lemma binary_normalize_nonneg (m e : Z) :
  0 <= m -> nonneg (binary_normalize F64.prec F64.emax m e false).
Proof.
  intros Hm. destruct m as [|p|p]; try lia; [reflexivity|].
  unfold binary_normalize, binary_round.
  destruct (shl_align _ _ _) as [mz ez].
  apply binary_round_aux_nonneg. lia.
Qed.

Lemma add_nonneg (x y : float) : nonneg x -> nonneg y -> nonneg (F64.add x y).
Proof.
  destruct x as [sx|sx| |sx mx ex], y as [sy|sy| |sy my ey];
    intros Hx Hy; simpl in Hx, Hy; subst; try exact I; try reflexivity.
  unfold F64.add, SFadd, cond_Zopp.
  apply binary_normalize_nonneg. lia.
Qed.

Lemma sum_from_nonneg (xs : list float) (acc : float) :
  nonneg acc -> Forall nonneg xs -> nonneg (fold_left F64.add xs acc).
Proof.
  revert acc. induction xs as [|x xs IH]; intros acc Hacc Hxs; simpl.
  - assumption.
  - inversion Hxs; subst. apply IH; [apply add_nonneg|]; assumption.
Qed.

Lemma sum_nonneg (xs : list float) : Forall nonneg xs -> nonneg (F64.sum xs).
Proof. intros H. apply sum_from_nonneg; [reflexivity | assumption]. Qed.

Lemma pow_two_nonneg (x y : float) : F64.pow_two x = Ok y -> nonneg y.
Proof.
  unfold F64.pow_two.
  destruct x as [s|s| |s m e]; intros H; try (inversion H; subst; reflexivity).
  cbv zeta in H. destruct (F64.eqb _ F64.one).
  - inversion H; subst. vm_compute. reflexivity.
  - destruct (F64.is_inf _); inversion H; subst. apply libm_pow_nonneg.
Qed.

Lemma mapM_pow_two_nonneg (f : float -> float) (xs sq : list float) :
  mapM (fun x => F64.pow_two (f x)) xs = Ok sq -> Forall nonneg sq.
Proof.
  revert sq. induction xs as [|x xs IH]; intros sq H; simpl in H.
  - inversion H; subst. constructor.
  - destruct (F64.pow_two (f x)) as [y|e] eqn:Hy; simpl in H; [|discriminate].
    destruct (mapM _ xs) as [ys|e] eqn:Hys; simpl in H; [|discriminate].
    inversion H; subst. constructor; [eapply pow_two_nonneg; eassumption|].
    apply IH. reflexivity.
Qed.

(** Dividing by a converted positive integer keeps the sign clear. *)
Lemma div_of_Z_nonneg (x : float) (n : Z) :
  0 < n -> nonneg x -> nonneg (SFdiv F64.prec F64.emax x (F64.of_Z n)).
Proof.
  intros Hn Hx.
  destruct (of_Z_pos_cases n Hn) as [(m & e & ->)| ->];
    destruct x as [sx|sx| |sx mx ex]; simpl in *; subst; simpl; try tauto;
    try reflexivity.
  unfold SFdiv_core_binary.
  match goal with |- context [Z.div_eucl ?a ?b] =>
    assert (Ha : 0 <= a);
    [|assert (Hq := Z.div_pos a b Ha ltac:(lia)); unfold Z.div in Hq;
      destruct (Z.div_eucl a b) as [q r]]
  end.
  - destruct (ex - e - _) as [|s|s] eqn:Hs; try lia.
    apply Z.shiftl_nonneg. lia.
  - apply binary_round_aux_nonneg. assumption.
Qed.

(** On a value that is not negative, [x ** 0.5] stays in the floats: it
    returns a value that is not negative, or the power is out of range. *)
Lemma pow_half_nonneg (x : float) :
  nonneg x ->
  (exists y, F64.pow_half x = Ok y /\ nonneg y)
  \/ F64.pow_half x = Raise OverflowError.
Proof.
  unfold F64.pow_half.
  destruct x as [s|s| |s m e]; simpl nonneg; intros H; subst;
    try (left; eexists; split; reflexivity).
  cbv zeta. destruct (F64.eqb _ F64.one).
  - left. eexists. split; [reflexivity|]. vm_compute. reflexivity.
  - destruct (F64.is_inf _); [right; reflexivity|].
    left. eexists. split; [reflexivity|]. apply libm_pow_nonneg.
Qed.
End Signs.

(** ** The fault monad *)

Section Figures.
Context {env : PyEnv}.

Lemma bind_Ok {A B} (a : A) (f : A -> res B) : (Ok a ≫= f) = f a.
Proof. reflexivity. Qed.

Lemma bind_Raise {A B} (e : exn) (f : A -> res B) : (Raise e ≫= f) = Raise e.
Proof. reflexivity. Qed.

Lemma div_Ok (x y : float) :
  F64.is_zero y = false -> F64.div x y = Ok (SFdiv F64.prec F64.emax x y).
Proof. intros H. unfold F64.div. rewrite H. reflexivity. Qed.

Lemma div_of_Z_Ok (x : float) (n : Z) :
  0 < n -> F64.div x (F64.of_Z n) = Ok (SFdiv F64.prec F64.emax x (F64.of_Z n)).
Proof. intros H. apply div_Ok, of_Z_not_zero, H. Qed.

Lemma eqb_zero_false (x : float) :
  F64.eqb x F64.zero = false -> F64.is_zero x = false.
Proof.
  destruct x as [s|s| |s m e]; try reflexivity.
  intros H. vm_compute in H. discriminate.
Qed.

(** The only fault of a map of squares is the overflow of a square. *)
Lemma mapM_pow_two_Raise (f : float -> float) (xs : list float) (e : exn) :
  mapM (fun x => F64.pow_two (f x)) xs = Raise e -> e = OverflowError.
Proof.
  induction xs as [|x xs IH]; simpl; intros H; [discriminate|].
  destruct (F64.pow_two (f x)) as [y|e'] eqn:Hy; simpl in H.
  - destruct (mapM _ xs) as [ys|e''] eqn:Hys; simpl in H; [discriminate|].
    inversion H; subst. apply IH. reflexivity.
  - inversion H; subst. unfold F64.pow_two in Hy.
    destruct (f x); try discriminate.
    cbv zeta in Hy. destruct (F64.eqb _ F64.one); [discriminate|].
    destruct (F64.is_inf _); inversion Hy; reflexivity.
Qed.

(** ** The Sharpe ratio *)

Lemma len_cons_pos {A} (x : A) (xs : list A) : 0 < len (x :: xs).
Proof. unfold len. simpl length. lia. Qed.

(** [sharpe] on a series that is not empty, its divisions resolved: the
    divisors are lengths, and the last one was compared with zero. *)
Lemma sharpe_steps (rets : list float) :
  rets <> [] ->
  sharpe rets
  = (let mu := SFdiv F64.prec F64.emax (F64.sum rets) (F64.of_Z (len rets)) in
     sq ← mapM (fun x => F64.pow_two (F64.sub x mu)) rets;
     let var := SFdiv F64.prec F64.emax (F64.sum sq)
                  (F64.of_Z (if len rets =? 1 then 1 else len rets - 1)) in
     sd ← F64.pow_half var;
     if F64.eqb sd F64.zero then Ok F64.zero
     else
       a ← F64.pow_half (F64.of_Z 252);
       Ok (F64.mul (SFdiv F64.prec F64.emax mu sd) a)).
Proof.
  destruct rets as [|x xs]; [congruence|]. intros _.
  assert (Hn := len_cons_pos x xs).
  unfold sharpe. cbv zeta.
  remember (x :: xs) as rets eqn:Hrets.
  rewrite Hrets at 1. rewrite <- Hrets.
  rewrite div_of_Z_Ok by assumption. rewrite bind_Ok.
  destruct (mapM _ rets) as [sq|e] eqn:Hsq; [|reflexivity].
  rewrite !bind_Ok.
  replace (Z.max 1 (len rets - 1)) with (if len rets =? 1 then 1 else len rets - 1)
    by (destruct (len rets =? 1) eqn:H1; lia).
  assert (Hk : 0 < (if len rets =? 1 then 1 else len rets - 1))
    by (destruct (len rets =? 1) eqn:H1; lia).
  rewrite div_of_Z_Ok by assumption. rewrite bind_Ok.
  destruct (F64.pow_half (SFdiv _ _ (F64.sum sq) _)) as [sd|e]; [|reflexivity].
  rewrite !bind_Ok.
  change (F64.of_Z 0) with F64.zero.
  destruct (F64.eqb sd F64.zero) eqn:Hsd; [reflexivity|].
  rewrite div_Ok by (apply eqb_zero_false; assumption).
  rewrite bind_Ok. reflexivity.
Qed.

(** The variance of a series whose squared deviations were computed is
    not negative. *)
Lemma variance_nonneg (f : float -> float) (xs sq : list float) (n : Z) :
  0 < n ->
  mapM (fun x => F64.pow_two (f x)) xs = Ok sq ->
  nonneg (SFdiv F64.prec F64.emax (F64.sum sq) (F64.of_Z n)).
Proof.
  intros Hn Hsq. apply div_of_Z_nonneg; [assumption|].
  apply sum_nonneg. eapply mapM_pow_two_nonneg. exact Hsq.
Qed.

Lemma sharpe_faults (rets : list float) (e : exn) :
  sharpe rets = Raise e -> e = OverflowError.
Proof.
  destruct rets as [|x xs]; [discriminate|].
  rewrite sharpe_steps by discriminate. cbv zeta.
  remember (x :: xs) as rets eqn:Hrets.
  assert (Hk : 0 < (if len rets =? 1 then 1 else len rets - 1)).
  { assert (Hn := len_cons_pos x xs). rewrite <- Hrets in Hn.
    destruct (len rets =? 1) eqn:H1; lia. }
  destruct (mapM _ rets) as [sq|e'] eqn:Hsq.
  - rewrite bind_Ok.
    destruct (pow_half_nonneg _ (variance_nonneg _ _ _ _ Hk Hsq))
      as [(sd & -> & _)| ->]; [|intros H; inversion H; reflexivity].
    rewrite bind_Ok. destruct (F64.eqb sd F64.zero); [discriminate|].
    destruct (pow_half_nonneg (F64.of_Z 252) ltac:(vm_compute; reflexivity))
      as [(a & -> & _)| ->]; [discriminate|].
    intros H; inversion H; reflexivity.
  - rewrite bind_Raise. intros H. apply mapM_pow_two_Raise in Hsq.
    inversion H; subst. reflexivity.
Qed.

(** What the squares and the root of [sharpe] are decides its value. *)
Lemma sharpe_value (square root : float -> float) (rets : list float)
    (v : float) :
  (forall d y, F64.pow_two d = Ok y -> y = square d) ->
  (forall x y, nonneg x -> F64.pow_half x = Ok y -> y = root x) ->
  sharpe rets = Ok v -> v = sharpe_spec square root rets.
Proof.
  intros Hsq Hrt. destruct rets as [|x xs].
  - intros H. inversion H. reflexivity.
  - rewrite sharpe_steps by discriminate. unfold sharpe_spec. cbv zeta.
    assert (Hn := len_cons_pos x xs).
    remember (x :: xs) as rets eqn:Hrets.
    destruct (len rets =? 0) eqn:H0; [lia|].
    assert (Hk : 0 < (if len rets =? 1 then 1 else len rets - 1))
      by (destruct (len rets =? 1) eqn:H1; lia).
    destruct (mapM _ rets) as [sq|e] eqn:Hmap;
      [rewrite bind_Ok|rewrite bind_Raise; discriminate].
    assert (Hvar := variance_nonneg _ _ _ _ Hk Hmap).
    assert (Esq : sq = map (fun x0 => square (F64.sub x0
                    (SFdiv F64.prec F64.emax (F64.sum rets) (F64.of_Z (len rets)))))
                    rets).
    { clear -Hmap Hsq. revert sq Hmap.
      generalize (SFdiv F64.prec F64.emax (F64.sum rets) (F64.of_Z (len rets))).
      intros mu. induction rets as [|r rets IH]; intros sq H; cbn [mapM map] in *.
      - inversion H. reflexivity.
      - destruct (F64.pow_two (F64.sub r mu)) as [y|e] eqn:Hy;
          [rewrite bind_Ok in H|rewrite bind_Raise in H; discriminate H].
        destruct (mapM _ rets) as [ys|e];
          [rewrite bind_Ok in H|rewrite bind_Raise in H; discriminate H].
        inversion H; subst. rewrite (Hsq _ _ Hy), (IH ys eq_refl). reflexivity. }
    rewrite <- Esq.
    destruct (F64.pow_half (SFdiv _ _ (F64.sum sq) _)) as [sd|e] eqn:Hsd;
      [rewrite bind_Ok|rewrite bind_Raise; discriminate].
    rewrite <- (Hrt _ _ Hvar Hsd).
    destruct (F64.eqb sd F64.zero); [intros H; inversion H; reflexivity|].
    destruct (F64.pow_half (F64.of_Z 252)) as [a|e] eqn:Ha;
      [rewrite bind_Ok|rewrite bind_Raise; discriminate].
    assert (H252 : nonneg (F64.of_Z 252)) by (vm_compute; reflexivity).
    rewrite <- (Hrt _ _ H252 Ha).
    intros H; inversion H; reflexivity.
Qed.

(** Only the double [1.0] compares equal to [1.0]. *)
Lemma eqb_one (m : positive) (e : Z) :
  F64.eqb (S754_finite false m e) F64.one = true ->
  S754_finite false m e = F64.one.
Proof.
  change F64.one with (S754_finite false 4503599627370496 (-52)).
  unfold F64.eqb, SFeqb. cbn [SFcompare].
  destruct (Z.compare_spec e (-52)); try discriminate.
  destruct (Pos.compare_cont Eq m 4503599627370496) eqn:Hm; try discriminate.
  apply Pos.compare_eq in Hm. subst. reflexivity.
Qed.

Lemma pow_two_ieee (d y : float) :
  correctly_rounded libm -> F64.pow_two d = Ok y -> y = ieee_square d.
Proof.
  intros Hcr. unfold F64.pow_two, ieee_square.
  destruct d as [s|s| |s m e]; intros H; try (inversion H; destruct s; reflexivity);
    try (inversion H; reflexivity).
  cbv zeta in H. destruct (F64.eqb _ F64.one) eqn:E1.
  - apply eqb_one in E1. inversion H; subst.
    unfold F64.mul, SFmul. rewrite xorb_nilpotent.
    change (S754_finite false m e) with (S754_finite false m e) in E1.
    change (binary_round_aux F64.prec F64.emax false (Z.pos (m * m)) (e + e) loc_Exact)
      with (F64.mul (S754_finite false m e) (S754_finite false m e)).
    rewrite E1. vm_compute. reflexivity.
  - destruct (F64.is_inf _); [discriminate H|]. injection H as <-.
    transitivity (ieee_square (S754_finite false m e));
      [exact (proj1 (Hcr m e))|].
    unfold ieee_square, F64.mul, SFmul. destruct s; reflexivity.
Qed.

Lemma pow_half_ieee (x y : float) :
  correctly_rounded libm -> nonneg x -> F64.pow_half x = Ok y -> y = F64.sqrt x.
Proof.
  intros Hcr. unfold F64.pow_half.
  destruct x as [s|s| |s m e]; simpl nonneg; intros Hx H; subst;
    try (inversion H; reflexivity).
  cbv zeta in H. destruct (F64.eqb _ F64.one) eqn:E1.
  - apply eqb_one in E1. inversion H; subst. rewrite E1. vm_compute. reflexivity.
  - destruct (F64.is_inf _); [discriminate H|]. injection H as <-.
    exact (proj2 (Hcr m e)).
Qed.

(** C9 (as amended).  [sharpe] never divides by zero, and its only fault
    is the [OverflowError] of a power out of range.  When it returns, the
    value is [0.0] for an empty series or a zero standard deviation, and
    otherwise [(mean / stddev) * 252 ** 0.5], for the sample mean and the
    sample variance with denominator [n - 1] (or [1] when [n = 1]), the
    squares and the roots being those of Python's [**]; with a C library
    whose [pow] is correctly rounded they are the IEEE product and square
    root. *)
Theorem sharpe_refines_spec (rets : list float) :
  sharpe rets <> Raise ZeroDivisionError
  /\ (forall e, sharpe rets = Raise e -> e = OverflowError)
  /\ (forall v, sharpe rets = Ok v -> v = sharpe_spec py_square py_root rets)
  /\ (correctly_rounded libm ->
      forall v, sharpe rets = Ok v ->
                v = sharpe_spec ieee_square F64.sqrt rets).
Proof.
  split; [intros H; apply sharpe_faults in H; discriminate H|].
  split; [intros e; apply sharpe_faults|].
  split.
  - intros v. apply sharpe_value.
    + intros d y H. unfold py_square. rewrite H. reflexivity.
    + intros x y _ H. unfold py_root. rewrite H. reflexivity.
  - intros Hcr v. apply sharpe_value.
    + intros d y. apply pow_two_ieee, Hcr.
    + intros x y. apply pow_half_ieee, Hcr.
Qed.

(** ** The rolling window *)

Lemma window_length (rets : list float) (i : nat) :
  (i < length rets)%nat -> len (window rets i) = Z.min (Z.of_nat i + 1) 21.
Proof.
  intros Hi. unfold len, window, slice, win.
  rewrite length_drop, length_take. lia.
Qed.

(** C7.  The window of day [i] is [rets[max(0, i-20) : i+1]]: it holds
    [min(i+1, 21)] returns, one more than the width [win = 20] once 21 days
    are available. *)
Theorem window_holds_21 (rets : list float) (i : nat) :
  (i < length rets)%nat ->
  length (window rets i) = Nat.min (i + 1) 21.
Proof.
  intros Hi. assert (H := window_length rets i Hi). unfold len in H. lia.
Qed.

Lemma window_holds_21_witness :
  (20 < length (repeat F64.one 30))%nat
  /\ length (window (repeat F64.one 30) 20) = 21%nat
  /\ Nat.min (20 + 1) 20 = 20%nat.
Proof.
  split; [simpl; lia|]. split; [|reflexivity].
  apply (window_holds_21 (repeat F64.one 30) 20). simpl. lia.
Defined.

(** ** A run that never takes a position *)

Lemma flat_pnl_zero (r : float) :
  F64.finite r = true -> F64.is_zero (flat_pnl r) = true.
Proof.
  destruct r as [s|s| |s m e]; simpl; intros H; try discriminate;
    destruct s; reflexivity.
Qed.

Lemma map_flat_pnl_zero (rets : list float) :
  forallb F64.finite rets = true -> all_zero (map flat_pnl rets).
Proof.
  induction rets as [|r rets IH]; simpl; intros H; [constructor|].
  apply andb_true_iff in H as [Hr Hrest].
  constructor; [apply flat_pnl_zero; assumption | apply IH; assumption].
Qed.

Lemma compound_from_one (xs : list float) :
  all_zero xs ->
  fold_left (fun eq x => F64.mul eq (F64.add F64.one x)) xs F64.one = F64.one.
Proof.
  induction 1 as [|x xs Hx _ IH]; cbn [fold_left]; [reflexivity|].
  destruct x as [s|s| |s m e]; try discriminate.
  replace (F64.mul F64.one (F64.add F64.one (S754_zero s))) with F64.one
    by (destruct s; vm_compute; reflexivity).
  exact IH.
Qed.

Lemma sum_zero_from (xs : list float) :
  all_zero xs -> fold_left F64.add xs F64.zero = F64.zero.
Proof.
  induction 1 as [|x xs Hx _ IH]; cbn [fold_left]; [reflexivity|].
  destruct x as [s|s| |s m e]; try discriminate.
  replace (F64.add F64.zero (S754_zero s)) with F64.zero
    by (destruct s; reflexivity).
  exact IH.
Qed.

Lemma sum_zero (xs : list float) : all_zero xs -> F64.sum xs = F64.zero.
Proof. apply sum_zero_from. Qed.

Lemma zero_div_of_Z (n : Z) :
  0 < n -> SFdiv F64.prec F64.emax F64.zero (F64.of_Z n) = F64.zero.
Proof.
  intros Hn. destruct (of_Z_pos_cases n Hn) as [(m & e & ->)| ->]; reflexivity.
Qed.

Lemma squares_of_zeros (xs : list float) :
  all_zero xs ->
  mapM (fun x => F64.pow_two (F64.sub x F64.zero)) xs
  = Ok (map (fun _ => F64.zero) xs).
Proof.
  induction 1 as [|x xs Hx _ IH]; cbn [mapM map]; [reflexivity|].
  destruct x as [s|s| |s m e]; try discriminate.
  replace (F64.pow_two (F64.sub (S754_zero s) F64.zero)) with (Ok F64.zero)
    by (destruct s; reflexivity).
  rewrite bind_Ok, IH. reflexivity.
Qed.

Lemma all_zero_const {A} (xs : list A) : all_zero (map (fun _ => F64.zero) xs).
Proof. induction xs; simpl; constructor; [reflexivity | assumption]. Qed.

Lemma sharpe_zero (xs : list float) : all_zero xs -> sharpe xs = Ok F64.zero.
Proof.
  intros Hz. destruct xs as [|x xs]; [reflexivity|].
  rewrite sharpe_steps by discriminate. cbv zeta.
  assert (Hn := len_cons_pos x xs).
  rewrite (sum_zero _ Hz), zero_div_of_Z by assumption.
  rewrite squares_of_zeros by assumption. rewrite bind_Ok.
  rewrite (sum_zero _ (all_zero_const (x :: xs))).
  rewrite zero_div_of_Z by (destruct (len (x :: xs) =? 1) eqn:H1; lia).
  reflexivity.
Qed.

Lemma count_changes_zero (xs : list float) :
  all_zero xs -> count_changes xs = 0.
Proof.
  induction 1 as [|x xs Hx Hxs IH]; [reflexivity|].
  destruct Hxs as [|y ys Hy Hys]; [reflexivity|].
  change (count_changes (x :: y :: ys))
    with ((if F64.neqb y x then 1 else 0) + count_changes (y :: ys)).
  rewrite IH.
  destruct x as [s|s| |s m e], y as [t|t| |t m' e']; try discriminate.
  reflexivity.
Qed.

Lemma negative_control_flat : flat_mode "negative_control".
Proof. intros pr z. reflexivity. Qed.

Lemma unknown_mode_flat (mode : string) :
  mode <> "baseline" -> mode <> "ablation" -> mode <> "negative_control" ->
  flat_mode mode.
Proof.
  intros Hb Ha Hn pr z. unfold next_pos.
  apply String.eqb_neq in Hb, Ha, Hn. rewrite Hb, Ha, Hn. reflexivity.
Qed.

(** One day of a flat mode from position [0]: the position stays [0], no
    cost is charged, and the entry is [0 * r - 0.0]. *)
Lemma day_step_flat (pr : Prereg) (mode : string) (rets pnl : list float)
    (i : nat) (r z : float) :
  flat_mode mode -> rets !! i = Some r -> rolling_z rets i r = Ok z ->
  day_step pr mode rets (0, pnl) i = Ok (0, pnl ++ [flat_pnl r]).
Proof.
  intros Hflat Hr Hz. unfold day_step, index. rewrite Hr, bind_Ok, Hz, bind_Ok.
  rewrite Hflat. reflexivity.
Qed.

Lemma z_okb_day (rets : list float) (i : nat) (r : float) :
  z_okb rets = true -> rets !! i = Some r ->
  exists z, rolling_z rets i r = Ok z.
Proof.
  intros Hok Hr. unfold z_okb in Hok. rewrite forallb_forall in Hok.
  assert (Hi : (i < length rets)%nat) by (eapply lookup_lt_Some; eassumption).
  specialize (Hok i). rewrite Hr in Hok.
  destruct (rolling_z rets i r) as [z|e]; [eauto|].
  discriminate Hok. apply in_seq. lia.
Qed.

Lemma run_days_flat (pr : Prereg) (mode : string) (rets : list float) :
  flat_mode mode -> z_okb rets = true ->
  forall (n k : nat) (pnl : list float),
    (k + n <= length rets)%nat ->
    run_days pr mode rets (seq k n) (0, pnl)
    = Ok (0, pnl ++ map flat_pnl (take n (drop k rets))).
Proof.
  intros Hflat Hok. induction n as [|n IH]; intros k pnl Hk; cbn [seq run_days].
  - simpl. rewrite app_nil_r. reflexivity.
  - destruct (rets !! k) as [r|] eqn:Hr;
      [|apply lookup_ge_None in Hr; lia].
    destruct (z_okb_day rets k r Hok Hr) as [z Hz].
    rewrite (day_step_flat pr mode rets pnl k r z Hflat Hr Hz), bind_Ok.
    rewrite IH by lia.
    rewrite (drop_S rets r k Hr). simpl. rewrite <- app_assoc. reflexivity.
Qed.

Lemma run_days_flat_prefix (pr : Prereg) (mode : string) (rets : list float)
    (k : nat) :
  flat_mode mode -> z_okb rets = true -> (k <= length rets)%nat ->
  run_days pr mode rets (seq 0 k) (0, []) = Ok (0, map flat_pnl (take k rets)).
Proof.
  intros Hflat Hok Hk.
  rewrite (run_days_flat pr mode rets Hflat Hok k 0 []) by lia.
  reflexivity.
Qed.

Lemma backtest_rets_flat (pr : Prereg) (mode : string) (rets : list float) :
  flat_mode mode -> forallb F64.finite rets = true -> z_okb rets = true ->
  backtest_rets pr rets mode = Ok inert_result.
Proof.
  intros Hflat Hfin Hok. unfold backtest_rets.
  rewrite (run_days_flat_prefix pr mode rets (length rets) Hflat Hok) by lia.
  rewrite firstn_all, bind_Ok.
  assert (Hz := map_flat_pnl_zero rets Hfin).
  rewrite (sharpe_zero _ Hz), bind_Ok.
  unfold compound. rewrite (compound_from_one _ Hz), (count_changes_zero _ Hz).
  reflexivity.
Qed.

(** From position [0], a mode that matches no branch runs exactly as the
    negative control does, faults included. *)
Lemma run_days_flat_agree (pr : Prereg) (m1 m2 : string) (rets : list float) :
  flat_mode m1 -> flat_mode m2 ->
  forall (days : list nat) (pnl : list float),
    run_days pr m1 rets days (0, pnl) = run_days pr m2 rets days (0, pnl).
Proof.
  intros H1 H2. induction days as [|i days IH]; intros pnl; cbn [run_days];
    [reflexivity|].
  unfold day_step.
  destruct (index rets i) as [r|e]; [|reflexivity]. rewrite !bind_Ok.
  destruct (rolling_z rets i r) as [z|e]; [|reflexivity]. rewrite !bind_Ok.
  rewrite H1, H2. apply IH.
Qed.

Lemma backtest_rets_flat_agree (pr : Prereg) (m1 m2 : string) (rets : list float) :
  flat_mode m1 -> flat_mode m2 ->
  backtest_rets pr rets m1 = backtest_rets pr rets m2.
Proof.
  intros H1 H2. unfold backtest_rets.
  rewrite (run_days_flat_agree pr m1 m2 rets H1 H2). reflexivity.
Qed.

Lemma div_Raise (x y : float) (e : exn) :
  F64.div x y = Raise e -> e = ZeroDivisionError.
Proof.
  unfold F64.div. destruct (F64.is_zero y); intros H; inversion H; reflexivity.
Qed.

Lemma gtb_zero_pow_half (x : float) (e : exn) :
  F64.gtb x (F64.of_Z 0) = true -> F64.pow_half x = Raise e ->
  e = OverflowError.
Proof.
  intros Hgt H.
  assert (Hx : nonneg x)
    by (destruct x as [s|s| |s m e']; try discriminate; destruct s;
        try discriminate; reflexivity).
  destruct (pow_half_nonneg x Hx) as [(y & Hy & _)|Hy]; congruence.
Qed.

(** The z-score of a day raises nothing but a division by zero or an
    overflow: the root is taken of a positive variance only. *)
Lemma rolling_z_faults (rets : list float) (i : nat) (r : float) (e : exn) :
  rolling_z rets i r = Raise e -> e = ZeroDivisionError \/ e = OverflowError.
Proof.
  unfold rolling_z. intros H.
  destruct (F64.div (F64.sum (window rets i)) _) as [mu|e1] eqn:Hmu;
    [rewrite bind_Ok in H
    |rewrite bind_Raise in H; inversion H; subst; left; eapply div_Raise; eassumption].
  match type of H with (?v ≫= _) = _ => destruct v as [var|e1] eqn:Hvar end;
    [rewrite bind_Ok in H|rewrite bind_Raise in H; inversion H; subst].
  - destruct (F64.gtb var (F64.of_Z 0)) eqn:Hgt.
    + destruct (F64.pow_half var) as [sd|e1] eqn:Hsd.
      * rewrite bind_Ok in H. left. eapply div_Raise; eassumption.
      * rewrite bind_Raise in H. inversion H; subst. right.
        eapply gtb_zero_pow_half; eassumption.
    + rewrite bind_Ok in H. left. eapply div_Raise; eassumption.
  - destruct (1 <? len (window rets i)); [|discriminate Hvar].
    destruct (mapM _ (window rets i)) as [sq|e2] eqn:Hsq.
    + rewrite bind_Ok in Hvar. left. eapply div_Raise; eassumption.
    + rewrite bind_Raise in Hvar. apply mapM_pow_two_Raise in Hsq.
      inversion Hvar; subst. right. reflexivity.
Qed.

Lemma run_days_faults (pr : Prereg) (mode : string) (rets : list float)
    (days : list nat) (e : exn) :
  Forall (fun i => (i < length rets)%nat) days ->
  forall st, run_days pr mode rets days st = Raise e ->
             e = ZeroDivisionError \/ e = OverflowError.
Proof.
  induction 1 as [|i days Hi Hdays IH]; intros [pos pnl] H; [discriminate H|].
  cbn [run_days] in H.
  destruct (day_step pr mode rets (pos, pnl) i) as [st'|e'] eqn:Hstep;
    [rewrite bind_Ok in H; eapply IH; eassumption|].
  rewrite bind_Raise in H. inversion H; subst. clear H.
  unfold day_step, index in Hstep.
  destruct (rets !! i) as [r|] eqn:Hr; [|apply lookup_ge_None in Hr; lia].
  rewrite bind_Ok in Hstep.
  destruct (rolling_z rets i r) as [z|e'] eqn:Hz;
    [rewrite bind_Ok in Hstep; discriminate Hstep|].
  rewrite bind_Raise in Hstep. inversion Hstep; subst.
  eapply rolling_z_faults; eassumption.
Qed.

Lemma seq_below (n : nat) : Forall (fun i => (i < n)%nat) (seq 0 n).
Proof. apply Forall_forall. intros i Hi. apply elem_of_seq in Hi. lia. Qed.

(** A day whose z-score faults stops the loop, in every mode. *)
Lemma run_days_faulty (pr : Prereg) (mode : string) (rets : list float)
    (days : list nat) :
  forallb
    (fun i => match rets !! i with
              | Some r => is_ok (rolling_z rets i r)
              | None => true
              end) days = false ->
  forall st, exists e, run_days pr mode rets days st = Raise e.
Proof.
  induction days as [|i days IH]; [discriminate|].
  cbn [forallb]. intros H [pos pnl]. cbn [run_days].
  destruct (day_step pr mode rets (pos, pnl) i) as [st'|e] eqn:Hstep;
    [|exists e; rewrite bind_Raise; reflexivity].
  rewrite bind_Ok. apply IH.
  unfold day_step, index in Hstep.
  destruct (rets !! i) as [r|];
    [rewrite bind_Ok in Hstep|rewrite bind_Raise in Hstep; discriminate Hstep].
  destruct (rolling_z rets i r) as [z|e];
    [exact H|rewrite bind_Raise in Hstep; discriminate Hstep].
Qed.

(** Where the z-score of some day faults, [backtest] raises, in every
    mode: a [ZeroDivisionError] or an [OverflowError]. *)
Lemma backtest_rets_faulty (pr : Prereg) (mode : string) (rets : list float) :
  z_okb rets = false ->
  exists e, backtest_rets pr rets mode = Raise e
            /\ (e = ZeroDivisionError \/ e = OverflowError).
Proof.
  intros Hz. unfold backtest_rets.
  destruct (run_days_faulty pr mode rets _ Hz (0, [])) as [e He].
  exists e. rewrite He, bind_Raise. split; [reflexivity|].
  eapply run_days_faults; [apply seq_below|exact He].
Qed.

End Figures.

Section Inert.
Context {env : PyEnv}.

(** C3 (as amended).  The negative control takes no position and pays
    no cost: whatever the signal the position stays [0], and the cost of
    such a day is [0.0].  Where the rolling z-score, computed in every
    mode, raises nothing, the entry of every day is [0 * r - 0.0]; if
    moreover the returns are finite the summary is [final_equity = 1.0],
    [sharpe = 0.0] and an approximate trade count of [0].  Where the
    z-score of some day faults, [backtest] raises, a [ZeroDivisionError]
    or an [OverflowError]. *)
Theorem negative_control_inert (pr : Prereg) (g : rng) (rets : list float) :
  returns (fst (gen_prices g (n_days pr))) = Ok rets ->
  (forall z, next_pos pr "negative_control" z 0 = 0)
  /\ day_cost pr (negb (0 =? 0)) = F64.zero
  /\ (z_okb rets = true ->
      (forall k, (k <= length rets)%nat ->
         run_days pr "negative_control" rets (seq 0 k) (0, [])
         = Ok (0, map flat_pnl (take k rets)))
      /\ (forallb F64.finite rets = true ->
          backtest pr g "negative_control" = Ok inert_result))
  /\ (z_okb rets = false ->
      exists e, backtest pr g "negative_control" = Raise e
                /\ (e = ZeroDivisionError \/ e = OverflowError)).
Proof.
  intros Hrets.
  split; [intros z; reflexivity|]. split; [reflexivity|]. split.
  - intros Hok. split.
    + intros k Hk. apply run_days_flat_prefix; auto using negative_control_flat.
    + intros Hfin. unfold backtest. rewrite Hrets, bind_Ok.
      apply backtest_rets_flat; auto using negative_control_flat.
  - intros Hz. unfold backtest. rewrite Hrets, bind_Ok.
    apply backtest_rets_faulty, Hz.
Qed.

(** C10 (as amended).  A mode outside the three known ones raises nothing
    of its own: [backtest] runs exactly as for the negative control, to
    the same summary or the same fault.  Where the rolling z-score raises
    nothing the position stays [0] on every day; if moreover the returns
    are finite, every P&L entry compares equal to [0.0] and the summary is
    [final_equity = 1.0], [sharpe = 0.0], [n_trades_approx = 0].  Where the
    z-score of some day faults, [backtest] raises, a [ZeroDivisionError]
    or an [OverflowError]. *)
Theorem unknown_mode_inert (pr : Prereg) (g : rng) (mode : string) :
  mode <> "baseline" -> mode <> "ablation" -> mode <> "negative_control" ->
  backtest pr g mode = backtest pr g "negative_control"
  /\ forall rets,
       returns (fst (gen_prices g (n_days pr))) = Ok rets ->
       (z_okb rets = true ->
        (forall k, (k <= length rets)%nat ->
           run_days pr mode rets (seq 0 k) (0, [])
           = Ok (0, map flat_pnl (take k rets)))
        /\ (forallb F64.finite rets = true ->
            Forall (fun x => F64.eqb x F64.zero = true) (map flat_pnl rets)
            /\ backtest pr g mode = Ok inert_result))
       /\ (z_okb rets = false ->
           exists e, backtest pr g mode = Raise e
                     /\ (e = ZeroDivisionError \/ e = OverflowError)).
Proof.
  intros Hb Ha Hn.
  assert (Hflat := unknown_mode_flat mode Hb Ha Hn).
  split.
  - unfold backtest. destruct (returns _) as [rets|e]; [|reflexivity].
    rewrite !bind_Ok.
    apply backtest_rets_flat_agree; auto using negative_control_flat.
  - intros rets Hrets. split.
    + intros Hok. split.
      * intros k Hk. apply run_days_flat_prefix; assumption.
      * intros Hfin. split.
        -- eapply Forall_impl; [apply map_flat_pnl_zero; exact Hfin|].
           intros x Hx. destruct x; try discriminate. reflexivity.
        -- unfold backtest. rewrite Hrets, bind_Ok.
           apply backtest_rets_flat; assumption.
    + intros Hz. unfold backtest. rewrite Hrets, bind_Ok.
      apply backtest_rets_faulty, Hz.
Qed.
End Inert.

(** ** The preregistration identifiers *)

Lemma str_int_inj (a b : Z) : str_int a = str_int b -> a = b.
Proof.
  unfold str_int. intros H.
  assert (Hn : forall z, Z.to_int z <> Decimal.Pos Decimal.Nil
                         /\ Z.to_int z <> Decimal.Neg Decimal.Nil).
  { intros [|p|p]; simpl; split; try discriminate;
      intros E; injection E; apply DecimalPos.Unsigned.to_uint_nonnil. }
  apply DecimalZ.to_int_inj.
  assert (E : NilZero.int_of_string (NilZero.string_of_int (Z.to_int a))
              = NilZero.int_of_string (NilZero.string_of_int (Z.to_int b)))
    by (rewrite H; reflexivity).
  rewrite !NilZero.isi in E by apply Hn. congruence.
Qed.

Lemma string_app_inv_head (p a b : string) :
  (p ++ a)%string = (p ++ b)%string -> a = b.
Proof.
  induction p as [|c p IH]; intros H; [exact H|].
  apply IH. change (String c (p ++ a) = String c (p ++ b))%string in H.
  congruence.
Qed.

Lemma string_app_inv_last (a b : string) (c : ascii) :
  (a ++ String c EmptyString)%string = (b ++ String c EmptyString)%string -> a = b.
Proof.
  revert b. induction a as [|x a IH]; intros [|y b] H.
  - reflexivity.
  - destruct b; discriminate.
  - destruct a; discriminate.
  - change (String x (a ++ String c EmptyString)
            = String y (b ++ String c EmptyString))%string in H.
    injection H as -> H. f_equal. apply IH, H.
Qed.

(** The text hashed for the [AEQ]: a fixed head, the seed, a brace. *)
Lemma canon_prereg_obj (seed : Z) :
  canon (JObj (prereg_obj seed)) = (prereg_head ++ str_int seed ++ "}")%string.
Proof. reflexivity. Qed.

(** C1 (as amended).  The [AEQ] is the first 12 hex digits of the SHA-256 of
    the canonical text of the record [prereg] builds, and that record holds
    the seed: the text is a fixed head (parameters, condition set, metric,
    notes), the seed in decimal and a closing brace.  For fixed parameters
    two runs hash the same text exactly when their seeds are equal. *)
Theorem aeq_hashes_the_seed (s1 s2 : Z) :
  getitem (prereg s1) "AEQ" = Ok (JStr (prereg_aeq s1))
  /\ prereg_aeq s1
     = substring 0 12 (sha256_hex (encode (prereg_head ++ str_int s1 ++ "}")))
  /\ (canon (JObj (prereg_obj s1)) = canon (JObj (prereg_obj s2)) <-> s1 = s2).
Proof.
  split; [reflexivity|]. split; [reflexivity|]. split.
  - rewrite !canon_prereg_obj. intros H.
    apply string_app_inv_head in H.
    apply (string_app_inv_last _ _ "}"%char) in H.
    apply str_int_inj, H.
  - intros ->. reflexivity.
Qed.

(** C1 fails as stated: the seeds 1 and 2, with the same parameters, give
    two different [AEQ]s. *)
Lemma aeq_differs_for_seeds_1_and_2 :
  getitem (prereg 1) "AEQ" = Ok (JStr "973cdbbf1147")
  /\ getitem (prereg 2) "AEQ" = Ok (JStr "053c9b603f9d")
  /\ getitem (prereg 1) "AEQ" <> getitem (prereg 2) "AEQ".
Proof.
  assert (H1 : getitem (prereg 1) "AEQ" = Ok (JStr "973cdbbf1147"))
    by (vm_compute; reflexivity).
  assert (H2 : getitem (prereg 2) "AEQ" = Ok (JStr "053c9b603f9d"))
    by (vm_compute; reflexivity).
  split; [exact H1|]. split; [exact H2|].
  rewrite H1, H2. discriminate.
Qed.

(** ** Running the orchestrator *)

Section RunLemmas.
Context {env : PyEnv}.

Lemma runM_bind {A B} (m : M A) (k : A -> M B) (w : world) :
  runM (m ≫= k) w
  = match runM m w with
    | (Ok a, w') => runM (k a) w'
    | (Raise e, w') => (Raise e, w')
    end.
Proof. reflexivity. Qed.

Lemma wp_ret {A} (a : A) Q w : Q (Ok a) w -> wp (mret a) Q w.
Proof. intros H. exact H. Qed.

Lemma wp_bind_ret {A B} (a : A) (k : A -> M B) Q w :
  wp (k a) Q w -> wp (mret a ≫= k) Q w.
Proof. intros H. exact H. Qed.

Lemma wp_bind_assoc {A B C} (m : M A) (k1 : A -> M B) (k2 : B -> M C) Q w :
  wp (m ≫= (fun a => k1 a ≫= k2)) Q w -> wp ((m ≫= k1) ≫= k2) Q w.
Proof.
  unfold wp. rewrite (runM_bind (m ≫= k1)), !(runM_bind m).
  destruct (runM m w) as [[a|e] w1]; [|intros H; exact H].
  rewrite runM_bind. intros H; exact H.
Qed.

Lemma wp_bind_lift {A B} (m : res A) (k : A -> M B) Q w :
  match m with Ok a => wp (k a) Q w | Raise e => Q (Raise e) w end ->
  wp (lift m ≫= k) Q w.
Proof. unfold wp. rewrite runM_bind. destruct m; intros H; exact H. Qed.

Lemma wp_bind_emit {B} (ev : event) (k : unit -> M B) Q w :
  wp (k tt) Q {| fs := fs w; trace := trace w ++ [ev] |} ->
  wp (emit ev ≫= k) Q w.
Proof. intros H. exact H. Qed.

Lemma wp_emit (ev : event) Q w :
  Q (Ok tt) {| fs := fs w; trace := trace w ++ [ev] |} -> wp (emit ev) Q w.
Proof. intros H. exact H. Qed.

Lemma wp_bind_write_json {B} (file : string) (obj : json) (k : unit -> M B) Q w :
  wp (k tt) Q {| fs := <[file := (dumps obj ++ newline)%string]> (fs w);
                 trace := trace w ++ [EvWrite file obj] |} ->
  wp (write_json file obj ≫= k) Q w.
Proof. intros H. exact H. Qed.

Lemma wp_bind_file_sha256 {B} (file s : string) (k : string -> M B) Q w :
  fs w !! file = Some s ->
  wp (k (sha256_hex (encode s))) Q w ->
  wp (file_sha256 file ≫= k) Q w.
Proof.
  intros Hs. unfold wp, file_sha256. rewrite !runM_bind.
  cbn [runM read_text]. rewrite Hs. intros H; exact H.
Qed.

Lemma wp_bind_read_text {B} (file s : string) (k : string -> M B) Q w :
  fs w !! file = Some s ->
  wp (k s) Q w ->
  wp (read_text file ≫= k) Q w.
Proof.
  intros Hs. unfold wp. rewrite runM_bind.
  cbn [runM read_text]. rewrite Hs. intros H; exact H.
Qed.

Lemma wp_bind_exists_file {B} (file s : string) (k : bool -> M B) Q w :
  fs w !! file = Some s ->
  wp (k true) Q w ->
  wp (exists_file file ≫= k) Q w.
Proof.
  intros Hs. unfold wp. rewrite runM_bind.
  cbn [runM exists_file]. rewrite Hs.
  rewrite bool_decide_eq_true_2 by eauto. intros H; exact H.
Qed.

Lemma wp_bind_append_ledger {B} (entry : list (string * json))
    (k : unit -> M B) Q w :
  (let e := JObj (setdefault "ts" (JStr (clock (length (trace w)))) entry) in
   wp (k tt) Q
     {| fs := <[ledger_file :=
                 (default EmptyString (fs w !! ledger_file)
                    ++ canon e ++ newline)%string]> (fs w);
        trace := trace w ++ [EvLedger e] |}) ->
  wp (append_ledger entry ≫= k) Q w.
Proof. intros H. exact H. Qed.

Lemma wp_bind_simulate {B} (pr : Prereg) (seed : Z) (mode : string)
    (k : ConditionResult -> M B) Q w :
  (let w1 := {| fs := fs w; trace := trace w ++ [EvSimulate mode seed] |} in
   match backtest pr (Random seed) mode with
   | Ok c => wp (k c) Q w1
   | Raise e => Q (Raise e) w1
   end) ->
  wp (simulate pr seed mode ≫= k) Q w.
Proof.
  unfold wp, simulate. rewrite !runM_bind. cbn [runM emit lift].
  destruct (backtest pr (Random seed) mode); intros H; exact H.
Qed.

Lemma getitem_prereg_AEQ (seed : Z) :
  getitem (prereg seed) "AEQ" = Ok (JStr (prereg_aeq seed)).
Proof. reflexivity. Qed.

Lemma getitem_prereg_CID (seed : Z) :
  getitem (prereg seed) "CID" = Ok (JStr (prereg_cid seed)).
Proof. reflexivity. Qed.

Lemma getitem_prereg_conditions (seed : Z) :
  getitem (prereg seed) "conditions" = Ok (JList (map JStr conditions)).
Proof. reflexivity. Qed.

Lemma wp_conseq {A} (m : M A) (Q1 Q2 : res A -> world -> Prop) w :
  wp m Q1 w -> (forall r w', Q1 r w' -> Q2 r w') -> wp m Q2 w.
Proof. unfold wp. intros H HQ. apply HQ, H. Qed.

Lemma wp_bind_gen {A B} (m : M A) (k : A -> M B) Q w :
  wp m (fun r w1 => match r with
                    | Ok a => wp (k a) Q w1
                    | Raise e => Q (Raise e) w1
                    end) w ->
  wp (m ≫= k) Q w.
Proof.
  unfold wp. rewrite runM_bind.
  destruct (runM m w) as [[a|e] w1]; intros H; exact H.
Qed.

Lemma string_app_assoc (a b c : string) :
  ((a ++ b) ++ c)%string = (a ++ b ++ c)%string.
Proof.
  induction a as [|x a IH]; [reflexivity|].
  change (String x ((a ++ b) ++ c) = String x (a ++ b ++ c))%string.
  rewrite IH. reflexivity.
Qed.

Ltac fs_lookup :=
  cbn [fs]; unfold ledger_file in *;
  repeat (rewrite lookup_insert_ne by discriminate);
  first [apply lookup_insert_eq | eassumption].

Ltac fs_lookup_ledger :=
  cbn [fs]; unfold ledger_file in *;
  repeat (rewrite lookup_insert_ne by discriminate);
  rewrite lookup_insert_eq, string_app_assoc; reflexivity.

Ltac ledger_simpl :=
  cbv zeta; cbn [fs trace]; unfold ledger_file in *;
  repeat (rewrite lookup_insert_ne by discriminate);
  repeat match goal with
         | H : fs ?w !! "ledger.ndjson" = Some _ |- context [fs ?w !! "ledger.ndjson"] =>
             rewrite H
         end;
  rewrite ?lookup_insert_eq; cbn [default from_option id].

Ltac leaf_fail Hout HP3 HL3 HT3 :=
  cbn [fs trace]; split; [rewrite Hout; reflexivity|];
  split; [exact HP3|]; split; [exact HL3|];
  split; [rewrite HT3, <- ?app_assoc; eexists; reflexivity|];
  intros o Ho; rewrite Hout in Ho; discriminate Ho.

Ltac leaf_ok Hout HT3 :=
  split; [rewrite Hout; reflexivity|];
  split; [fs_lookup|];
  split; [eexists; fs_lookup_ledger|];
  split; [cbn [trace]; rewrite HT3, <- ?app_assoc; eexists; reflexivity|];
  let o0 := fresh "o0" in
  let Ho0 := fresh "Ho0" in
  intros o0 Ho0; rewrite Hout in Ho0; injection Ho0 as <-;
  eexists; eexists; eexists;
  cbn [trace]; rewrite HT3; unfold evidence_events;
  rewrite <- ?app_assoc; cbn [app andb]; reflexivity.

Lemma run_once_wp (seed : Z) (blind reveal : bool) (w : world) :
  wp (run_once seed blind reveal)
     (fun r w' =>
        r = o_status <$> outcome seed blind
        /\ committed seed w w'
        /\ forall o, outcome seed blind = Ok o ->
             exists e1 e2 e3 mf,
               trace w' = trace w ++ run_events seed blind reveal o e1 e2 e3 mf)
     w.
Proof.
  unfold run_once. cbv zeta.
  apply wp_bind_write_json.
  eapply wp_bind_file_sha256; [fs_lookup|].
  apply wp_bind_lift. rewrite getitem_prereg_AEQ.
  apply wp_bind_lift. rewrite getitem_prereg_CID.
  apply wp_bind_append_ledger. ledger_simpl.
  fold (prereg_text seed).
  match goal with |- context [EvLedger ?e] => set (E1 := e) end.
  assert (HEa : entry_text E1 "event" = Some "prereg_written") by reflexivity.
  assert (HEb : entry_text E1 "file" = Some "prereg.json") by reflexivity.
  assert (HEc : entry_text E1 "sha256"
                = Some (sha256_hex (encode (prereg_text seed)))) by reflexivity.
  clearbody E1.
  set (L1 := (default EmptyString (fs w !! "ledger.ndjson") ++ canon E1 ++ newline)%string).
  match goal with |- wp _ _ ?w2 => remember w2 as W2 eqn:HW2 end.
  assert (HP2 : fs W2 !! "prereg.json" = Some (prereg_text seed))
    by (subst W2; fs_lookup).
  assert (HL2 : fs W2 !! "ledger.ndjson" = Some L1) by (subst W2; fs_lookup).
  assert (HT2 : trace W2 = trace w ++ commit_events seed E1)
    by (subst W2; cbn [trace]; rewrite <- app_assoc; reflexivity).
  clear HW2.
  eapply wp_conseq with (Q1 := tail_post seed blind reveal W2 (prereg_text seed) L1).
  2:{ intros r w' (Hr & HP & [more HL] & [rest HT] & Hev).
      split; [exact Hr|]. split.
      - exists E1, rest, more. unfold ledger_file.
        split; [rewrite HT, HT2, <- app_assoc; reflexivity|].
        do 4 (split; [assumption|]).
        rewrite HL. unfold L1. rewrite !string_app_assoc. reflexivity.
      - intros o Ho. destruct (Hev o Ho) as (e2 & e3 & mf & HT').
        exists E1, e2, e3, mf. rewrite HT', HT2. unfold run_events.
        rewrite <- app_assoc. reflexivity. }
  clear HEa HEb HEc HT2. clearbody L1.
  apply wp_bind_gen.
  eapply wp_conseq
    with (Q1 := labels_post seed blind W2 (prereg_text seed) L1).
  { destruct blind.
    - apply wp_bind_lift. rewrite getitem_prereg_conditions.
      change (strings_of (JList (map JStr conditions))) with conditions.
      apply wp_bind_write_json.
      eapply wp_bind_file_sha256; [fs_lookup|].
      apply wp_bind_append_ledger. ledger_simpl.
      apply wp_ret. cbn [fs trace].
      split; [reflexivity|].
      split; [fs_lookup|].
      split; [eexists; fs_lookup|].
      split; [intros _; fs_lookup|].
      eexists. rewrite <- app_assoc. reflexivity.
    - apply wp_ret.
      split; [reflexivity|]. split; [exact HP2|].
      split; [exists EmptyString; rewrite HL2; f_equal;
              clear; induction L1 as [|c L IH]; [reflexivity|];
              change (String c L = String c (L ++ EmptyString))%string;
              rewrite <- IH; reflexivity|].
      split; [discriminate|].
      exists JNull. cbn [blind_events]. rewrite app_nil_r. reflexivity. }
  intros r w3 (-> & HP3 & HL3 & HB3 & [e2 HT3]).
  clear HP2 HL2.
  unfold tail_post.
  apply wp_bind_simulate. cbv zeta.
  destruct (backtest Prereg_default (Random (seed + 1)) "baseline")
    as [base|e] eqn:Hbase.
  2:{ assert (Hout : outcome seed blind = Raise e)
        by (unfold outcome; cbv zeta; rewrite Hbase; reflexivity).
      leaf_fail Hout HP3 HL3 HT3. }
  apply wp_bind_simulate. cbv zeta.
  destruct (backtest Prereg_default (Random (seed + 2)) "ablation")
    as [ablt|e] eqn:Hablt.
  2:{ assert (Hout : outcome seed blind = Raise e)
        by (unfold outcome; cbv zeta; rewrite Hbase, Hablt; reflexivity).
      leaf_fail Hout HP3 HL3 HT3. }
  apply wp_bind_simulate. cbv zeta.
  destruct (backtest Prereg_default (Random (seed + 3)) "negative_control")
    as [neg|e] eqn:Hneg.
  2:{ assert (Hout : outcome seed blind = Raise e)
        by (unfold outcome; cbv zeta; rewrite Hbase, Hablt, Hneg; reflexivity).
      leaf_fail Hout HP3 HL3 HT3. }
  apply wp_bind_lift. apply wp_bind_lift.
  apply wp_bind_lift.
  destruct (getitem (labels_of seed blind) "baseline") as [lb|e] eqn:Hlb.
  2:{ assert (Hout : outcome seed blind = Raise e)
        by (unfold outcome; cbv zeta; rewrite Hbase, Hablt, Hneg, Hlb; reflexivity).
      leaf_fail Hout HP3 HL3 HT3. }
  apply wp_bind_lift.
  destruct (getitem (labels_of seed blind) "ablation") as [la|e] eqn:Hla.
  2:{ assert (Hout : outcome seed blind = Raise e)
        by (unfold outcome; cbv zeta; rewrite Hbase, Hablt, Hneg, Hlb, Hla;
            reflexivity).
      leaf_fail Hout HP3 HL3 HT3. }
  apply wp_bind_lift.
  destruct (getitem (labels_of seed blind) "negative_control") as [ln|e] eqn:Hln.
  2:{ assert (Hout : outcome seed blind = Raise e)
        by (unfold outcome; cbv zeta; rewrite Hbase, Hablt, Hneg, Hlb, Hla, Hln;
            reflexivity).
      leaf_fail Hout HP3 HL3 HT3. }
  set (o := {| o_base := base; o_ablt := ablt; o_neg := neg;
               o_lb := lb; o_la := la; o_ln := ln |}).
  assert (Hout : outcome seed blind = Ok o)
    by (unfold outcome; cbv zeta; rewrite Hbase, Hablt, Hneg, Hlb, Hla, Hln;
        reflexivity).
  change (results_obj _ _ seed blind _ _ _) with (o_results seed blind o).
  change (overall_of _) with (o_overall o).
  clearbody o. clear Hbase Hablt Hneg Hlb Hla Hln.
  destruct HL3 as [more3 HL3].
  apply wp_bind_write_json.
  eapply wp_bind_file_sha256; [fs_lookup|].
  apply wp_bind_append_ledger. ledger_simpl.
  apply wp_bind_lift. apply wp_bind_lift.
  eapply wp_bind_file_sha256; [fs_lookup|].
  eapply wp_bind_file_sha256; [fs_lookup|].
  eapply wp_bind_file_sha256; [fs_lookup|].
  destruct blind.
  - specialize (HB3 eq_refl).
    apply wp_bind_assoc. eapply wp_bind_file_sha256; [fs_lookup|].
    apply wp_bind_ret. apply wp_bind_write_json.
    destruct reveal; cbn [andb].
    + eapply wp_bind_exists_file; [fs_lookup|]. cbv iota.
      apply wp_bind_assoc. apply wp_bind_emit.
      apply wp_bind_assoc. eapply wp_bind_read_text; [fs_lookup|].
      apply wp_bind_emit. apply wp_bind_emit. apply wp_ret.
      leaf_ok Hout HT3.
    + apply wp_bind_ret. cbv iota. apply wp_bind_ret.
      apply wp_bind_emit. apply wp_ret.
      leaf_ok Hout HT3.
  - clear HB3. apply wp_bind_ret. apply wp_bind_write_json.
    destruct reveal; cbn [andb].
    + apply wp_bind_ret. cbv iota. apply wp_bind_ret.
      apply wp_bind_emit. apply wp_ret.
      leaf_ok Hout HT3.
    + apply wp_bind_ret. cbv iota. apply wp_bind_ret.
      apply wp_bind_emit. apply wp_ret.
      leaf_ok Hout HT3.
Qed.

End RunLemmas.

Section RunTheorems.
Context {env : PyEnv}.

Lemma forallb_false_Exists {A} (f : A -> bool) (l : list A) :
  forallb f l = false -> Exists (fun x => f x = false) l.
Proof.
  induction l as [|x l IH]; simpl; [discriminate|].
  destruct (f x) eqn:Hx; simpl; intros H.
  - right. apply IH, H.
  - left. exact Hx.
Qed.

Lemma new_events_app (w w' : world) (evs : list event) :
  trace w' = trace w ++ evs -> new_events w w' = evs.
Proof. intros H. unfold new_events. rewrite H. apply drop_app_length. Qed.

(** A run that returns made its three simulations and found its three
    labels; its effects are [run_events], and its status is the status of
    the outcome. *)
Lemma run_once_complete (seed : Z) (blind reveal : bool) (w w' : world)
    (code : Z) :
  runM (run_once seed blind reveal) w = (Ok code, w') ->
  exists o e1 e2 e3 mf,
    outcome seed blind = Ok o
    /\ code = o_status o
    /\ new_events w w' = run_events seed blind reveal o e1 e2 e3 mf.
Proof.
  intros H. pose proof (run_once_wp seed blind reveal w) as H0.
  unfold wp in H0. rewrite H in H0. cbn [fst snd] in H0.
  destruct H0 as (Hr & _ & Hev).
  destruct (outcome seed blind) as [o|e] eqn:Ho; [|discriminate Hr].
  injection Hr as ->.
  destruct (Hev o eq_refl) as (e1 & e2 & e3 & mf & HT).
  exists o, e1, e2, e3, mf. split; [reflexivity|]. split; [reflexivity|].
  apply new_events_app, HT.
Qed.

Lemma written_results (seed : Z) (blind reveal : bool) (o : Outcome)
    (e1 e2 e3 mf : json) :
  written "results.json" (run_events seed blind reveal o e1 e2 e3 mf)
  = [o_results seed blind o].
Proof. destruct blind, reveal; reflexivity. Qed.

Lemma simulations_run (seed : Z) (blind reveal : bool) (o : Outcome)
    (e1 e2 e3 mf : json) :
  simulations (run_events seed blind reveal o e1 e2 e3 mf)
  = [("baseline", seed + 1); ("ablation", seed + 2);
     ("negative_control", seed + 3)].
Proof. destruct blind, reveal; reflexivity. Qed.

(** C2.  Commitment before evidence, in every execution of [run_once],
    whether it returns or faults: the effects of the run start with the
    write of [prereg.json] and the ledger line [prereg_written] that
    carries its hash; the file still holds the record at the end and the
    ledger continues the old one with that line; and every simulation,
    the write of [results.json] and the ledger line [results_written] come
    after these two. *)
Theorem commitment_before_evidence (seed : Z) (blind reveal : bool) (w : world) :
  let w' := snd (runM (run_once seed blind reveal) w) in
  committed seed w w'
  /\ forall i ev,
       new_events w w' !! i = Some ev -> is_evidence ev = true -> (2 <= i)%nat.
Proof.
  intros w'. pose proof (run_once_wp seed blind reveal w) as H.
  unfold wp in H. fold w' in H. destruct H as (_ & Hc & _).
  split; [exact Hc|].
  destruct Hc as (entry & rest & more & HT & Hev & _).
  intros i ev Hi He. rewrite (new_events_app _ _ _ HT) in Hi.
  destruct i as [|[|i]]; [| |lia].
  - injection Hi as <-. discriminate He.
  - injection Hi as <-. cbn [is_evidence] in He. rewrite Hev in He.
    discriminate He.
Qed.

(** C5.  The exit status.  A run that returns wrote one [results.json],
    whose [overall_pass] is the conjunction of the gates, and returns [0]
    when it is true and [2] when a gate failed; it returns nothing else. *)
Theorem exit_status_contract (seed : Z) (blind reveal : bool) (w w' : world)
    (code : Z) :
  runM (run_once seed blind reveal) w = (Ok code, w') ->
  exists o,
    outcome seed blind = Ok o
    /\ written "results.json" (new_events w w') = [o_results seed blind o]
    /\ json_field (o_results seed blind o) "overall_pass"
       = Some (JBool (o_overall o))
    /\ code = (if o_overall o then 0 else 2)
    /\ (code = 0 <-> Forall (fun kv => g_pass (snd kv) = true) (o_gates o))
    /\ (code = 2 <-> Exists (fun kv => g_pass (snd kv) = false) (o_gates o))
    /\ (code = 0 \/ code = 2).
Proof.
  intros H.
  destruct (run_once_complete _ _ _ _ _ _ H)
    as (o & e1 & e2 & e3 & mf & Ho & -> & Hev).
  exists o. split; [exact Ho|].
  split; [rewrite Hev; apply written_results|].
  split; [reflexivity|]. split; [reflexivity|].
  unfold o_status, o_overall, overall_of.
  destruct (forallb _ (o_gates o)) eqn:Hall.
  - rewrite forallb_forall in Hall.
    split; [split; [intros _|reflexivity]|].
    + apply List.Forall_forall. exact Hall.
    + split; [split; [discriminate|]|left; reflexivity].
      intros Hex. apply List.Exists_exists in Hex as (kv & Hin & Hkv).
      rewrite (Hall kv Hin) in Hkv. discriminate Hkv.
  - split; [split; [discriminate|]|].
    + intros Hf. exfalso. rewrite List.Forall_forall in Hf.
      apply (proj2 (forallb_forall _ _)) in Hf. congruence.
    + split; [split; [intros _|reflexivity]|right; reflexivity].
      apply forallb_false_Exists, Hall.
Qed.
End RunTheorems.

Section GateAndSeries.
Context {env : PyEnv}.

(** C4.  The gates.  A run that returns recorded exactly three gates in
    [results.json], each with its value, its threshold and its outcome:
    baseline Sharpe [>= 0.50], baseline minus ablation Sharpe [>= 0.30],
    negative-control Sharpe [<= 0.25]; and [overall_pass] is true exactly
    when the three outcomes are. *)
Theorem gate_logic (seed : Z) (blind reveal : bool) (w w' : world) (code : Z) :
  runM (run_once seed blind reveal) w = (Ok code, w') ->
  exists o,
    outcome seed blind = Ok o
    /\ written "results.json" (new_events w w') = [o_results seed blind o]
    /\ let bs := cr_sharpe (o_base o) in
       let d := F64.sub bs (cr_sharpe (o_ablt o)) in
       let ns := cr_sharpe (o_neg o) in
       let p1 := F64.geb bs (F64.lit 50 2) in
       let p2 := F64.geb d (F64.lit 30 2) in
       let p3 := F64.leb ns (F64.lit 25 2) in
       json_field (o_results seed blind o) "gates"
       = Some (JObj
           [("baseline_sharpe_min",
             JObj [("value", JFloat bs); ("min", JFloat (F64.lit 50 2));
                   ("pass", JBool p1)]);
            ("delta_min",
             JObj [("value", JFloat d); ("min", JFloat (F64.lit 30 2));
                   ("pass", JBool p2)]);
            ("neg_sharpe_max",
             JObj [("value", JFloat ns); ("max", JFloat (F64.lit 25 2));
                   ("pass", JBool p3)])])
       /\ json_field (o_results seed blind o) "overall_pass"
          = Some (JBool (p1 && p2 && p3))
       /\ (o_overall o = true <-> p1 = true /\ p2 = true /\ p3 = true).
Proof.
  intros H.
  destruct (run_once_complete _ _ _ _ _ _ H)
    as (o & e1 & e2 & e3 & mf & Ho & _ & Hev).
  exists o. split; [exact Ho|].
  split; [rewrite Hev; apply written_results|].
  intros bs d ns p1 p2 p3.
  assert (Hov : o_overall o = p1 && p2 && p3).
  { unfold p1, p2, p3, d, ns, bs.
    unfold o_overall, o_gates, o_delta, overall_of, gates_of, dict_of.
    cbn [fold_left dict_set String.eqb Ascii.eqb Bool.eqb fst snd forallb g_pass
         baseline_sharpe_min delta_min neg_sharpe_max Prereg_default].
    rewrite andb_true_r, andb_assoc. reflexivity. }
  split; [reflexivity|].
  split; [cbn [o_results results_obj json_field]; rewrite <- Hov; reflexivity|].
  rewrite Hov. destruct p1, p2, p3; simpl; intuition congruence.
Qed.

Lemma gen_loop_length (k : nat) (g : rng) (p : float) (out : list float) :
  length (fst (gen_loop k g p out)) = (length out + k)%nat.
Proof.
  revert g p out. induction k as [|k IH]; intros g p out; simpl; [lia|].
  destruct (gauss g _ _) as [r g']. rewrite IH, length_app. simpl. lia.
Qed.

Lemma gen_loop_head (k : nat) (g : rng) (p x : float) (out : list float) :
  fst (gen_loop k g p (x :: out)) !! 0%nat = Some x.
Proof.
  revert g p out. induction k as [|k IH]; intros g p out; simpl; [reflexivity|].
  destruct (gauss g _ _) as [r g']. apply IH.
Qed.

(** The price series of a generator: day 0 is [100.0]; [n] prices for
    [n >= 1], and one price below that. *)
Lemma gen_prices_shape (g : rng) (n : Z) :
  length (fst (gen_prices g n)) = Z.to_nat (Z.max 1 n)
  /\ fst (gen_prices g n) !! 0%nat = Some (F64.of_Z 100).
Proof.
  unfold gen_prices. split; [|apply gen_loop_head].
  rewrite gen_loop_length. simpl. lia.
Qed.

(** C6 (as amended).  A run that returns called three simulations, each
    on a generator of its own, seeded [seed + 1], [seed + 2] and
    [seed + 3]; every simulation generates its own price series from its
    generator, with [100.0] at index 0 and [n_days] prices, and consumes
    the returns of that series. *)
Theorem each_simulation_has_its_own_series (seed : Z) (blind reveal : bool)
    (w w' : world) (code : Z) :
  runM (run_once seed blind reveal) w = (Ok code, w') ->
  simulations (new_events w w')
  = [("baseline", seed + 1); ("ablation", seed + 2);
     ("negative_control", seed + 3)]
  /\ forall (s : Z) (mode : string),
       let prices := fst (gen_prices (Random s) (n_days Prereg_default)) in
       length prices = 252%nat
       /\ prices !! 0%nat = Some (F64.of_Z 100)
       /\ backtest Prereg_default (Random s) mode
          = (returns prices ≫= fun rets => backtest_rets Prereg_default rets mode).
Proof.
  intros H.
  destruct (run_once_complete _ _ _ _ _ _ H)
    as (o & e1 & e2 & e3 & mf & _ & _ & Hev).
  split; [rewrite Hev; apply simulations_run|].
  intros s mode prices.
  destruct (gen_prices_shape (Random s) (n_days Prereg_default)) as [Hl Hh].
  split; [exact Hl|]. split; [exact Hh|]. reflexivity.
Qed.
End GateAndSeries.

Section Blinding.
Context {env : PyEnv}.

Lemma run_pair {A} (m : M A) (w : world) (r : res A) :
  fst (runM m w) = r -> runM m w = (r, snd (runM m w)).
Proof. intros <-. destruct (runM m w); reflexivity. Qed.

Lemma run_once_status (seed : Z) (blind reveal : bool) (w : world) :
  fst (runM (run_once seed blind reveal) w) = o_status <$> outcome seed blind.
Proof.
  pose proof (run_once_wp seed blind reveal w) as H. unfold wp in H.
  apply H.
Qed.

(** The labels a shuffle of the three conditions gives: each condition has
    one, and the [metrics] dict built with them holds the three summaries
    and the Sharpe difference, none overwritten. *)
Lemma blind_labels_perm (l : list string) :
  Permutation conditions l ->
  exists lb la ln,
    getitem (blind_labels l) "baseline" = Ok lb
    /\ getitem (blind_labels l) "ablation" = Ok la
    /\ getitem (blind_labels l) "negative_control" = Ok ln
    /\ forall base ablt neg delta,
         let m := metrics_of lb la ln base ablt neg delta in
         dict_get lb m = Some (cond_json base)
         /\ dict_get la m = Some (cond_json ablt)
         /\ dict_get ln m = Some (cond_json neg)
         /\ dict_get delta_key m = Some (JFloat delta).
Proof.
  intros H. apply permutations_Permutation, list_elem_of_In in H.
  vm_compute in H.
  repeat (destruct H as [<-|H]);
    [do 3 eexists; repeat split; reflexivity ..|destruct H].
Qed.

Lemma outcome_shape (seed : Z) (blind : bool) (lb la ln : string) :
  getitem (labels_of seed blind) "baseline" = Ok lb ->
  getitem (labels_of seed blind) "ablation" = Ok la ->
  getitem (labels_of seed blind) "negative_control" = Ok ln ->
  outcome seed blind
  = (base ← backtest Prereg_default (Random (seed + 1)) "baseline";
     ablt ← backtest Prereg_default (Random (seed + 2)) "ablation";
     neg ← backtest Prereg_default (Random (seed + 3)) "negative_control";
     Ok {| o_base := base; o_ablt := ablt; o_neg := neg;
           o_lb := lb; o_la := la; o_ln := ln |}).
Proof.
  intros Hb Ha Hn. unfold outcome. cbv zeta.
  destruct (backtest _ _ "baseline"); [|reflexivity].
  destruct (backtest _ _ "ablation"); [|reflexivity].
  destruct (backtest _ _ "negative_control"); [|reflexivity].
  rewrite !bind_Ok, Hb, Ha, Hn. reflexivity.
Qed.

Lemma written_blind_map (seed : Z) (reveal : bool) (o : Outcome)
    (e1 e2 e3 mf : json) :
  written "blind_map.json" (run_events seed true reveal o e1 e2 e3 mf)
  = [blind_map_obj seed (labels_of seed true)].
Proof. destruct reveal; reflexivity. Qed.

(** C8.  Blinding does not interfere.  For a generator whose shuffle of
    the three conditions is a permutation of them, the run with the blind
    flag and the run without it end alike (same status, or same fault);
    when they return, each condition has the same [final_equity],
    [sharpe] and [n_trades_approx] in both [results.json], under its name
    in one and under the label the blind map gives it in the other, and
    the Sharpe difference, the gates and [overall_pass] are the same. *)
Theorem blinding_noninterference (seed : Z) (reveal : bool) (w : world) :
  Permutation conditions (fst (shuffle (Random seed) conditions)) ->
  fst (runM (run_once seed false reveal) w)
  = fst (runM (run_once seed true reveal) w)
  /\ forall code w0,
       runM (run_once seed false reveal) w = (Ok code, w0) ->
       exists w1 o0 o1,
         runM (run_once seed true reveal) w = (Ok code, w1)
         /\ outcome seed false = Ok o0
         /\ outcome seed true = Ok o1
         /\ written "results.json" (new_events w w0) = [o_results seed false o0]
         /\ written "results.json" (new_events w w1) = [o_results seed true o1]
         /\ written "blind_map.json" (new_events w w1)
            = [blind_map_obj seed (labels_of seed true)]
         /\ dict_get "baseline" (labels_of seed true) = Some (o_lb o1)
         /\ dict_get "ablation" (labels_of seed true) = Some (o_la o1)
         /\ dict_get "negative_control" (labels_of seed true) = Some (o_ln o1)
         /\ let r0 := o_results seed false o0 in
            let r1 := o_results seed true o1 in
            metric r0 "baseline" = Some (cond_json (o_base o0))
            /\ metric r1 (o_lb o1) = Some (cond_json (o_base o0))
            /\ metric r0 "ablation" = Some (cond_json (o_ablt o0))
            /\ metric r1 (o_la o1) = Some (cond_json (o_ablt o0))
            /\ metric r0 "negative_control" = Some (cond_json (o_neg o0))
            /\ metric r1 (o_ln o1) = Some (cond_json (o_neg o0))
            /\ metric r1 delta_key = metric r0 delta_key
            /\ json_field r1 "gates" = json_field r0 "gates"
            /\ json_field r1 "overall_pass" = json_field r0 "overall_pass".
Proof.
  intros Hperm.
  destruct (blind_labels_perm _ Hperm) as (lb & la & ln & Hlb & Hla & Hln & Hm).
  assert (H0 := outcome_shape seed false "baseline" "ablation" "negative_control"
                  eq_refl eq_refl eq_refl).
  assert (H1 := outcome_shape seed true lb la ln Hlb Hla Hln).
  assert (Hst : o_status <$> outcome seed false = o_status <$> outcome seed true).
  { rewrite H0, H1.
    destruct (backtest _ _ "baseline"); [|reflexivity].
    destruct (backtest _ _ "ablation"); [|reflexivity].
    destruct (backtest _ _ "negative_control"); reflexivity. }
  split; [rewrite !run_once_status; exact Hst|].
  intros code w0 Hrun0.
  destruct (run_once_complete _ _ _ _ _ _ Hrun0)
    as (o0 & e1 & e2 & e3 & mf & Ho0 & Hc & Hev0).
  assert (Hrun1 : fst (runM (run_once seed true reveal) w) = Ok code)
    by (rewrite run_once_status, <- Hst, Ho0, Hc; reflexivity).
  apply run_pair in Hrun1.
  destruct (run_once_complete _ _ _ _ _ _ Hrun1)
    as (o1 & f1 & f2 & f3 & mf' & Ho1 & _ & Hev1).
  exists (snd (runM (run_once seed true reveal) w)), o0, o1.
  split; [exact Hrun1|]. split; [exact Ho0|]. split; [exact Ho1|].
  split; [rewrite Hev0; apply written_results|].
  split; [rewrite Hev1; apply written_results|].
  split; [rewrite Hev1; apply written_blind_map|].
  rewrite H0 in Ho0. rewrite H1 in Ho1.
  destruct (backtest _ _ "baseline") as [base|]; [|discriminate Ho0].
  destruct (backtest _ _ "ablation") as [ablt|]; [|discriminate Ho0].
  destruct (backtest _ _ "negative_control") as [neg|]; [|discriminate Ho0].
  rewrite !bind_Ok in Ho0, Ho1. injection Ho0 as <-. injection Ho1 as <-.
  cbn [o_lb o_la o_ln o_base o_ablt o_neg].
  unfold getitem in Hlb, Hla, Hln. unfold labels_of.
  destruct (dict_get "baseline" _) as [x|]; [|discriminate Hlb].
  destruct (dict_get "ablation" _) as [y|]; [|discriminate Hla].
  destruct (dict_get "negative_control" _) as [z|]; [|discriminate Hln].
  injection Hlb as ->. injection Hla as ->. injection Hln as ->.
  do 3 (split; [reflexivity|]).
  cbv zeta.
  destruct (Hm base ablt neg (F64.sub (cr_sharpe base) (cr_sharpe ablt)))
    as (Mb & Ma & Mn & Md).
  split; [reflexivity|]. split; [exact Mb|].
  split; [reflexivity|]. split; [exact Ma|].
  split; [reflexivity|]. split; [exact Mn|].
  split; [etransitivity; [exact Md|reflexivity]|].
  split; reflexivity.
Qed.
End Blinding.

(** ** The statements at work on the small library instance *)

Section AtWork.
#[local] Existing Instance toy_env.

(** On this instance no gate is passed by the baseline, whose signal never
    fires: the runs return [2]. *)
Lemma toy_status (seed : Z) (blind reveal : bool) (code : Z) :
  o_status <$> outcome seed blind = Ok code ->
  runM (run_once seed blind reveal) empty_world
  = (Ok code, snd (runM (run_once seed blind reveal) empty_world)).
Proof. intros H. apply run_pair. rewrite run_once_status. exact H. Qed.

Lemma negative_control_inert_witness :
  returns (fst (gen_prices (Random 10) (n_days Prereg_default))) = Ok (toy_rets 10)
  /\ forallb F64.finite (toy_rets 10) = true
  /\ z_okb (toy_rets 10) = true
  /\ backtest Prereg_default (Random 10) "negative_control" = Ok inert_result.
Proof.
  assert (H1 : returns (fst (gen_prices (Random 10) (n_days Prereg_default)))
               = Ok (toy_rets 10)) by (vm_compute; reflexivity).
  assert (H2 : forallb F64.finite (toy_rets 10) = true) by (vm_compute; reflexivity).
  assert (H3 : z_okb (toy_rets 10) = true) by (vm_compute; reflexivity).
  split; [exact H1|]. split; [exact H2|]. split; [exact H3|].
  destruct (negative_control_inert Prereg_default (Random 10) (toy_rets 10) H1)
    as (_ & _ & Hok & _).
  destruct (Hok H3) as [_ Hb]. exact (Hb H2).
Defined.

Lemma unknown_mode_inert_witness :
  "bogus" <> "baseline" /\ "bogus" <> "ablation" /\ "bogus" <> "negative_control"
  /\ backtest Prereg_default (Random 9) "bogus"
     = backtest Prereg_default (Random 9) "negative_control"
  /\ backtest Prereg_default (Random 9) "bogus" = Ok inert_result.
Proof.
  assert (Hb : "bogus" <> "baseline") by discriminate.
  assert (Ha : "bogus" <> "ablation") by discriminate.
  assert (Hn : "bogus" <> "negative_control") by discriminate.
  assert (H1 : returns (fst (gen_prices (Random 9) (n_days Prereg_default)))
               = Ok (toy_rets 9)) by (vm_compute; reflexivity).
  assert (H2 : forallb F64.finite (toy_rets 9) = true) by (vm_compute; reflexivity).
  assert (H3 : z_okb (toy_rets 9) = true) by (vm_compute; reflexivity).
  split; [exact Hb|]. split; [exact Ha|]. split; [exact Hn|].
  destruct (unknown_mode_inert Prereg_default (Random 9) "bogus" Hb Ha Hn)
    as [Heq Hin].
  split; [exact Heq|].
  destruct (Hin (toy_rets 9) H1) as [Hok _].
  destruct (Hok H3) as [_ Hfin]. exact (proj2 (Hfin H2)).
Defined.

Lemma gate_logic_witness :
  o_status <$> outcome 7 false = Ok 2
  /\ exists o,
       outcome 7 false = Ok o
       /\ (o_overall o = true <->
           F64.geb (cr_sharpe (o_base o)) (F64.lit 50 2) = true
           /\ F64.geb (F64.sub (cr_sharpe (o_base o)) (cr_sharpe (o_ablt o)))
                (F64.lit 30 2) = true
           /\ F64.leb (cr_sharpe (o_neg o)) (F64.lit 25 2) = true).
Proof.
  assert (H : o_status <$> outcome 7 false = Ok 2) by (vm_compute; reflexivity).
  split; [exact H|].
  destruct (gate_logic 7 false false empty_world _ 2 (toy_status 7 false false 2 H))
    as (o & Ho & _ & _ & _ & Hov).
  exists o. split; [exact Ho | exact Hov].
Defined.

Lemma exit_status_contract_witness :
  o_status <$> outcome 5 true = Ok 2
  /\ exists o, outcome 5 true = Ok o /\ 2 = (if o_overall o then 0 else 2).
Proof.
  assert (H : o_status <$> outcome 5 true = Ok 2) by (vm_compute; reflexivity).
  split; [exact H|].
  destruct (exit_status_contract 5 true true empty_world _ 2
              (toy_status 5 true true 2 H))
    as (o & Ho & _ & _ & Hc & _).
  exists o. split; [exact Ho | exact Hc].
Defined.

Lemma each_simulation_has_its_own_series_witness :
  o_status <$> outcome 11 false = Ok 2
  /\ simulations
       (new_events empty_world (snd (runM (run_once 11 false false) empty_world)))
     = [("baseline", 12); ("ablation", 13); ("negative_control", 14)].
Proof.
  assert (H : o_status <$> outcome 11 false = Ok 2) by (vm_compute; reflexivity).
  split; [exact H|].
  apply (each_simulation_has_its_own_series 11 false false empty_world _ 2
           (toy_status 11 false false 2 H)).
Defined.

(** C6 fails as stated: the run with seed 7 returns after calling its three
    simulations on the generators seeded 8, 9 and 10; each simulation
    consumes the returns of the price series of its own generator, and the
    three price series, and the three return series, are pairwise
    different. *)
Lemma price_series_not_shared :
  let prices s := fst (gen_prices (Random s) (n_days Prereg_default)) in
  fst (runM (run_once 7 false false) empty_world) = Ok 2
  /\ simulations
       (new_events empty_world (snd (runM (run_once 7 false false) empty_world)))
     = [("baseline", 8); ("ablation", 9); ("negative_control", 10)]
  /\ backtest Prereg_default (Random 8) "baseline"
     = (returns (prices 8) ≫= fun rets => backtest_rets Prereg_default rets "baseline")
  /\ backtest Prereg_default (Random 9) "ablation"
     = (returns (prices 9) ≫= fun rets => backtest_rets Prereg_default rets "ablation")
  /\ backtest Prereg_default (Random 10) "negative_control"
     = (returns (prices 10)
          ≫= fun rets => backtest_rets Prereg_default rets "negative_control")
  /\ prices 8 <> prices 9 /\ prices 9 <> prices 10 /\ prices 8 <> prices 10
  /\ returns (prices 8) <> returns (prices 9)
  /\ returns (prices 9) <> returns (prices 10)
  /\ returns (prices 8) <> returns (prices 10).
Proof.
  intros prices.
  assert (H : o_status <$> outcome 7 false = Ok 2) by (vm_compute; reflexivity).
  split; [rewrite run_once_status; exact H|].
  split.
  { destruct (run_once_complete _ _ _ _ _ _ (toy_status 7 false false 2 H))
      as (o & e1 & e2 & e3 & mf & _ & _ & Hev).
    rewrite Hev. apply simulations_run. }
  do 3 (split; [reflexivity|]).
  repeat split; intros E.
  1-3: apply (f_equal (fun l => l !! 1%nat)) in E; vm_compute in E; discriminate E.
  all: apply (f_equal (fun r => match r with Ok l => l !! 0%nat | Raise _ => None end)) in E;
    vm_compute in E; discriminate E.
Qed.

Lemma blinding_noninterference_witness :
  Permutation conditions (fst (shuffle (Random 7) conditions))
  /\ fst (runM (run_once 7 false true) empty_world)
     = fst (runM (run_once 7 true true) empty_world).
Proof.
  assert (E : fst (shuffle (Random 7) conditions)
              = ["ablation"; "negative_control"; "baseline"])
    by (vm_compute; reflexivity).
  assert (Hp : Permutation conditions (fst (shuffle (Random 7) conditions))).
  { rewrite E. apply (Permutation_cons_append ["ablation"; "negative_control"]). }
  split; [exact Hp|].
  apply (blinding_noninterference 7 true empty_world Hp).
Defined.

(** C9 fails as stated: on the series [1e200, -1e200] the squared
    deviations are out of range and [sharpe] raises [OverflowError], where
    the formula of the specification, computed in IEEE arithmetic, has the
    value [0.0]. *)
Lemma sharpe_raises_where_the_spec_returns :
  sharpe [huge; F64.neg huge] = Raise OverflowError
  /\ sharpe_spec ieee_square F64.sqrt [huge; F64.neg huge] = F64.zero.
Proof. split; vm_compute; reflexivity. Qed.
End AtWork.

(** The C library of the instances is a correctly rounded one. *)
Lemma ideal_libm_correctly_rounded : correctly_rounded ideal_libm.
Proof. intros m e. split; reflexivity. Qed.

(** C3 fails as stated: on a generator whose first draw is [1e200] the
    returns are finite, the squared deviations of the second window are
    out of range, and the negative control raises [OverflowError]; on one
    whose first draws are [1e308] and [-1.0] the prices overflow, the
    returns are an infinity and NaNs, and the summary is NaN, NaN and 250
    trades. *)
Lemma negative_control_not_inert_on_every_series :
  backtest (env := scripted_env [huge; F64.zero]) Prereg_default (Random 0)
    "negative_control"
  = Raise OverflowError
  /\ backtest (env := scripted_env [F64.of_Z (10 ^ 308); F64.of_Z (-1)])
       Prereg_default (Random 0) "negative_control"
     = Ok {| final_equity := S754_nan; cr_sharpe := S754_nan;
             n_trades_approx := 250 |}.
Proof. split; vm_compute; reflexivity. Qed.

(** C10 fails as stated: on the same generators a mode outside the three
    known ones raises [OverflowError], or returns NaN, NaN and 250
    trades. *)
Lemma unknown_mode_not_inert_on_every_series :
  backtest (env := scripted_env [huge; F64.zero]) Prereg_default (Random 0)
    "bogus"
  = Raise OverflowError
  /\ backtest (env := scripted_env [F64.of_Z (10 ^ 308); F64.of_Z (-1)])
       Prereg_default (Random 0) "bogus"
     = Ok {| final_equity := S754_nan; cr_sharpe := S754_nan;
             n_trades_approx := 250 |}.
Proof. split; vm_compute; reflexivity. Qed.

(** * Further properties of the statistics and of the simulator *)

Section PathsAndReturns.
Context {env : PyEnv}.

(** X1.  [gen_prices] returns [max(1, n)] prices, the first of them
    [100.0]; for [n <= 1] it makes no draw: the list is [[100.0]] and the
    generator is returned as it came. *)
Theorem gen_prices_edges (g : rng) (n : Z) :
  length (fst (gen_prices g n)) = Z.to_nat (Z.max 1 n)
  /\ fst (gen_prices g n) !! 0%nat = Some (F64.of_Z 100)
  /\ (n <= 1 -> gen_prices g n = ([F64.of_Z 100], g)).
Proof.
  split; [|split].
  - unfold gen_prices. rewrite gen_loop_length. simpl. lia.
  - unfold gen_prices. apply gen_loop_head.
  - intros Hn. unfold gen_prices.
    replace (Z.to_nat (n - 1)) with 0%nat by lia. reflexivity.
Qed.
End PathsAndReturns.

Section DayLoop.
Context {env : PyEnv}.

Lemma returns_step (p0 p1 : float) (rest : list float) :
  returns (p0 :: p1 :: rest)
  = (q ← F64.div p1 p0; rs ← returns (p1 :: rest); Ok (F64.sub q F64.one :: rs)).
Proof. reflexivity. Qed.

Lemma returns_length (prices rets : list float) :
  returns prices = Ok rets -> length rets = (length prices - 1)%nat.
Proof.
  revert rets. induction prices as [|p0 rest IH]; intros rets H.
  - inversion H. reflexivity.
  - destruct rest as [|p1 rest'].
    + inversion H. reflexivity.
    + rewrite returns_step in H.
      destruct (F64.div p1 p0) as [q|e];
        [rewrite bind_Ok in H|rewrite bind_Raise in H; discriminate H].
      destruct (returns (p1 :: rest')) as [rs|e] eqn:Hrs;
        [rewrite bind_Ok in H|rewrite bind_Raise in H; discriminate H].
      inversion H; subst.
      specialize (IH rs eq_refl). simpl in *. lia.
Qed.

Lemma returns_faults (prices : list float) (e : exn) :
  returns prices = Raise e -> e = ZeroDivisionError.
Proof.
  induction prices as [|p0 rest IH]; intros H; [discriminate H|].
  destruct rest as [|p1 rest']; [discriminate H|].
  rewrite returns_step in H.
  destruct (F64.div p1 p0) as [q|e1] eqn:Hq;
    [rewrite bind_Ok in H
    |rewrite bind_Raise in H; inversion H; subst; eapply div_Raise; eassumption].
  destruct (returns (p1 :: rest')) as [rs|e1];
    [rewrite bind_Ok in H; discriminate H|].
  rewrite bind_Raise in H. inversion H; subst. apply IH. reflexivity.
Qed.

(** X2.  [returns] yields one return less than there are prices (none for
    an empty or one-price list); it faults exactly when a price other than
    the last is a zero, and then with [ZeroDivisionError]. *)
Theorem returns_length_and_faults (prices : list float) :
  (forall rets, returns prices = Ok rets ->
     length rets = (length prices - 1)%nat)
  /\ (forall e, returns prices = Raise e -> e = ZeroDivisionError)
  /\ (is_ok (returns prices) = true
      <-> Forall (fun p => F64.is_zero p = false)
            (take (length prices - 1) prices)).
Proof.
  split; [intros rets; apply returns_length|].
  induction prices as [|p0 rest IH].
  - split; [intros e H; discriminate H|]. split; [constructor|reflexivity].
  - destruct rest as [|p1 rest'].
    + split; [intros e H; discriminate H|]. split; [constructor|reflexivity].
    + destruct IH as [IHe IHok].
      replace (take (length (p0 :: p1 :: rest') - 1) (p0 :: p1 :: rest'))
        with (p0 :: take (length (p1 :: rest') - 1) (p1 :: rest'))
        by (simpl; rewrite Nat.sub_0_r; reflexivity).
      rewrite returns_step. unfold F64.div.
      destruct (F64.is_zero p0) eqn:Hz.
      * split; [intros e H; inversion H; reflexivity|].
        split; [discriminate|].
        intros H. inversion H; subst. congruence.
      * rewrite bind_Ok.
        destruct (returns (p1 :: rest')) as [rs|e] eqn:Hrs.
        -- split; [intros e H; discriminate H|].
           split; [intros _|reflexivity].
           constructor; [exact Hz|]. apply IHok. reflexivity.
        -- split; [intros e' H; inversion H; subst; apply IHe; reflexivity|].
           split; [discriminate|].
           intros H. inversion H; subst.
           apply IHok in H3. discriminate H3.
Qed.

Lemma count_changes_bounds (pnl : list float) :
  0 <= count_changes pnl <= Z.max 0 (len pnl - 1).
Proof.
  unfold len. induction pnl as [|x rest IH]; [simpl; lia|].
  destruct rest as [|y rest']; [simpl; lia|].
  change (count_changes (x :: y :: rest'))
    with ((if F64.neqb y x then 1 else 0) + count_changes (y :: rest')).
  simpl length in *. destruct (F64.neqb y x); lia.
Qed.

Lemma day_step_shape (pr : Prereg) (mode : string) (rets pnl pnl' : list float)
    (i : nat) (pos pos' : Z) :
  day_step pr mode rets (pos, pnl) i = Ok (pos', pnl') ->
  (pos = -1 \/ pos = 0 \/ pos = 1) ->
  (pos' = -1 \/ pos' = 0 \/ pos' = 1)
  /\ exists x, pnl' = pnl ++ [x].
Proof.
  unfold day_step. intros H Hpos.
  destruct (index rets i) as [r|e];
    [rewrite bind_Ok in H|rewrite bind_Raise in H; discriminate H].
  destruct (rolling_z rets i r) as [z|e];
    [rewrite bind_Ok in H|rewrite bind_Raise in H; discriminate H].
  inversion H; subst. split; [|eauto].
  unfold next_pos.
  destruct (String.eqb mode "baseline").
  - destruct (F64.gtb _ _); [lia|]. destruct (F64.ltb _ _); lia.
  - destruct (String.eqb mode "ablation"); [lia|].
    destruct (String.eqb mode "negative_control"); [lia|exact Hpos].
Qed.

Lemma run_days_shape (pr : Prereg) (mode : string) (rets : list float)
    (days : list nat) :
  forall (pos pos' : Z) (pnl pnl' : list float),
    run_days pr mode rets days (pos, pnl) = Ok (pos', pnl') ->
    (pos = -1 \/ pos = 0 \/ pos = 1) ->
    (pos' = -1 \/ pos' = 0 \/ pos' = 1)
    /\ length pnl' = (length pnl + length days)%nat.
Proof.
  induction days as [|i days IH]; intros pos pos' pnl pnl' H Hpos.
  - inversion H; subst. split; [exact Hpos|simpl; lia].
  - cbn [run_days] in H.
    destruct (day_step pr mode rets (pos, pnl) i) as [[p1 pnl1]|e] eqn:Hstep;
      [rewrite bind_Ok in H|rewrite bind_Raise in H; discriminate H].
    destruct (day_step_shape _ _ _ _ _ _ _ _ Hstep Hpos) as [Hp1 [x ->]].
    destruct (IH _ _ _ _ H Hp1) as [Hp' Hlen].
    split; [exact Hp'|]. rewrite Hlen, length_app. simpl. lia.
Qed.

(** X4.  Whatever the mode, the position is [-1], [0] or [1] after every
    day of the loop, and the P&L list holds one entry per day run. *)
Theorem position_stays_in_range (pr : Prereg) (mode : string)
    (rets pnl : list float) (k : nat) (pos : Z) :
  run_days pr mode rets (seq 0 k) (0, []) = Ok (pos, pnl) ->
  (pos = -1 \/ pos = 0 \/ pos = 1) /\ length pnl = k.
Proof.
  intros H.
  destruct (run_days_shape _ _ _ _ _ _ _ _ H (or_intror (or_introl eq_refl)))
    as [Hp Hl].
  split; [exact Hp|]. rewrite Hl, length_seq. reflexivity.
Qed.

Lemma day_step_ablation (pr : Prereg) (rets pnl : list float) (i : nat)
    (r z : float) (pos : Z) :
  rets !! i = Some r -> rolling_z rets i r = Ok z ->
  day_step pr "ablation" rets (pos, pnl) i
  = Ok (1, pnl ++ [pnl_entry pr 1 (negb (1 =? pos)) r]).
Proof.
  intros Hr Hz. unfold day_step, index. rewrite Hr, bind_Ok, Hz, bind_Ok.
  reflexivity.
Qed.

Lemma run_days_ablation_held (pr : Prereg) (rets : list float) :
  z_okb rets = true ->
  forall (n k : nat) (pnl : list float),
    (k + n <= length rets)%nat ->
    run_days pr "ablation" rets (seq k n) (1, pnl)
    = Ok (1, pnl ++ map (pnl_entry pr 1 false) (take n (drop k rets))).
Proof.
  intros Hok. induction n as [|n IH]; intros k pnl Hk; cbn [seq run_days].
  - simpl. rewrite app_nil_r. reflexivity.
  - destruct (rets !! k) as [r|] eqn:Hr;
      [|apply lookup_ge_None in Hr; lia].
    destruct (z_okb_day rets k r Hok Hr) as [z Hz].
    rewrite (day_step_ablation pr rets pnl k r z 1 Hr Hz), bind_Ok.
    rewrite IH by lia.
    rewrite (drop_S rets r k Hr). simpl. rewrite <- app_assoc. reflexivity.
Qed.

(** X5.  The ablation goes long on day 0 and stays long: the full cost is
    charged on day 0 and on no later day, the entry of a later day being
    [1 * r - 0.0]. *)
Theorem ablation_trades_once (pr : Prereg) (r0 : float) (rest : list float) :
  z_okb (r0 :: rest) = true ->
  run_days pr "ablation" (r0 :: rest) (seq 0 (length (r0 :: rest))) (0, [])
  = Ok (1, pnl_entry pr 1 true r0 :: map (pnl_entry pr 1 false) rest).
Proof.
  intros Hok. cbn [length seq run_days].
  destruct (z_okb_day (r0 :: rest) 0 r0 Hok eq_refl) as [z Hz].
  rewrite (day_step_ablation pr (r0 :: rest) [] 0 r0 z 0 eq_refl Hz), bind_Ok.
  rewrite app_nil_l.
  rewrite (run_days_ablation_held pr (r0 :: rest) Hok (length rest) 1
             [pnl_entry pr 1 (negb (1 =? 0)) r0]) by (simpl; lia).
  simpl drop. rewrite firstn_all. reflexivity.
Qed.

End DayLoop.

Lemma position_stays_in_range_witness :
  run_days (env := toy_env) Prereg_default "ablation"
    [F64.lit 1 2; F64.lit (-2) 2] (seq 0 2) (0, [])
  = Ok (1, [F64.sub (F64.lit 1 2) (F64.lit 3 4); F64.lit (-2) 2])
  /\ ((1 = -1 \/ 1 = 0 \/ 1 = 1) /\ length [F64.sub (F64.lit 1 2) (F64.lit 3 4); F64.lit (-2) 2] = 2%nat).
Proof.
  assert (H : run_days (env := toy_env) Prereg_default "ablation"
                [F64.lit 1 2; F64.lit (-2) 2] (seq 0 2) (0, [])
              = Ok (1, [F64.sub (F64.lit 1 2) (F64.lit 3 4); F64.lit (-2) 2]))
    by (vm_compute; reflexivity).
  split; [exact H|].
  apply (position_stays_in_range (env := toy_env) _ _ _ _ _ _ H).
Defined.

Lemma ablation_trades_once_witness :
  z_okb (env := toy_env) [F64.lit 1 2; F64.lit (-2) 2] = true
  /\ run_days (env := toy_env) Prereg_default "ablation"
       [F64.lit 1 2; F64.lit (-2) 2] (seq 0 2) (0, [])
     = Ok (1, [pnl_entry Prereg_default 1 true (F64.lit 1 2);
               pnl_entry Prereg_default 1 false (F64.lit (-2) 2)]).
Proof.
  assert (H : z_okb (env := toy_env) [F64.lit 1 2; F64.lit (-2) 2] = true)
    by (vm_compute; reflexivity).
  split; [exact H|].
  exact (ablation_trades_once (env := toy_env) Prereg_default (F64.lit 1 2)
           [F64.lit (-2) 2] H).
Defined.

Section BacktestEdges.
Context {env : PyEnv}.

(** X3.  The approximate trade count [backtest] reports lies between [0]
    and [n_days - 2]: it counts the changes between successive P&L
    entries, and a run over [n_days] prices has [n_days - 1] entries. *)
Theorem trade_count_bounds (pr : Prereg) (g : rng) (mode : string)
    (c : ConditionResult) :
  backtest pr g mode = Ok c ->
  0 <= n_trades_approx c <= Z.max 0 (n_days pr - 2).
Proof.
  unfold backtest. intros H.
  destruct (returns _) as [rets|e] eqn:Hrets;
    [rewrite bind_Ok in H|rewrite bind_Raise in H; discriminate H].
  apply returns_length in Hrets.
  unfold gen_prices in Hrets. rewrite gen_loop_length in Hrets.
  simpl length in Hrets.
  unfold backtest_rets in H.
  destruct (run_days _ _ _ _ _) as [[pos pnl]|e] eqn:Hrun;
    [rewrite bind_Ok in H|rewrite bind_Raise in H; discriminate H].
  destruct (run_days_shape _ _ _ _ _ _ _ _ Hrun (or_intror (or_introl eq_refl)))
    as [_ Hlen].
  rewrite length_seq in Hlen. simpl in Hlen.
  destruct (sharpe pnl) as [s|e];
    [rewrite bind_Ok in H|rewrite bind_Raise in H; discriminate H].
  inversion H; subst. cbn [n_trades_approx].
  assert (Hb := count_changes_bounds pnl). unfold len in Hb. lia.
Qed.

Lemma backtest_raises (pr : Prereg) (g : rng) (mode : string) (e : exn) :
  backtest pr g mode = Raise e ->
  e = ZeroDivisionError \/ e = OverflowError.
Proof.
  unfold backtest. intros H.
  destruct (returns _) as [rets|e'] eqn:Hrets.
  - rewrite bind_Ok in H. unfold backtest_rets in H.
    destruct (run_days _ _ _ _ _) as [[pos pnl]|e'] eqn:Hrun.
    + rewrite bind_Ok in H.
      destruct (sharpe pnl) as [s|e'] eqn:Hs;
        [rewrite bind_Ok in H; discriminate H|].
      rewrite bind_Raise in H. inversion H; subst.
      right. eapply sharpe_faults; eassumption.
    + rewrite bind_Raise in H. inversion H; subst.
      eapply run_days_faults; [apply seq_below|eassumption].
  - rewrite bind_Raise in H. inversion H; subst. left.
    eapply returns_faults; eassumption.
Qed.

(** X6.  [backtest] raises nothing but [ZeroDivisionError] (a division by
    a zero, as by a zero price) and [OverflowError] (a
    squared deviation out of range): no day indexes the returns out of
    range, and no root is taken of a negative variance. *)
Theorem backtest_faults (pr : Prereg) (g : rng) (mode : string) (e : exn) :
  backtest pr g mode = Raise e ->
  e = ZeroDivisionError \/ e = OverflowError.
Proof. apply backtest_raises. Qed.

(** X7.  With [n_days <= 1] there is one price and no return: [backtest]
    runs no day and reports a final equity of [1.0], a Sharpe ratio of
    [0.0] and no trade, in every mode. *)
Theorem backtest_without_days (pr : Prereg) (g : rng) (mode : string) :
  n_days pr <= 1 -> backtest pr g mode = Ok inert_result.
Proof.
  intros Hn. unfold backtest, gen_prices.
  replace (Z.to_nat (n_days pr - 1)) with 0%nat by lia. reflexivity.
Qed.
End BacktestEdges.

Lemma trade_count_bounds_witness :
  backtest (env := toy_env) (Prereg_days 3) (Random 1) "ablation"
  = Ok (toy_backtest 3 1 "ablation")
  /\ 0 <= n_trades_approx (toy_backtest 3 1 "ablation") <= Z.max 0 (3 - 2).
Proof.
  assert (H : backtest (env := toy_env) (Prereg_days 3) (Random 1) "ablation"
              = Ok (toy_backtest 3 1 "ablation")) by (vm_compute; reflexivity).
  split; [exact H|].
  exact (trade_count_bounds (env := toy_env) (Prereg_days 3) (Random 1)
           "ablation" _ H).
Defined.

Lemma backtest_faults_witness :
  backtest (env := crash_env) (Prereg_days 3) tt "baseline"
  = Raise ZeroDivisionError
  /\ (ZeroDivisionError = ZeroDivisionError \/ ZeroDivisionError = OverflowError).
Proof.
  assert (H : backtest (env := crash_env) (Prereg_days 3) tt "baseline"
              = Raise ZeroDivisionError) by (vm_compute; reflexivity).
  split; [exact H|].
  exact (backtest_faults (env := crash_env) (Prereg_days 3) tt "baseline" _ H).
Defined.

Lemma backtest_without_days_witness :
  n_days (Prereg_days 1) <= 1
  /\ backtest (env := toy_env) (Prereg_days 1) (Random 5) "baseline"
     = Ok inert_result.
Proof.
  assert (H : n_days (Prereg_days 1) <= 1) by (simpl; lia).
  split; [exact H|].
  exact (backtest_without_days (env := toy_env) (Prereg_days 1) (Random 5)
           "baseline" H).
Defined.

(** * Identifiers and canonical texts *)

Lemma string_length_app (a b : string) :
  String.length (a ++ b)%string = (String.length a + String.length b)%nat.
Proof.
  induction a as [|c a IH]; [reflexivity|].
  change (S (String.length (a ++ b)%string)
          = S (String.length a + String.length b)).
  rewrite IH. reflexivity.
Qed.

Lemma all_chars_app (p : ascii -> bool) (a b : string) :
  all_chars p (a ++ b)%string = all_chars p a && all_chars p b.
Proof.
  induction a as [|c a IH]; [reflexivity|].
  change (p c && all_chars p (a ++ b)%string
          = p c && all_chars p a && all_chars p b).
  rewrite IH, andb_assoc. reflexivity.
Qed.

Lemma prefix_length (s : string) (n : nat) :
  (n <= String.length s)%nat -> String.length (substring 0 n s) = n.
Proof.
  revert n. induction s as [|c s IH]; intros [|n] H; simpl in *;
    try reflexivity; try lia.
  rewrite IH by lia. reflexivity.
Qed.

Lemma prefix_all_chars (p : ascii -> bool) (s : string) (n : nat) :
  all_chars p s = true -> all_chars p (substring 0 n s) = true.
Proof.
  revert n. induction s as [|c s IH]; intros [|n] H; simpl in *;
    try reflexivity.
  apply andb_true_iff in H. destruct H as [Hc Hs].
  rewrite Hc, (IH n Hs). reflexivity.
Qed.

Lemma hex_digit_is_hex (n : Z) : is_hex_digit (hex_digit n) = true.
Proof.
  destruct n as [|p|p]; try reflexivity.
  do 4 (destruct p as [p|p|]; try reflexivity).
Qed.

Lemma hex_word_shape (w : Z) :
  String.length (SHA256.hex_word w) = 8%nat
  /\ all_chars is_hex_digit (SHA256.hex_word w) = true.
Proof.
  split; [reflexivity|].
  unfold SHA256.hex_word. cbn [seq fold_right all_chars].
  rewrite !hex_digit_is_hex. reflexivity.
Qed.

Lemma round_length (st : list Z) (kw : Z * Z) :
  length (SHA256.round st kw) = length st.
Proof.
  destruct st as [|a [|b [|c [|d [|e [|f [|g [|h [|i t]]]]]]]]]; reflexivity.
Qed.

Lemma rounds_length (kws : list (Z * Z)) (st : list Z) :
  length (fold_left SHA256.round kws st) = length st.
Proof.
  revert st. induction kws as [|kw kws IH]; intros st; [reflexivity|].
  simpl fold_left. rewrite IH. apply round_length.
Qed.

Lemma compress_length (h block : list Z) :
  length (SHA256.compress h block) = length h.
Proof.
  unfold SHA256.compress.
  rewrite length_map, length_combine, rounds_length. lia.
Qed.

Lemma digest_length (msg : list Z) : length (SHA256.digest msg) = 8%nat.
Proof.
  unfold SHA256.digest.
  generalize (SHA256.blocks (length (SHA256.words (SHA256.pad msg)))
                (SHA256.words (SHA256.pad msg))).
  assert (H : length SHA256.H0 = 8%nat) by reflexivity.
  revert H. generalize SHA256.H0.
  intros h Hh bs. revert h Hh.
  induction bs as [|b bs IH]; intros h Hh; [exact Hh|].
  simpl fold_left. apply IH. rewrite compress_length. exact Hh.
Qed.

Lemma hex_words_shape (ws : list Z) :
  let s := fold_right (fun w s => (SHA256.hex_word w ++ s)%string) EmptyString ws in
  String.length s = (8 * length ws)%nat /\ all_chars is_hex_digit s = true.
Proof.
  induction ws as [|w ws [IHl IHc]]; [split; reflexivity|].
  cbn [fold_right]. cbv zeta.
  destruct (hex_word_shape w) as [Hl Hc].
  rewrite string_length_app, all_chars_app, Hl, Hc, IHl, IHc.
  split; [simpl length; lia|reflexivity].
Qed.

Lemma sha256_hex_shape (m : list Z) :
  String.length (sha256_hex m) = 64%nat
  /\ all_chars is_hex_digit (sha256_hex m) = true.
Proof.
  unfold sha256_hex, SHA256.hexdigest.
  destruct (hex_words_shape (SHA256.digest m)) as [Hl Hc].
  rewrite digest_length in Hl. split; [exact Hl|exact Hc].
Qed.


(** X8.  [sha256_hex] returns 64 lowercase hexadecimal digits for every
    input, so the [AEQ] and the [CID] of every seed, its first 12
    characters, are 12 such digits. *)
Theorem identifiers_are_12_hex_digits (b : list Z) (seed : Z) :
  String.length (sha256_hex b) = 64%nat
  /\ all_chars is_hex_digit (sha256_hex b) = true
  /\ String.length (prereg_aeq seed) = 12%nat
  /\ all_chars is_hex_digit (prereg_aeq seed) = true
  /\ String.length (prereg_cid seed) = 12%nat
  /\ all_chars is_hex_digit (prereg_cid seed) = true.
Proof.
  assert (H := sha256_hex_shape).
  destruct (H b) as [Hl Hc]. split; [exact Hl|]. split; [exact Hc|].
  unfold prereg_aeq, prereg_cid.
  repeat split;
    first [apply prefix_length; match goal with |- context [sha256_hex ?m] =>
                                  destruct (H m) as [-> _] end; lia
          |apply prefix_all_chars, H].
Qed.



(** ** Canonical texts do not depend on the insertion order of the keys *)

Lemma string_compare_trans (s1 s2 s3 : string) :
  String.compare s1 s2 <> Gt -> String.compare s2 s3 <> Gt ->
  String.compare s1 s3 <> Gt.
Proof.
  revert s2 s3. induction s1 as [|a s1 IH]; intros [|b s2] [|c s3];
    simpl; try congruence.
  unfold Ascii.compare.
  destruct (N.compare_spec (N_of_ascii a) (N_of_ascii b)) as [E1|L1|G1];
    destruct (N.compare_spec (N_of_ascii b) (N_of_ascii c)) as [E2|L2|G2];
    destruct (N.compare_spec (N_of_ascii a) (N_of_ascii c)) as [E3|L3|G3];
    try congruence; try lia.
  apply IH.
Qed.

Lemma string_leb_trans (s1 s2 s3 : string) :
  String.leb s1 s2 = true -> String.leb s2 s3 = true -> String.leb s1 s3 = true.
Proof.
  unfold String.leb. intros H12 H23.
  assert (H := string_compare_trans s1 s2 s3).
  destruct (String.compare s1 s2); try discriminate;
    destruct (String.compare s2 s3); try discriminate;
    destruct (String.compare s1 s3); try reflexivity;
    exfalso; apply H; congruence.
Qed.

Section SortFields.
Implicit Types (kv : string * string) (l : list (string * string)).

Lemma key_le_trans : Transitive key_le.
Proof. intros x y z. apply string_leb_trans. Qed.

#[local] Existing Instance key_le_trans.

Lemma insert_field_perm kv l : insert_field kv l ≡ₚ kv :: l.
Proof.
  induction l as [|kv' l IH]; [reflexivity|]. simpl.
  destruct (String.leb (fst kv) (fst kv')); [reflexivity|].
  rewrite IH. apply perm_swap.
Qed.

Lemma sort_fields_perm l : sort_fields l ≡ₚ l.
Proof.
  induction l as [|kv l IH]; [reflexivity|].
  unfold sort_fields in *. simpl. rewrite insert_field_perm, IH. reflexivity.
Qed.

Lemma insert_field_sorted kv l :
  Sorted key_le l -> Sorted key_le (insert_field kv l).
Proof.
  induction 1 as [|kv' l Hl IH Hhd]; simpl; [repeat constructor|].
  destruct (String.leb (fst kv) (fst kv')) eqn:Hle.
  - constructor; [constructor; assumption|]. constructor. exact Hle.
  - constructor; [exact IH|].
    assert (Hge : key_le kv' kv).
    { unfold key_le. destruct (String.leb_total (fst kv) (fst kv')); congruence. }
    destruct Hhd as [|kv'' l' Hk]; simpl.
    + constructor. exact Hge.
    + destruct (String.leb (fst kv) (fst kv'')); constructor; assumption.
Qed.

Lemma sort_fields_sorted l : Sorted key_le (sort_fields l).
Proof.
  induction l as [|kv l IH]; [constructor|].
  apply insert_field_sorted, IH.
Qed.

Lemma same_key_same_field l kv kv' :
  NoDup (map fst l) -> kv ∈ l -> kv' ∈ l -> fst kv = fst kv' -> kv = kv'.
Proof.
  induction l as [|x l IH]; intros Hnd H1 H2 Hk; [inversion H1|].
  simpl in Hnd. apply NoDup_cons in Hnd. destruct Hnd as [Hx Hnd].
  apply elem_of_cons in H1, H2.
  destruct H1 as [->|H1], H2 as [->|H2]; [reflexivity| | |auto].
  - exfalso. apply Hx. rewrite Hk.
    apply (list_elem_of_fmap_2 fst l kv'), H2.
  - exfalso. apply Hx. rewrite <- Hk.
    apply (list_elem_of_fmap_2 fst l kv), H1.
Qed.

Lemma sort_fields_order l l' :
  NoDup (map fst l) -> l ≡ₚ l' -> sort_fields l = sort_fields l'.
Proof.
  intros Hnd Hp.
  apply (Sorted_unique_strong key_le); try apply sort_fields_sorted.
  - intros x1 x2 H1 H2 H12 H21.
    rewrite sort_fields_perm in H1. rewrite sort_fields_perm, <- Hp in H2.
    apply (same_key_same_field l); try assumption.
    apply String.leb_antisym; assumption.
  - rewrite !sort_fields_perm. exact Hp.
Qed.
End SortFields.

(** X10.  [canon] sorts the keys of an object: two dicts with the same
    entries, inserted in any order, have the same canonical text (and
    hence the same hash). *)
Theorem canon_ignores_insertion_order (fields fields' : list (string * json)) :
  NoDup (map fst fields) -> fields ≡ₚ fields' ->
  canon (JObj fields) = canon (JObj fields').
Proof.
  intros Hnd Hp.
  change (canon (JObj fields))
    with ("{" ++ join ","
                   (map (fun kv => quote (fst kv) ++ ":" ++ snd kv)
                      (sort_fields
                         (map (fun kv => (fst kv, canon (snd kv))) fields)))
              ++ "}")%string.
  change (canon (JObj fields'))
    with ("{" ++ join ","
                   (map (fun kv => quote (fst kv) ++ ":" ++ snd kv)
                      (sort_fields
                         (map (fun kv => (fst kv, canon (snd kv))) fields')))
              ++ "}")%string.
  rewrite (sort_fields_order _ (map (fun kv => (fst kv, canon (snd kv))) fields')).
  - reflexivity.
  - rewrite map_map. simpl. exact Hnd.
  - apply Permutation_map, Hp.
Qed.

Lemma canon_ignores_insertion_order_witness :
  canon (JObj [("seed", JInt 7); ("blind", JBool true)]%string)
  = canon (JObj [("blind", JBool true); ("seed", JInt 7)]%string).
Proof.
  apply canon_ignores_insertion_order; [|apply perm_swap].
  simpl. apply NoDup_cons. split; [|apply NoDup_singleton].
  intros H. apply list_elem_of_singleton in H. discriminate H.
Defined.

(** * The ledger holds one entry per line *)

Lemma one_line_app (a b : string) :
  one_line (a ++ b)%string = one_line a && one_line b.
Proof. apply all_chars_app. Qed.

Lemma one_line_substring (s : string) (n m : nat) :
  one_line s = true -> one_line (substring n m s) = true.
Proof.
  unfold one_line. revert n m.
  induction s as [|c s IH]; intros [|n] [|m] H; simpl in *; try reflexivity;
    apply andb_true_iff in H; destruct H as [Hc Hs].
  - rewrite Hc. apply (IH 0%nat m Hs).
  - apply (IH n 0%nat Hs).
  - apply (IH n (S m) Hs).
Qed.

Lemma one_line_uint (d : Decimal.uint) :
  one_line (NilEmpty.string_of_uint d) = true.
Proof. induction d; simpl; auto. Qed.

Lemma one_line_str_int (z : Z) : one_line (str_int z) = true.
Proof.
  unfold str_int, NilZero.string_of_int, NilZero.string_of_uint.
  destruct (Z.to_int z) as [d|d]; destruct d; try reflexivity;
    first [apply one_line_uint
          |change (one_line (String "-" ?s)) with (one_line s);
           apply one_line_uint].
Qed.

Lemma one_line_zeros (n : nat) : one_line (zeros n) = true.
Proof. induction n as [|n IH]; [reflexivity|exact IH]. Qed.

Ltac one_line_pieces :=
  repeat first
    [reflexivity
    |apply one_line_str_int
    |apply one_line_zeros
    |apply one_line_substring
    |rewrite one_line_app; apply andb_true_iff; split].

Lemma one_line_float_repr (x : float) : one_line (Repr.float_repr x) = true.
Proof.
  destruct x as [s|s| |s m e]; try reflexivity; try (destruct s; reflexivity).
  unfold Repr.float_repr. rewrite one_line_app.
  apply andb_true_iff. split; [destruct s; reflexivity|].
  unfold Repr.positive_text, Repr.digits.
  destruct (Repr.shortest _ _ _ _ _) as [c k].
  destruct (Repr.strip_zeros c k 20) as [c' k'].
  assert (Hds := one_line_str_int c').
  destruct (_ || _).
  - destruct (str_int c') as [|d rest]; [reflexivity|].
    change (one_line (String d rest)) with
      (negb (Ascii.eqb d (ascii_of_nat 10)) && one_line rest) in Hds.
    apply andb_true_iff in Hds. destruct Hds as [Hd Hrest].
    assert (HM : one_line (match rest with
                           | EmptyString => rest
                           | String _ _ => "." ++ rest
                           end)%string = true)
      by (destruct rest; [reflexivity|exact Hrest]).
    match goal with |- one_line (String d ?t ++ ?u)%string = true =>
      change (negb (Ascii.eqb d (ascii_of_nat 10)) && one_line (t ++ u)%string
              = true)
    end.
    rewrite Hd, !one_line_app, HM. cbn [andb]. unfold Repr.exponent_text.
    rewrite !one_line_app, one_line_str_int.
    destruct (_ <? 0)%Z, (_ <? 10)%Z; reflexivity.
  - destruct (_ <=? _)%Z; [|destruct (_ <=? _)%Z];
      rewrite ?one_line_app; repeat (apply andb_true_iff; split);
      rewrite ?one_line_app; repeat (apply andb_true_iff; split);
      try assumption; try reflexivity; try apply one_line_zeros;
      try (apply one_line_substring; assumption).
Qed.

Lemma one_line_json_float (x : float) : one_line (json_float x) = true.
Proof.
  destruct x as [s|s| |s m e]; try reflexivity; try (destruct s; reflexivity);
    apply one_line_float_repr.
Qed.

Lemma one_line_escape_char (c : ascii) : one_line (escape_char c) = true.
Proof.
  unfold escape_char.
  repeat match goal with
         | |- context [if ?b then _ else _] =>
             let E := fresh "E" in destruct b eqn:E; [reflexivity|]
         end.
  - destruct (_ <? 32)%Z.
    + change (one_line (String (hex_digit (code c / 16))
                          (String (hex_digit (code c mod 16)) EmptyString)) = true).
      unfold one_line. cbn [all_chars].
      assert (H : forall n, negb (Ascii.eqb (hex_digit n) (ascii_of_nat 10)) = true).
      { intros n. destruct n as [|p|p]; try reflexivity.
        do 4 (destruct p as [p|p|]; try reflexivity). }
      rewrite !H. reflexivity.
    + unfold one_line. cbn [all_chars]. rewrite andb_true_r.
      apply negb_true_iff, Ascii.eqb_neq. intros ->.
      discriminate E1.
Qed.

Lemma one_line_escape (s : string) : one_line (escape s) = true.
Proof.
  induction s as [|c s IH]; [reflexivity|].
  cbn [escape]. rewrite one_line_app, one_line_escape_char, IH. reflexivity.
Qed.

Lemma one_line_quote (s : string) : one_line (quote s) = true.
Proof.
  unfold quote. rewrite !one_line_app, one_line_escape. reflexivity.
Qed.

Lemma one_line_join (sep : string) (xs : list string) :
  one_line sep = true -> Forall (fun x => one_line x = true) xs ->
  one_line (join sep xs) = true.
Proof.
  intros Hsep. induction 1 as [|x xs Hx Hxs IH]; [reflexivity|].
  destruct xs as [|y ys]; [exact Hx|].
  change (join sep (x :: y :: ys)) with (x ++ sep ++ join sep (y :: ys))%string.
  rewrite !one_line_app, Hx, Hsep, IH. reflexivity.
Qed.

Lemma one_line_fields (l : list (string * string)) :
  Forall (fun kv => one_line (snd kv) = true) l ->
  one_line (join ","
              (map (fun kv => quote (fst kv) ++ ":" ++ snd kv)%string
                 (sort_fields l))) = true.
Proof.
  intros H. apply one_line_join; [reflexivity|].
  rewrite <- (sort_fields_perm l) in H.
  apply Forall_fmap. eapply Forall_impl; [exact H|].
  intros kv Hkv. unfold compose. cbn beta in *.
  rewrite !one_line_app, one_line_quote, Hkv. reflexivity.
Qed.

Lemma canon_one_line (j : json) : one_line (canon j) = true.
Proof.
  revert j. fix IH 1. intros [|b|z|x|s|items|fields].
  - reflexivity.
  - destruct b; reflexivity.
  - apply one_line_str_int.
  - apply one_line_json_float.
  - apply one_line_quote.
  - change (canon (JList items))
      with ("[" ++ join "," (map canon items) ++ "]")%string.
    rewrite !one_line_app. rewrite one_line_join; [reflexivity..|].
    clear -IH. revert items. fix IHl 1. intros [|j items].
    + constructor.
    + constructor; [apply IH|apply IHl].
  - change (canon (JObj fields))
      with ("{" ++ join ","
                     (map (fun kv => quote (fst kv) ++ ":" ++ snd kv)
                        (sort_fields
                           (map (fun kv => (fst kv, canon (snd kv))) fields)))
                ++ "}")%string.
    rewrite !one_line_app. rewrite one_line_fields; [reflexivity|].
    clear -IH. revert fields. fix IHl 1. intros [|[k j] fields].
    + constructor.
    + constructor; [apply IH|apply IHl].
Qed.

Lemma dict_get_set {V} (k k' : string) (v : V) (d : list (string * V)) :
  dict_get k (dict_set k' v d)
  = if String.eqb k' k then Some v else dict_get k d.
Proof.
  induction d as [|[k2 v2] d IH]; simpl.
  - destruct (String.eqb k' k); reflexivity.
  - destruct (String.eqb k2 k') eqn:E2; simpl.
    + apply String.eqb_eq in E2. subst k2.
      destruct (String.eqb k' k); reflexivity.
    + rewrite IH. destruct (String.eqb k2 k) eqn:E; [|reflexivity].
      apply String.eqb_eq in E. subst k2. rewrite String.eqb_sym, E2.
      reflexivity.
Qed.

Section Ledger.
Context {env : PyEnv}.

(** X16.  What [append_ledger] appends.  The ledger after the call is the
    ledger before it, taken empty if there was none, followed by one line:
    the canonical text of the entry, in which a line feed can only occur
    escaped.  The entry written keeps every field of the caller's, its own
    [ts] included; a [ts] is added when there is none. *)
Theorem append_ledger_appends_one_line (entry : list (string * json))
    (w : world) :
  let w' := snd (runM (append_ledger entry) w) in
  exists e,
    ledger_entries (new_events w w') = [e]
    /\ fs w' !! ledger_file
       = Some (ledger_text (default EmptyString (fs w !! ledger_file)) [e])
    /\ one_line (canon e) = true
    /\ (forall k v, dict_get k entry = Some v -> json_field e k = Some v)
    /\ (exists ts, json_field e "ts" = Some ts)
    /\ (forall k, k <> "ts"%string -> json_field e k = dict_get k entry).
Proof.
  cbv zeta.
  exists (JObj (setdefault "ts" (JStr (clock (length (trace w)))) entry)).
  split.
  { rewrite (new_events_app w _
               [EvLedger (JObj (setdefault "ts"
                                  (JStr (clock (length (trace w)))) entry))])
      by reflexivity.
    reflexivity. }
  split.
  { cbn [runM append_ledger snd fs]. apply lookup_insert_eq. }
  split; [apply canon_one_line|].
  unfold json_field, setdefault.
  destruct (dict_get "ts" entry) as [t|] eqn:Hts.
  - split; [intros k v H; exact H|]. split; [eauto|reflexivity].
  - split; [|split].
    + intros k v H. rewrite dict_get_set.
      destruct (String.eqb "ts" k) eqn:E; [|exact H].
      apply String.eqb_eq in E. subst k. congruence.
    + rewrite dict_get_set. cbn. eauto.
    + intros k Hk. rewrite dict_get_set.
      destruct (String.eqb "ts" k) eqn:E; [|reflexivity].
      apply String.eqb_eq in E. congruence.
Qed.
End Ledger.

(** * The files of a run *)

Section RunFiles.
Context {env : PyEnv}.

Ltac fs_find :=
  cbn [fs]; unfold ledger_file in *;
  repeat (rewrite lookup_insert_ne by discriminate);
  apply lookup_insert_eq.

Ltac ledger_step :=
  cbv zeta; cbn [fs trace]; unfold ledger_file in *;
  repeat (rewrite lookup_insert_ne by discriminate);
  rewrite ?lookup_insert_eq; cbn [default from_option id].

Ltac fs_frame :=
  split;
  [intros f Hf; unfold run_files in Hf; cbn [fs]; unfold ledger_file;
   repeat (rewrite lookup_insert_ne
             by (intros <-; apply Hf; repeat first [left; reflexivity | right]));
   reflexivity
  |first [discriminate
         |intros _; cbn [fs]; unfold ledger_file;
          repeat (rewrite lookup_insert_ne by discriminate); reflexivity]].

Ltac fs_same :=
  cbn [fs]; unfold ledger_file;
  repeat (rewrite lookup_insert_ne by discriminate); reflexivity.

Ltac fs_is :=
  cbn [fs]; unfold ledger_file;
  repeat (rewrite lookup_insert_ne by discriminate);
  rewrite lookup_insert_eq; reflexivity.

Ltac fault_leaf Hout e1 e2 sims :=
  split; [fs_frame|];
  cbv beta iota;
  split; [exact Hout|];
  split; [fs_is|]; split; [fs_same|]; split; [fs_same|];
  exists e1, e2, sims;
  cbn [trace map fst snd]; unfold commit_events, blind_events;
  rewrite <- ?app_assoc; cbn [app]; reflexivity.

Ltac done_leaf o Hout E1 e2 E3 :=
  split; [fs_frame|];
  cbv beta iota;
  exists o, E1, e2, E3; eexists;
  split; [exact Hout|];
  split; [reflexivity|];
  split; [cbn [trace]; unfold run_events, commit_events, blind_events,
            evidence_events;
          rewrite <- ?app_assoc; cbn [app andb]; reflexivity|];
  unfold files_after, ledger_text, run_entries; cbv zeta; cbn [foldr app];
  split; [fs_is|]; split; [first [fs_is|fs_same]|]; split; [fs_is|];
  split; [cbn [fs]; unfold ledger_file;
          repeat (rewrite lookup_insert_ne by discriminate);
          rewrite lookup_insert_eq, !string_app_assoc; reflexivity|];
  split; [fs_is|];
  split; [eexists; reflexivity|];
  split; [first [discriminate|intros _; eexists; reflexivity]|];
  split; [eexists; reflexivity|];
  unfold manifest_obj; rewrite !string_app_assoc; reflexivity.

(** Every run leaves the files outside its own alone.  A run that returns
    leaves the five files described by [files_after]; a run that faults
    leaves [results.json] and the manifest as they were. *)
Lemma run_once_files (seed : Z) (blind reveal : bool) (w : world) :
  wp (run_once seed blind reveal)
     (fun r w' =>
        frame blind w w'
        /\ match r with
           | Ok code =>
               exists o e1 e2 e3 mf,
                 outcome seed blind = Ok o
                 /\ code = o_status o
                 /\ trace w' = trace w ++ run_events seed blind reveal o e1 e2 e3 mf
                 /\ files_after seed blind o e1 e2 e3 mf w w'
           | Raise e =>
               outcome seed blind = Raise e
               /\ files_at_fault seed blind w w'
           end)
     w.
Proof.
  unfold run_once. cbv zeta.
  apply wp_bind_write_json.
  eapply wp_bind_file_sha256; [fs_find|].
  apply wp_bind_lift. rewrite getitem_prereg_AEQ.
  apply wp_bind_lift. rewrite getitem_prereg_CID.
  apply wp_bind_append_ledger. ledger_step.
  fold (prereg_text seed).
  match goal with |- context [EvLedger ?e] => set (E1 := e) end.
  destruct blind.
  - cbv iota.
    apply wp_bind_assoc. apply wp_bind_lift. rewrite getitem_prereg_conditions.
    change (strings_of (JList (map JStr conditions))) with conditions.
    apply wp_bind_assoc. apply wp_bind_write_json.
    apply wp_bind_assoc. eapply wp_bind_file_sha256; [fs_find|].
    apply wp_bind_assoc. apply wp_bind_append_ledger. ledger_step.
    fold (labels_of seed true). fold (blind_map_text seed).
    match goal with |- context [EvLedger (JObj (setdefault ?k ?v (dict_of (("event", JStr "blind_map_written") :: ?l))))] =>
      set (E2 := JObj (setdefault k v (dict_of (("event", JStr "blind_map_written") :: l)))) end.
    apply wp_bind_ret.
    apply wp_bind_simulate. cbv zeta.
    destruct (backtest Prereg_default (Random (seed + 1)) "baseline")
      as [base|e] eqn:Hbase.
    2:{ assert (Hout : outcome seed true = Raise e)
          by (unfold outcome; cbv zeta; rewrite Hbase; reflexivity).
        fault_leaf Hout E1 E2 [("baseline"%string, seed + 1)]. }
    apply wp_bind_simulate. cbv zeta.
    destruct (backtest Prereg_default (Random (seed + 2)) "ablation")
      as [ablt|e] eqn:Hablt.
    2:{ assert (Hout : outcome seed true = Raise e)
          by (unfold outcome; cbv zeta; rewrite Hbase, Hablt; reflexivity).
        fault_leaf Hout E1 E2 [("baseline"%string, seed + 1);
                         ("ablation"%string, seed + 2)]. }
    apply wp_bind_simulate. cbv zeta.
    destruct (backtest Prereg_default (Random (seed + 3)) "negative_control")
      as [neg|e] eqn:Hneg.
    2:{ assert (Hout : outcome seed true = Raise e)
          by (unfold outcome; cbv zeta; rewrite Hbase, Hablt, Hneg; reflexivity).
        fault_leaf Hout E1 E2 [("baseline"%string, seed + 1);
                         ("ablation"%string, seed + 2);
                         ("negative_control"%string, seed + 3)]. }
    apply wp_bind_lift. apply wp_bind_lift. apply wp_bind_lift.
    destruct (getitem (labels_of seed true) "baseline") as [lb|e] eqn:Hlb.
    2:{ assert (Hout : outcome seed true = Raise e)
          by (unfold outcome; cbv zeta; rewrite Hbase, Hablt, Hneg, Hlb;
              reflexivity).
        fault_leaf Hout E1 E2 [("baseline"%string, seed + 1);
                         ("ablation"%string, seed + 2);
                         ("negative_control"%string, seed + 3)]. }
    apply wp_bind_lift.
    destruct (getitem (labels_of seed true) "ablation") as [la|e] eqn:Hla.
    2:{ assert (Hout : outcome seed true = Raise e)
          by (unfold outcome; cbv zeta; rewrite Hbase, Hablt, Hneg, Hlb, Hla;
              reflexivity).
        fault_leaf Hout E1 E2 [("baseline"%string, seed + 1);
                         ("ablation"%string, seed + 2);
                         ("negative_control"%string, seed + 3)]. }
    apply wp_bind_lift.
    destruct (getitem (labels_of seed true) "negative_control")
      as [ln|e] eqn:Hln.
    2:{ assert (Hout : outcome seed true = Raise e)
          by (unfold outcome; cbv zeta;
              rewrite Hbase, Hablt, Hneg, Hlb, Hla, Hln; reflexivity).
        fault_leaf Hout E1 E2 [("baseline"%string, seed + 1);
                         ("ablation"%string, seed + 2);
                         ("negative_control"%string, seed + 3)]. }
    set (o := {| o_base := base; o_ablt := ablt; o_neg := neg;
                 o_lb := lb; o_la := la; o_ln := ln |}).
    assert (Hout : outcome seed true = Ok o)
      by (unfold outcome; cbv zeta; rewrite Hbase, Hablt, Hneg, Hlb, Hla, Hln;
          reflexivity).
    change (results_obj _ _ seed true _ _ _) with (o_results seed true o).
    change (overall_of _) with (o_overall o).
    clearbody o. clear Hbase Hablt Hneg Hlb Hla Hln.
    apply wp_bind_write_json.
    eapply wp_bind_file_sha256; [fs_find|].
    apply wp_bind_append_ledger. ledger_step.
    fold (results_text seed true o).
    match goal with |- context [EvLedger (JObj (setdefault ?k ?v (dict_of (("event", JStr "results_written") :: ?l))))] =>
      set (E3 := JObj (setdefault k v (dict_of (("event", JStr "results_written") :: l)))) end.
    apply wp_bind_lift. apply wp_bind_lift.
    eapply wp_bind_file_sha256; [fs_find|].
    eapply wp_bind_file_sha256; [fs_find|].
    eapply wp_bind_file_sha256; [fs_find|].
    apply wp_bind_assoc. eapply wp_bind_file_sha256; [fs_find|].
    apply wp_bind_ret. apply wp_bind_write_json.
    destruct reveal; cbn [andb].
    + eapply wp_bind_exists_file; [fs_find|]. cbv iota.
      apply wp_bind_assoc. apply wp_bind_emit.
      apply wp_bind_assoc. eapply wp_bind_read_text; [fs_find|].
      apply wp_bind_emit. apply wp_bind_emit. apply wp_ret.

      done_leaf o Hout E1 E2 E3.
    + apply wp_bind_ret. cbv iota. apply wp_bind_ret.
      apply wp_bind_emit. apply wp_ret.
      done_leaf o Hout E1 E2 E3.
  - cbv iota. apply wp_bind_ret.
    apply wp_bind_simulate. cbv zeta.
    destruct (backtest Prereg_default (Random (seed + 1)) "baseline")
      as [base|e] eqn:Hbase.
    2:{ assert (Hout : outcome seed false = Raise e)
          by (unfold outcome; cbv zeta; rewrite Hbase; reflexivity).
        fault_leaf Hout E1 JNull [("baseline"%string, seed + 1)]. }
    apply wp_bind_simulate. cbv zeta.
    destruct (backtest Prereg_default (Random (seed + 2)) "ablation")
      as [ablt|e] eqn:Hablt.
    2:{ assert (Hout : outcome seed false = Raise e)
          by (unfold outcome; cbv zeta; rewrite Hbase, Hablt; reflexivity).
        fault_leaf Hout E1 JNull [("baseline"%string, seed + 1);
                         ("ablation"%string, seed + 2)]. }
    apply wp_bind_simulate. cbv zeta.
    destruct (backtest Prereg_default (Random (seed + 3)) "negative_control")
      as [neg|e] eqn:Hneg.
    2:{ assert (Hout : outcome seed false = Raise e)
          by (unfold outcome; cbv zeta; rewrite Hbase, Hablt, Hneg; reflexivity).
        fault_leaf Hout E1 JNull [("baseline"%string, seed + 1);
                         ("ablation"%string, seed + 2);
                         ("negative_control"%string, seed + 3)]. }
    apply wp_bind_lift. apply wp_bind_lift.
    apply wp_bind_lift.
    change (getitem plain_labels "baseline") with (@Ok string "baseline"%string).
    apply wp_bind_lift.
    change (getitem plain_labels "ablation") with (@Ok string "ablation"%string).
    apply wp_bind_lift.
    change (getitem plain_labels "negative_control")
      with (@Ok string "negative_control"%string).
    cbv beta iota.
    set (o := {| o_base := base; o_ablt := ablt; o_neg := neg;
                 o_lb := "baseline"; o_la := "ablation";
                 o_ln := "negative_control" |}).
    assert (Hout : outcome seed false = Ok o)
      by (unfold outcome; cbv zeta; rewrite Hbase, Hablt, Hneg; reflexivity).
    change (results_obj _ _ seed false _ _ _) with (o_results seed false o).
    change (overall_of _) with (o_overall o).
    clearbody o. clear Hbase Hablt Hneg.
    apply wp_bind_write_json.
    eapply wp_bind_file_sha256; [fs_find|].
    apply wp_bind_append_ledger. ledger_step.
    fold (results_text seed false o).
    match goal with |- context [EvLedger (JObj (setdefault ?k ?v (dict_of (("event", JStr "results_written") :: ?l))))] =>
      set (E3 := JObj (setdefault k v (dict_of (("event", JStr "results_written") :: l)))) end.
    apply wp_bind_lift. apply wp_bind_lift.
    eapply wp_bind_file_sha256; [fs_find|].
    eapply wp_bind_file_sha256; [fs_find|].
    eapply wp_bind_file_sha256; [fs_find|].
    apply wp_bind_ret. apply wp_bind_write_json.
    destruct reveal; cbn [andb].
    + apply wp_bind_ret. cbv iota. apply wp_bind_ret.
      apply wp_bind_emit. apply wp_ret.
      done_leaf o Hout E1 JNull E3.
    + apply wp_bind_ret. cbv iota. apply wp_bind_ret.
      apply wp_bind_emit. apply wp_ret.
      done_leaf o Hout E1 JNull E3.
Qed.

End RunFiles.

Section RunFileTheorems.
Context {env : PyEnv}.

Lemma run_once_returns (seed : Z) (blind reveal : bool) (w w' : world)
    (code : Z) :
  runM (run_once seed blind reveal) w = (Ok code, w') ->
  exists o e1 e2 e3 mf,
    outcome seed blind = Ok o
    /\ new_events w w' = run_events seed blind reveal o e1 e2 e3 mf
    /\ files_after seed blind o e1 e2 e3 mf w w'.
Proof.
  intros H. pose proof (run_once_files seed blind reveal w) as H0.
  unfold wp in H0. rewrite H in H0. cbn [fst snd] in H0.
  destruct H0 as (_ & o & e1 & e2 & e3 & mf & Ho & _ & HT & Hf).
  exists o, e1, e2, e3, mf. split; [exact Ho|].
  split; [apply new_events_app, HT|exact Hf].
Qed.

Lemma written_manifest (seed : Z) (blind reveal : bool) (o : Outcome)
    (e1 e2 e3 mf : json) :
  written "artifacts_manifest.json" (run_events seed blind reveal o e1 e2 e3 mf)
  = [mf].
Proof. destruct blind, reveal; reflexivity. Qed.

Lemma ledger_entries_run (seed : Z) (blind reveal : bool) (o : Outcome)
    (e1 e2 e3 mf : json) :
  ledger_entries (run_events seed blind reveal o e1 e2 e3 mf)
  = run_entries blind e1 e2 e3.
Proof. destruct blind, reveal; reflexivity. Qed.

Lemma printed_run (seed : Z) (blind reveal : bool) (o : Outcome)
    (e1 e2 e3 mf : json) :
  printed (run_events seed blind reveal o e1 e2 e3 mf)
  = (if reveal && blind
     then ["BLIND MAP (reveal):"%string; blind_map_text seed] else [])
    ++ [dumps (o_results seed blind o)].
Proof. destruct blind, reveal; reflexivity. Qed.

(** X11.  The manifest of a completed run is sound.  It lists
    [prereg.json], [results.json] and [ledger.ndjson], and
    [blind_map.json] exactly when blinding; the hash it gives for each is
    the SHA-256 of the file as the run leaves it.  The manifest does not
    list itself. *)
Theorem manifest_matches_files (seed : Z) (blind reveal : bool) (w w' : world)
    (code : Z) :
  runM (run_once seed blind reveal) w = (Ok code, w') ->
  exists mf files,
    written "artifacts_manifest.json" (new_events w w') = [mf]
    /\ fs w' !! "artifacts_manifest.json" = Some (dumps mf ++ newline)%string
    /\ json_field mf "files" = Some (JObj files)
    /\ map fst files
       = ["prereg.json"; "results.json"; "ledger.ndjson"]%string
         ++ (if blind then ["blind_map.json"%string] else [])
    /\ Forall (fun kv => exists text,
                 fs w' !! fst kv = Some text
                 /\ snd kv = JStr (sha256_hex (encode text))) files.
Proof.
  intros H.
  destruct (run_once_returns _ _ _ _ _ _ H)
    as (o & e1 & e2 & e3 & mf & Ho & Hev & Hf).
  destruct Hf as (HP & HB & HR & HL & HM & _ & _ & _ & Hmf).
  exists mf. rewrite Hev, written_manifest. subst mf.
  unfold ledger_file in HL.
  destruct blind; eexists;
    (split; [reflexivity|]); (split; [exact HM|]);
    (split; [reflexivity|]); (split; [reflexivity|]);
    repeat constructor; eexists; (split; [eassumption|reflexivity]).
Qed.

(** X12.  The ledger of a completed run.  The run appends one line per
    entry to the ledger it found, never rewriting what was there: the
    entries are [prereg_written], [blind_map_written] when blinding, and
    [results_written], in this order, and each carries the SHA-256 of the
    file it names as the run leaves that file. *)
Theorem ledger_records_the_run (seed : Z) (blind reveal : bool) (w w' : world)
    (code : Z) :
  runM (run_once seed blind reveal) w = (Ok code, w') ->
  exists entries,
    ledger_entries (new_events w w') = entries
    /\ fs w' !! ledger_file
       = Some (ledger_text (default EmptyString (fs w !! ledger_file)) entries)
    /\ omap (fun e => entry_text e "event") entries
       = ["prereg_written"%string]
         ++ (if blind then ["blind_map_written"%string] else [])
         ++ ["results_written"%string]
    /\ Forall (fun e => exists file text,
                 entry_text e "file" = Some file
                 /\ fs w' !! file = Some text
                 /\ entry_text e "sha256" = Some (sha256_hex (encode text)))
         entries.
Proof.
  intros H.
  destruct (run_once_returns _ _ _ _ _ _ H)
    as (o & e1 & e2 & e3 & mf & Ho & Hev & Hf).
  destruct Hf as (HP & HB & HR & HL & _ & [t1 ->] & H2 & [t3 ->] & _).
  exists (run_entries blind (prereg_entry seed t1) e2 (results_entry seed blind o t3)).
  split; [rewrite Hev; apply ledger_entries_run|].
  split; [exact HL|].
  destruct blind.
  - destruct (H2 eq_refl) as [t2 ->].
    split; [reflexivity|].
    repeat constructor; eexists; eexists;
      (split; [reflexivity|]); (split; [eassumption|reflexivity]).
  - split; [reflexivity|].
    repeat constructor; eexists; eexists;
      (split; [reflexivity|]); (split; [eassumption|reflexivity]).
Qed.

(** X13.  What a run touches.  Whether it returns or faults,
    [run_once] changes no file of the directory but [prereg.json],
    [blind_map.json], [results.json], [ledger.ndjson] and
    [artifacts_manifest.json]; without the blind flag it leaves
    [blind_map.json] as it found it, a stale one included. *)
Theorem run_touches_only_its_files (seed : Z) (blind reveal : bool) (w : world) :
  let w' := snd (runM (run_once seed blind reveal) w) in
  (forall f, f ∉ run_files -> fs w' !! f = fs w !! f)
  /\ (blind = false -> fs w' !! "blind_map.json" = fs w !! "blind_map.json").
Proof.
  pose proof (run_once_files seed blind reveal w) as H. unfold wp in H.
  exact (proj1 H).
Qed.

(** X15.  What a completed run prints.  The last text printed is the
    results as JSON, the text of [results.json] without its final newline;
    before it, and only with both the reveal and the blind flag, a heading
    and the text of [blind_map.json]. *)
Theorem printed_is_what_was_written (seed : Z) (blind reveal : bool)
    (w w' : world) (code : Z) :
  runM (run_once seed blind reveal) w = (Ok code, w') ->
  exists rtext,
    fs w' !! "results.json" = Some (rtext ++ newline)%string
    /\ written "results.json" (new_events w w') <> []
    /\ if reveal && blind
       then exists btext,
              fs w' !! "blind_map.json" = Some btext
              /\ printed (new_events w w')
                 = ["BLIND MAP (reveal):"%string; btext; rtext]
       else printed (new_events w w') = [rtext].
Proof.
  intros H.
  destruct (run_once_returns _ _ _ _ _ _ H)
    as (o & e1 & e2 & e3 & mf & Ho & Hev & Hf).
  destruct Hf as (_ & HB & HR & _).
  exists (dumps (o_results seed blind o)).
  split; [exact HR|].
  rewrite Hev, written_results, printed_run.
  split; [discriminate|].
  destruct reveal, blind; cbn [andb app]; try reflexivity.
  exists (blind_map_text seed). split; [exact HB|reflexivity].
Qed.
End RunFileTheorems.

(** * The blind labels *)

(** X18.  When the shuffle returns a permutation of the three conditions,
    the blind labels number it: the condition at place [i] gets the label
    [C(i+1)].  Every condition has a label among [C1], [C2], [C3], and no
    two conditions share one. *)
Theorem blind_labels_number_the_shuffle (l : list string) :
  Permutation conditions l ->
  blind_labels l = combine l ["C1"; "C2"; "C3"]%string
  /\ (forall c, In c conditions ->
        exists lab, getitem (blind_labels l) c = Ok lab
                    /\ In lab ["C1"; "C2"; "C3"]%string)
  /\ (forall c c' lab,
        getitem (blind_labels l) c = Ok lab ->
        getitem (blind_labels l) c' = Ok lab -> c = c').
Proof.
  intros H. apply permutations_Permutation, list_elem_of_In in H.
  vm_compute in H.
  assert (E : blind_labels l = combine l ["C1"; "C2"; "C3"]%string)
    by (repeat (destruct H as [<-|H]); [reflexivity..|destruct H]).
  split; [exact E|]. rewrite E. clear E. split.
  - intros c Hc. unfold conditions in Hc. simpl in Hc.
    destruct Hc as [<-|[<-|[<-|[]]]];
      repeat (destruct H as [<-|H]); try (destruct H);
      eexists; (split; [reflexivity|]); simpl; tauto.
  - intros c c' lab. unfold getitem.
    repeat (destruct H as [<-|H]); try (destruct H);
      cbn [combine dict_get];
      repeat match goal with
             | |- context [String.eqb ?a ?b] => destruct (String.eqb_spec a b)
             end;
      intros E1 E2; try discriminate E1; try discriminate E2; congruence.
Qed.

Lemma blind_labels_number_the_shuffle_witness :
  blind_labels ["ablation"; "negative_control"; "baseline"]%string
  = [("ablation", "C1"); ("negative_control", "C2"); ("baseline", "C3")]%string.
Proof.
  apply (blind_labels_number_the_shuffle
           ["ablation"; "negative_control"; "baseline"]%string).
  apply (Permutation_cons_append ["ablation"; "negative_control"]%string).
Defined.


(** ** The statements about files on the small library instances *)

Section FilesAtWork.
#[local] Existing Instance toy_env.

Lemma manifest_matches_files_witness :
  o_status <$> outcome 5 true = Ok 2
  /\ exists mf files,
       written "artifacts_manifest.json"
         (new_events empty_world (snd (runM (run_once 5 true false) empty_world)))
       = [mf]
       /\ json_field mf "files" = Some (JObj files)
       /\ map fst files
          = ["prereg.json"; "results.json"; "ledger.ndjson"; "blind_map.json"]%string.
Proof.
  assert (H : o_status <$> outcome 5 true = Ok 2) by (vm_compute; reflexivity).
  split; [exact H|].
  destruct (manifest_matches_files 5 true false empty_world _ 2
              (toy_status 5 true false 2 H))
    as (mf & files & H1 & _ & H3 & H4 & _).
  exists mf, files. split; [exact H1|]. split; [exact H3|exact H4].
Defined.

Lemma ledger_records_the_run_witness :
  o_status <$> outcome 5 true = Ok 2
  /\ exists entries,
       ledger_entries
         (new_events empty_world (snd (runM (run_once 5 true false) empty_world)))
       = entries
       /\ omap (fun e => entry_text e "event") entries
          = ["prereg_written"; "blind_map_written"; "results_written"]%string.
Proof.
  assert (H : o_status <$> outcome 5 true = Ok 2) by (vm_compute; reflexivity).
  split; [exact H|].
  destruct (ledger_records_the_run 5 true false empty_world _ 2
              (toy_status 5 true false 2 H))
    as (entries & H1 & _ & H3 & _).
  exists entries. split; [exact H1|exact H3].
Defined.

Lemma printed_is_what_was_written_witness :
  o_status <$> outcome 5 true = Ok 2
  /\ exists rtext btext,
       printed
         (new_events empty_world (snd (runM (run_once 5 true true) empty_world)))
       = ["BLIND MAP (reveal):"%string; btext; rtext].
Proof.
  assert (H : o_status <$> outcome 5 true = Ok 2) by (vm_compute; reflexivity).
  split; [exact H|].
  destruct (printed_is_what_was_written 5 true true empty_world _ 2
              (toy_status 5 true true 2 H))
    as (rtext & _ & _ & btext & _ & Hp).
  exists rtext, btext. exact Hp.
Defined.
End FilesAtWork.
